(** * Art Knowledge Graph backend: graph generation, cache guard, entity model

    A shallow embedding of the parts of the backend that carry the
    algorithmic content:

    - [shared/utils/cache.py]: [CircuitBreaker], [CacheManager.get_cached_data],
      [CacheManager.set_cached_data], [CacheManager.cache_decorator];
    - [shared/database/redis.py]: [CircuitBreaker] and the [circuit_breaker]
      decorator of the Redis client, [RedisClient._check_rate_limit];
    - [graph_service/services/graph_generator.py]: the [circuit_breaker]
      decorator, [GraphGenerator.generate_artwork_graph],
      [_generate_graph_parallel], [_process_node_chunk], [_get_from_cache],
      [_cache_graph], [_update_metrics];
    - [graph_service/models/node.py]: [Node.validate_properties],
      [Node.create], [Node.update], [Node.delete];
    - [graph_service/models/artwork.py]: [Artwork.__init__],
      [Artwork._generate_checksum], [Artwork.update_metadata];
    - [graph_service/models/relationship.py]:
      [Relationship.validate_properties], [Relationship.update];
    - [graph_service/utils/graph_algorithms.py]: [find_similar_artworks],
      [detect_communities], [calculate_graph_metrics].

    Conventions.  Python [int] is [Z]; [str] is [string]; a [dict] keyed by
    strings is a [gmap string _] unless its insertion order is observed, in
    which case it is an association list; a [set] is a [gset] or, where its
    elements are records, a duplicate-free list.  A call that may raise
    returns a [Result].  Model objects are records compared by value; a
    method that mutates [self] returns the object as it is afterwards.
    Wall-clock readings are POSIX seconds, passed in explicitly.
    Floating-point quotients of two integers are kept as exact rationals
    ([Q]). *)

From stdpp Require Import gmap strings list fin_maps pretty.
From Stdlib Require Import QArith Permutation Sorted.

#[local] Open Scope Z_scope.
#[local] Open Scope string_scope.

(** ** Python values and exceptions *)

(** The values a property map ([Dict[str, Any]]) holds. *)
#[warnings="-register-all"]
Inductive PyVal :=
  | PNone
  | PInt (z : Z)
  | PFloat (q : Q)
  | PStr (s : string)
  | PList (l : list PyVal)
  | PDict (d : list (string * PyVal)).

Definition PyVal_eq_dec : forall a b : PyVal, {a = b} + {a <> b}.
Proof.
  fix IH 1. intros a b.
  destruct a as [|x|q|s|l|d], b as [|y|q'|t|l'|d']; try (right; discriminate).
  - left; reflexivity.
  - destruct (Z.eq_dec x y) as [->|N]; [left; reflexivity | right; congruence].
  - destruct q as [n p], q' as [n' p'].
    destruct (Z.eq_dec n n') as [->|N]; [|right; congruence].
    destruct (Pos.eq_dec p p') as [->|N]; [left; reflexivity | right; congruence].
  - destruct (decide (s = t)) as [->|N]; [left; reflexivity | right; congruence].
  - destruct (List.list_eq_dec IH l l') as [->|N];
      [left; reflexivity | right; congruence].
  - assert (Hp : forall p q : string * PyVal, {p = q} + {p <> q}).
    { intros [k v] [k' v'].
      destruct (decide (k = k')) as [->|N]; [|right; congruence].
      destruct (IH v v') as [->|N]; [left; reflexivity | right; congruence]. }
    destruct (List.list_eq_dec Hp d d') as [->|N];
      [left; reflexivity | right; congruence].
Defined.

#[export] Instance PyVal_eq_decision : EqDecision PyVal := PyVal_eq_dec.

(** The exceptions the modelled code raises or lets through. *)
Inductive Exn :=
  | ValueError (msg : string)
  | KeyError (key : string)
  | TypeError (msg : string)
  | ZeroDivisionError
  | IndexError (msg : string)
  | PyException (msg : string)
  | ConnectionError (msg : string)
  | RetryError.

#[export] Instance Exn_eq_decision : EqDecision Exn.
Proof. solve_decision. Defined.

Inductive Result (A : Type) :=
  | Ok (a : A)
  | Raise (e : Exn).
Arguments Ok {A} a.
Arguments Raise {A} e.

Definition is_ok {A} (r : Result A) : bool :=
  match r with Ok _ => true | Raise _ => false end.

#[export] Instance Result_ret : MRet Result := fun A a => Ok a.
#[export] Instance Result_bind : MBind Result := fun A B k r =>
  match r with Ok a => k a | Raise e => Raise e end.
#[export] Instance Result_fmap : FMap Result := fun A B f r =>
  match r with Ok a => Ok (f a) | Raise e => Raise e end.

(** [tenacity]'s [@retry(stop=stop_after_attempt(n),
    retry=retry_if_exception_type(Exception))] around a call that changes a
    state [S]: attempt [i] runs [f i]; the first attempt that returns ends
    the loop, and when all [n] attempts have raised the wrapper raises
    [RetryError]. *)
Fixpoint retry {St A : Type} (n : nat) (f : nat -> St -> Result A * St)
    (i : nat) (s : St) : Result A * St :=
  match n with
  | O => (Raise RetryError, s)
  | S n' =>
      match f i s with
      | (Ok a, s') => (Ok a, s')
      | (Raise _, s') => retry n' f (S i) s'
      end
  end.

(** Node and relationship identifiers: [uuid.UUID] values in their canonical
    text form ([str(uuid)]), which is how every query parameter and every
    [Relationship] field carries them. *)
Abbreviation UUID := string.

(** ** Cache circuit breaker ([shared/utils/cache.py]) *)

Module Breaker.

Definition CIRCUIT_BREAKER_THRESHOLD : Q := 1 # 2.
Definition CIRCUIT_BREAKER_INTERVAL : Z := 30.

Record CircuitBreaker := mkCB {
  threshold : Q;
  interval : Z;
  failures : Z;
  total_requests : Z;
  last_failure_time : Z;
  _is_open : bool
}.

(** [CircuitBreaker.__init__] *)
Definition init (threshold : Q) (interval : Z) : CircuitBreaker :=
  mkCB threshold interval 0 0 0 false.

Definition set_open (b : bool) (cb : CircuitBreaker) : CircuitBreaker :=
  mkCB (threshold cb) (interval cb) (failures cb) (total_requests cb)
       (last_failure_time cb) b.

(** The [is_open] property: reading it may clear the flag. *)
Definition is_open (now : Z) (cb : CircuitBreaker) : bool * CircuitBreaker :=
  if _is_open cb then
    if Z.ltb (interval cb) (now - last_failure_time cb)
    then (false, set_open false cb)
    else (true, cb)
  else (false, cb).

(** [failures / total_requests], for [total_requests > 0]. *)
Definition failure_ratio (cb : CircuitBreaker) : Q :=
  Qmake (failures cb) (Z.to_pos (total_requests cb)).

Definition Qlt_bool (x y : Q) : bool :=
  Z.ltb (Qnum x * Zpos (Qden y)) (Qnum y * Zpos (Qden x)).

Definition _update_state (cb : CircuitBreaker) : CircuitBreaker :=
  if Z.ltb 0 (total_requests cb) then
    if Qlt_bool (threshold cb) (failure_ratio cb)
    then set_open true cb
    else cb
  else cb.

Definition record_success (cb : CircuitBreaker) : CircuitBreaker :=
  _update_state
    (mkCB (threshold cb) (interval cb) (failures cb) (total_requests cb + 1)
          (last_failure_time cb) (_is_open cb)).

Definition record_failure (now : Z) (cb : CircuitBreaker) : CircuitBreaker :=
  _update_state
    (mkCB (threshold cb) (interval cb) (failures cb + 1)
          (total_requests cb + 1) now (_is_open cb)).

(** *** [CacheManager.get_cached_data] *)

(** What [self._client.get(formatted_key)] does on one call: it returns the
    stored text, returns [None], or raises.  The client itself, at a given
    moment, is a function from formatted keys to such replies. *)
Inductive ClientReply :=
  | Data (d : option string)
  | ClientRaises (e : Exn).

Definition CACHE_KEY_PREFIX := "akg:cache:".
Definition MAX_RETRY_ATTEMPTS : nat := 3.

Record CacheManager := mkCM {
  _circuit_breaker : CircuitBreaker;
  hits : Z;
  misses : Z;
  errors : Z
}.

Section GetCachedData.

(** [json.loads]: the parsed value, or the [JSONDecodeError] it raises. *)
Variable json_loads : string -> Result PyVal.

(** Truthiness of the client's answer ([if data:]). *)
Definition truthy (d : option string) : bool :=
  match d with
  | Some s => negb (String.eqb s "")
  | None => false
  end.

(** The body of [get_cached_data], one attempt.  [now] is the clock as the
    attempt reads it, [client] the client as the attempt finds it. *)
Definition get_cached_data_once (key : string) (use_circuit_breaker : bool)
    (now : Z) (client : string -> ClientReply) (m : CacheManager)
    : Result (option PyVal) * CacheManager :=
  let '(opened, cb) :=
    if use_circuit_breaker then is_open now (_circuit_breaker m)
    else (false, _circuit_breaker m) in
  if opened then
    (Raise (PyException "Circuit breaker is open"),
     mkCM cb (hits m) (misses m) (errors m))
  else
    let failed (e : Exn) (h : Z) (cb' : CircuitBreaker) :=
      (Raise e, mkCM (record_failure now cb') h (misses m) (errors m + 1)) in
    let formatted_key := CACHE_KEY_PREFIX ++ key in
    match client formatted_key with
    | ClientRaises e => failed e (hits m) cb
    | Data d =>
        if truthy d then
          let cb' := record_success cb in
          match json_loads (default "" d) with
          | Ok v => (Ok (Some v), mkCM cb' (hits m + 1) (misses m) (errors m))
          | Raise e => failed e (hits m + 1) cb'
          end
        else (Ok None, mkCM cb (hits m) (misses m + 1) (errors m))
    end.

(** [get_cached_data] under its [@retry] decorator: attempt [i] sees the
    clock and the client as [env i] gives them. *)
Definition get_cached_data (key : string) (use_circuit_breaker : bool)
    (env : nat -> Z * (string -> ClientReply)) (m : CacheManager)
    : Result (option PyVal) * CacheManager :=
  retry MAX_RETRY_ATTEMPTS
    (fun i => get_cached_data_once key use_circuit_breaker (env i).1 (env i).2)
    0%nat m.

End GetCachedData.

End Breaker.

(** ** The graph store as the entity model queries it
    ([shared/database/neo4j.py], seen through the Cypher texts of
    [graph_service/models/node.py]) *)

Module Neo4j.

(** A [:Node] vertex as the store keeps it. *)
Record StoredNode := mkStored {
  sn_type : string;
  sn_label : string;
  sn_properties : gmap string PyVal;
  sn_created_at : Z;
  sn_updated_at : Z;
  sn_version : Z;
  sn_last_modified_by : string
}.

(** The parameterised queries of [node.py], one constructor per query text,
    carrying the bound parameters. *)
Inductive Query :=
  | CreateNode (uuid : UUID) (n : StoredNode)
  | UpdateNode (uuid : UUID) (current_version : Z)
      (properties : gmap string PyVal) (updated_at : Z) (new_version : Z)
      (modified_by : string)
  | CountRelationships (uuid : UUID)
  | DeleteNode (uuid : UUID).

Inductive Row :=
  | RNode (n : StoredNode)
  | RCount (rel_count : Z).

(** The store: vertices by uuid, edges as (source, target) pairs, the
    queries issued so far (oldest first), and for every position in that
    sequence whether the call fails after its retries. *)
Record Neo4jConnection := mkDb {
  db_nodes : gmap string StoredNode;
  db_rels : list (UUID * UUID);
  db_fails : nat -> bool;
  db_log : list Query
}.

Definition incident (u : UUID) (r : UUID * UUID) : bool :=
  bool_decide (r.1 = u) || bool_decide (r.2 = u).

(** [MATCH (n:Node {uuid: $uuid})-[r]-() RETURN count(r)] *)
Definition rel_count (db : Neo4jConnection) (u : UUID) : Z :=
  Z.of_nat (length (List.filter (incident u) (db_rels db))).

Definition with_nodes (nodes : gmap string StoredNode) (log : list Query)
    (db : Neo4jConnection) : Neo4jConnection :=
  mkDb nodes (db_rels db) (db_fails db) log.

(** [execute_query]: the rows the query returns and the store after it. *)
Definition execute_query (db : Neo4jConnection) (q : Query)
    : Result (list Row) * Neo4jConnection :=
  let log := (db_log db ++ [q])%list in
  if db_fails db (length (db_log db)) then
    (Raise (ConnectionError "Query failed after all retry attempts"),
     with_nodes (db_nodes db) log db)
  else
    match q with
    | CreateNode u n =>
        (Ok [RNode n], with_nodes (<[u := n]> (db_nodes db)) log db)
    | UpdateNode u current_version props updated_at new_version modified_by =>
        match db_nodes db !! u with
        | Some n =>
            if Z.eqb (sn_version n) current_version then
              let n' := mkStored (sn_type n) (sn_label n) props
                          (sn_created_at n) updated_at new_version
                          modified_by in
              (Ok [RNode n'], with_nodes (<[u := n']> (db_nodes db)) log db)
            else (Ok [], with_nodes (db_nodes db) log db)
        | None => (Ok [], with_nodes (db_nodes db) log db)
        end
    | CountRelationships u =>
        (Ok [RCount (rel_count db u)], with_nodes (db_nodes db) log db)
    | DeleteNode u =>
        (Ok [], with_nodes (delete u (db_nodes db)) log db)
    end.

End Neo4j.

(** ** [graph_service/models/node.py] *)

Module NodeModel.
Import Neo4j.

Definition NODE_TYPES : list string :=
  ["ARTWORK"; "ARTIST"; "MOVEMENT"; "TECHNIQUE"; "PERIOD"; "LOCATION";
   "MATERIAL"].

Definition NODE_LABELS : gmap string string :=
  list_to_map
    [("ARTWORK", "Artwork"); ("ARTIST", "Artist");
     ("MOVEMENT", "Art Movement"); ("TECHNIQUE", "Technique");
     ("PERIOD", "Time Period"); ("LOCATION", "Location");
     ("MATERIAL", "Material")].

Definition REQUIRED_PROPERTIES : gmap string (list string) :=
  list_to_map
    [("ARTWORK", ["title"; "year"; "medium"]);
     ("ARTIST", ["name"; "birth_year"]);
     ("MOVEMENT", ["name"; "period"]);
     ("TECHNIQUE", ["name"; "description"])].

Record Node := mkNode {
  uuid : UUID;
  type : string;
  label : string;
  properties : gmap string PyVal;
  created_at : Z;
  updated_at : Z;
  version : Z;
  last_modified_by : string
}.

(** Python's [repr] of a list of strings, as the error message prints it. *)
Definition repr_list (l : list string) : string :=
  "[" ++ String.concat ", " (List.map (fun s => "'" ++ s ++ "'") l) ++ "]".

Section WithSanitizer.

(** [bleach.clean(value, strip=True)] *)
Variable clean : string -> string.

Definition sanitize (v : PyVal) : PyVal :=
  match v with
  | PStr s => PStr (clean s)
  | _ => v
  end.

Definition missing_properties (ty : string) (props : gmap string PyVal)
    : list string :=
  List.filter (fun p => bool_decide (props !! p = None))
              (default [] (REQUIRED_PROPERTIES !! ty)).

(** [Node.validate_properties] *)
Definition validate_properties (ty : string) (props : gmap string PyVal)
    : Result (gmap string PyVal) :=
  match missing_properties ty props with
  | [] => Ok (sanitize <$> props)
  | missing =>
      Raise (ValueError ("Missing required properties for " ++ ty ++ ": "
                         ++ repr_list missing))
  end.

(** [Node.__init__]; [node_uuid] is the [uuid4()] drawn, [now] the clock. *)
Definition init (node_uuid : UUID) (now : Z) (ty : string)
    (props : gmap string PyVal) (modified_by : string) : Result Node :=
  if bool_decide (ty ∈ NODE_TYPES) then
    validated ← validate_properties ty props;
    Ok (mkNode node_uuid ty (default ty (NODE_LABELS !! ty)) validated
               now now 1 modified_by)
  else
    Raise (ValueError ("Invalid node type. Must be one of: "
                       ++ repr_list NODE_TYPES)).

(** [Node.update]: the outcome, the object afterwards, the store
    afterwards. *)
Definition update (self : Node) (db : Neo4jConnection)
    (props : gmap string PyVal) (modified_by : string) (now : Z)
    : Result Node * Node * Neo4jConnection :=
  match validate_properties (type self) (props ∪ properties self) with
  | Raise e => (Raise e, self, db)
  | Ok validated_properties =>
      let q := UpdateNode (uuid self) (version self) validated_properties
                          now (version self + 1) modified_by in
      match execute_query db q with
      | (Raise e, db') => (Raise e, self, db')
      | (Ok [], db') =>
          (Raise (ValueError "Node version conflict or node not found"),
           self, db')
      | (Ok (_ :: _), db') =>
          let self' := mkNode (uuid self) (type self) (label self)
                         validated_properties (created_at self) now
                         (version self + 1) modified_by in
          (Ok self', self', db')
      end
  end.

End WithSanitizer.

(** [Node.delete] *)
Definition delete (self : Node) (db : Neo4jConnection) (modified_by : string)
    : Result bool * Neo4jConnection :=
  match execute_query db (CountRelationships (uuid self)) with
  | (Raise e, db1) => (Raise e, db1)
  | (Ok rows, db1) =>
      match rows with
      | RCount c :: _ =>
          if Z.ltb 0 c then
            (Raise (ValueError
                      "Cannot delete node with existing relationships"), db1)
          else
            match execute_query db1 (DeleteNode (uuid self)) with
            | (Raise e, db2) => (Raise e, db2)
            | (Ok _, db2) => (Ok true, db2)
            end
      | RNode _ :: _ => (Raise (KeyError "rel_count"), db1)
      | [] => (Raise (IndexError "list index out of range"), db1)
      end
  end.

End NodeModel.

(** ** [graph_service/models/artwork.py] *)

Module ArtworkModel.
Import Neo4j NodeModel.

(** An [Artwork] is a [Node] with the fields below; the optional descriptive
    fields (dimensions, location, ...) are never read or written by the
    methods modelled here and are left out. *)
Record Artwork := mkArtwork {
  node : Node;
  title : string;
  creation_date : Z;
  medium : string;
  security_level : string;
  last_modified : Z;
  created_by : string;
  modified_by : string
}.

Definition with_properties (props : gmap string PyVal) (n : Node) : Node :=
  mkNode (uuid n) (type n) (label n) props (created_at n) (updated_at n)
         (version n) (last_modified_by n).

Definition with_node (n : Node) (a : Artwork) : Artwork :=
  mkArtwork n (title a) (creation_date a) (medium a) (security_level a)
            (last_modified a) (created_by a) (modified_by a).

(** [d[k] = v] on a dict kept in insertion order. *)
Fixpoint dict_set (k : string) (v : PyVal) (d : list (string * PyVal))
    : list (string * PyVal) :=
  match d with
  | [] => [(k, v)]
  | (k', v') :: rest =>
      if String.eqb k k' then (k, v) :: rest
      else (k', v') :: dict_set k v rest
  end.

(** [{**a, **b}] *)
Definition dict_merge (a b : list (string * PyVal)) : list (string * PyVal) :=
  fold_left (fun acc kv => dict_set kv.1 kv.2 acc) b a.

Definition allowed_levels : list string := ["public"; "restricted"; "private"].

(** [v + 1] for the values that have one. *)
Definition plus_one (v : PyVal) : option PyVal :=
  match v with
  | PInt z => Some (PInt (z + 1))
  | PFloat q => Some (PFloat (q + 1)%Q)
  | _ => None
  end.

Section WithLibraries.

(** [bleach.clean(value, strip=True)] *)
Variable clean : string -> string.
(** [str(datetime)] as the f-string prints it *)
Variable datetime_str : Z -> string.
(** [str(uuid.uuid5(uuid.NAMESPACE_DNS, data))] *)
Variable uuid5_dns : string -> string.

(** [Artwork._generate_checksum] *)
Definition _generate_checksum (self : Artwork) : string :=
  uuid5_dns (title self ++ datetime_str (creation_date self) ++ medium self).

(** [Artwork.__init__] *)
Definition init (node_uuid : UUID) (now : Z) (title : string)
    (creation_date : Z) (medium : string) (props : gmap string PyVal)
    (security_level created_by : string) : Result Artwork :=
  n ← NodeModel.init clean node_uuid now "ARTWORK" props "system";
  if bool_decide (security_level ∈ allowed_levels) then
    let a := mkArtwork n title creation_date medium security_level now
                       created_by created_by in
    let props' := <["version" := PInt 1]>
                    (<["checksum" := PStr (_generate_checksum a)]>
                       (properties n)) in
    Ok (with_node (with_properties props' n) a)
  else
    Raise (ValueError
             "Security level must be one of: {'public', 'restricted', 'private'}").

(** [Artwork.update_metadata]: the outcome, the object afterwards, the
    store afterwards. *)
Definition update_metadata (self : Artwork) (db : Neo4jConnection)
    (metadata : list (string * PyVal)) (audit_user : string) (now : Z)
    : Result Artwork * Artwork * Neo4jConnection :=
  let props := properties (node self) in
  match props !! "version" with
  | None => (Raise (KeyError "version"), self, db)
  | Some v =>
      match plus_one v with
      | None =>
          (Raise (TypeError "unsupported operand type(s) for +="), self, db)
      | Some v' =>
          let props1 := <["version" := v']> props in
          match default (PDict []) (props1 !! "metadata") with
          | PDict old =>
              let props2 :=
                <["metadata" := PDict (dict_merge old metadata)]> props1 in
              let self2 :=
                mkArtwork (with_properties props2 (node self)) (title self)
                          (creation_date self) (medium self)
                          (security_level self) now (created_by self)
                          audit_user in
              let props3 :=
                <["checksum" := PStr (_generate_checksum self2)]> props2 in
              let self3 :=
                with_node (with_properties props3 (node self2)) self2 in
              match update clean (node self3) db props3 audit_user now with
              | (Raise e, _, db') => (Raise e, self3, db')
              | (Ok _, node', db') =>
                  (Ok (with_node node' self3), with_node node' self3, db')
              end
          | _ =>
              (Raise (TypeError "object is not a mapping"),
               with_node (with_properties props1 (node self)) self, db)
          end
      end
  end.

End WithLibraries.

End ArtworkModel.

(** ** [graph_service/models/relationship.py] (the record) *)

Module RelationshipModel.

Record Relationship := mkRel {
  uuid : UUID;
  type : string;
  source_node : UUID;
  target_node : UUID;
  properties : gmap string PyVal;
  created_at : Z;
  updated_at : Z;
  version : Z;
  last_accessed : Z;
  audit_trail : list PyVal
}.

#[export] Instance Relationship_eq_decision : EqDecision Relationship.
Proof. solve_decision. Defined.

End RelationshipModel.

(** ** [graph_service/utils/graph_algorithms.py]: [find_similar_artworks] *)

Module Similarity.
Import Neo4j.

Definition SIMILARITY_METRICS : list string := ["jaccard"; "cosine"; "euclidean"].

(** One record of the similarity query's result. *)
Record SimRow := mkRow {
  artwork_id : UUID;
  properties : gmap string PyVal;
  features : list string;
  other_features : list string
}.

(** One entry of the returned list. *)
Record Scored := mkScored {
  s_artwork_id : UUID;
  s_properties : gmap string PyVal;
  similarity_score : Q
}.

(** [len(set(features) & set(other_features)) /
     len(set(features) | set(other_features))] *)
Definition jaccard (r : SimRow) : Result Q :=
  let f : gset string := list_to_set (features r) in
  let o : gset string := list_to_set (other_features r) in
  match size (f ∪ o) with
  | O => Raise ZeroDivisionError
  | S _ as u => Ok (Z.of_nat (size (f ∩ o)) # Pos.of_nat u)
  end.

(** The scoring loop: rows are scored in order under ['jaccard'] and skipped
    under the other two metrics. *)
Fixpoint score_rows (similarity_metric : string) (rows : list SimRow)
    : Result (list Scored) :=
  match rows with
  | [] => Ok []
  | r :: rest =>
      if String.eqb similarity_metric "jaccard" then
        score ← jaccard r;
        tl ← score_rows similarity_metric rest;
        Ok (mkScored (artwork_id r) (properties r) score :: tl)
      else score_rows similarity_metric rest
  end.

(** [sorted(..., key=lambda x: x["similarity_score"], reverse=True)]: stable,
    highest score first. *)
Fixpoint insert_desc (x : Scored) (l : list Scored) : list Scored :=
  match l with
  | [] => [x]
  | y :: rest =>
      if Qle_bool (similarity_score y) (similarity_score x) then x :: y :: rest
      else y :: insert_desc x rest
  end.

Definition sorted_desc (l : list Scored) : list Scored :=
  foldr insert_desc [] l.

(** The slice [l[:limit]] for any Python [int]. *)
Definition slice_to {A} (limit : Z) (l : list A) : list A :=
  if Z.leb 0 limit then take (Z.to_nat limit) l
  else take (length l - Z.to_nat (- limit)) l.

(** [find_similar_artworks]; [results] is what [db.execute_query] returned
    or raised. *)
Definition find_similar_artworks (results : Result (list SimRow))
    (similarity_metric : string) (limit : Z) : Result (list Scored) :=
  if bool_decide (similarity_metric ∈ SIMILARITY_METRICS) then
    rows ← results;
    similarities ← score_rows similarity_metric rows;
    Ok (slice_to limit (sorted_desc similarities))
  else
    Raise (ValueError ("Invalid similarity metric. Must be one of: "
                       ++ NodeModel.repr_list SIMILARITY_METRICS)).

(** *** The query text, read over a store *)

(** The uuids adjacent to [u] through an edge in either direction
    ([(a)-[r]-(n)]). *)
Definition neighbours (db : Neo4jConnection) (u : UUID) : list UUID :=
  flat_map (fun r : UUID * UUID =>
              (if bool_decide (r.1 = u) then [r.2] else []) ++
              (if bool_decide (r.2 = u) then [r.1] else []))%list
           (db_rels db).

(** [collect(distinct n.type + ':' + n.uuid)] over the neighbours of [u]. *)
Definition feature_list (db : Neo4jConnection) (u : UUID) : list string :=
  remove_dups
    (omap (fun v => n ← db_nodes db !! v; Some (sn_type n ++ ":" ++ v))
          (neighbours db u)).

(** The rows of the query for [$artwork_id]: none when the artwork is absent
    or has no neighbour; otherwise one per other artwork that has a
    neighbour, at most 100. *)
Definition similarity_query (db : Neo4jConnection) (artwork : UUID)
    : list SimRow :=
  match db_nodes db !! artwork with
  | Some a =>
      if bool_decide (sn_type a = "ARTWORK") then
        match feature_list db artwork with
        | [] => []
        | fs =>
            take 100
              (omap (fun un : string * StoredNode =>
                       if bool_decide (sn_type un.2 = "ARTWORK")
                          && negb (bool_decide (un.1 = artwork))
                       then match feature_list db un.1 with
                            | [] => None
                            | ofs => Some (mkRow un.1 (sn_properties un.2)
                                                 fs ofs)
                            end
                       else None)
                    (map_to_list (db_nodes db)))
        end
      else []
  | None => []
  end.

End Similarity.

(** ** [graph_service/services/graph_generator.py] *)

Module GraphGenerator.
Import ArtworkModel RelationshipModel.

Definition GRAPH_CACHE_TTL : Z := 3600.
Definition MAX_GRAPH_SIZE : Z := 1000.
Definition DEFAULT_BATCH_SIZE : nat := 50.
Definition MAX_RETRY_ATTEMPTS : nat := 3.
Definition CIRCUIT_BREAKER_THRESHOLD : Z := 5.

(** The [circuit_breaker] decorator: [failure_count] is the closure's
    counter, [func] the decorated call acting on a state [St]. *)
Definition circuit_breaker {St A : Type} (func : St -> Result A * St)
    (failure_count : Z) (s : St) : Result A * (Z * St) :=
  if Z.leb CIRCUIT_BREAKER_THRESHOLD failure_count then
    (Raise (PyException "Circuit breaker open - too many failures"),
     (failure_count, s))
  else
    match func s with
    | (Ok result, s') => (Ok result, (0, s'))
    | (Raise e, s') => (Raise e, (failure_count + 1, s'))
    end.

(** The objects a graph holds: plain nodes and the root artwork. *)
Inductive GraphNode :=
  | Plain (n : NodeModel.Node)
  | Art (a : Artwork).

Definition node_uuid (g : GraphNode) : UUID :=
  match g with
  | Plain n => NodeModel.uuid n
  | Art a => NodeModel.uuid (node a)
  end.

(** What [_get_node_relationships] returns: [{"nodes": ..., "relationships": ...}]. *)
Record RelatedData := mkRelated {
  rd_nodes : list GraphNode;
  rd_relationships : list Relationship
}.

(** The generated graph: [{"nodes": ..., "relationships": ...}]. *)
Record GraphData := mkGraph {
  nodes : list GraphNode;
  relationships : list Relationship
}.

(** Calls that leave the process, in the order they are made. *)
Inductive Event :=
  | CacheGet (key : string)
  | CacheSetex (key : string) (ttl : Z)
  | GetArtworkNode (artwork_id : UUID)
  | GetNodeRelationships (node_id : UUID).

(** The accumulators of one generation: the [nodes] dict in insertion order,
    the [relationships] set, and the calls made so far. *)
Record Acc := mkAcc {
  acc_nodes : list (UUID * GraphNode);
  acc_relationships : list Relationship;
  acc_trace : list Event
}.

(** [if node.uuid not in nodes: nodes[node.uuid] = node] *)
Definition dict_add (d : list (UUID * GraphNode)) (n : GraphNode)
    : list (UUID * GraphNode) :=
  if bool_decide (node_uuid n ∈ d.*1) then d else (d ++ [(node_uuid n, n)])%list.

(** [relationships.add(r)] on a set of records.  The list keeps the
    records in the order they were added; a Python set iterates in an order
    of its own, so of this list only membership and the absence of
    duplicates stand for the set. *)
Definition set_add (s : list Relationship) (r : Relationship)
    : list Relationship :=
  if bool_decide (r ∈ s) then s else (s ++ [r])%list.

Definition merge_related (rd : RelatedData) (acc : Acc) : Acc :=
  mkAcc (foldl dict_add (acc_nodes acc) (rd_nodes rd))
        (foldl set_add (acc_relationships acc) (rd_relationships rd))
        (acc_trace acc).

(** [current_nodes[i:i + size] for i in range(0, len(current_nodes), size)] *)
Fixpoint chunked_aux {A} (fuel size : nat) (l : list A) : list (list A) :=
  match fuel with
  | O => []
  | S fuel' =>
      match l with
      | [] => []
      | _ => take size l :: chunked_aux fuel' size (drop size l)
      end
  end.

Definition chunked {A} (size : nat) (l : list A) : list (list A) :=
  chunked_aux (length l) size l.

(** [asyncio.gather] over the chunk coroutines.  Each coroutine handles its
    ids in order and yields at each [await]; [choices] says which of the
    coroutines still running is resumed next (counted among those with ids
    left, the last one when the number is too large).  When [choices] runs
    out the remaining coroutines run one after the other. *)
Fixpoint pick {A} (n : nat) (chunks : list (list A))
    : option (A * list (list A)) :=
  match chunks with
  | [] => None
  | [] :: rest =>
      match pick n rest with
      | Some (a, r) => Some (a, [] :: r)
      | None => None
      end
  | (a :: ch) :: rest =>
      match n with
      | O => Some (a, ch :: rest)
      | S n' =>
          match pick n' rest with
          | Some (b, r) => Some (b, (a :: ch) :: r)
          | None => Some (a, ch :: rest)
          end
      end
  end.

Fixpoint gather_order {A} (choices : list nat) (chunks : list (list A))
    : list A :=
  match choices with
  | [] => concat chunks
  | c :: cs =>
      match pick c chunks with
      | None => []
      | Some (a, chunks') => a :: gather_order cs chunks'
      end
  end.

Record Metrics := mkMetrics {
  graph_generations : Z;
  cache_hits : Z;
  cache_misses : Z;
  average_generation_time : Q;
  failed_generations : Z
}.

(** The Redis handle [self.cache]: its content and whether it answers. *)
Record Redis := mkRedis {
  redis_data : gmap string GraphData;
  redis_up : bool
}.

(** The generator object.  [__init__] receives a [config] dict and keeps
    nothing of it. *)
Record Generator := mkGen {
  cache : Redis;
  metrics : Metrics;
  trace : list Event
}.

Definition log (e : Event) (g : Generator) : Generator :=
  mkGen (cache g) (metrics g) (trace g ++ [e])%list.

Definition with_metrics (m : Metrics) (g : Generator) : Generator :=
  mkGen (cache g) m (trace g).

(** [GraphGenerator.__init__] with [_init_metrics]. *)
Definition init (cache : Redis) (config : gmap string PyVal) : Generator :=
  mkGen cache (mkMetrics 0 0 0 0%Q 0) [].

(** [_get_from_cache] *)
Definition _get_from_cache (key : string) (g : Generator)
    : option GraphData * Generator :=
  let g' := log (CacheGet key) g in
  if redis_up (cache g) then (redis_data (cache g) !! key, g')
  else (None, g').

(** [_cache_graph] *)
Definition _cache_graph (key : string) (data : GraphData) (g : Generator)
    : Generator :=
  let g' := log (CacheSetex key GRAPH_CACHE_TTL) g in
  if redis_up (cache g) then
    mkGen (mkRedis (<[key := data]> (redis_data (cache g))) true)
          (metrics g') (trace g')
  else g'.

(** [_update_metrics] *)
Definition _update_metrics (generation_time : Q) (m : Metrics) : Metrics :=
  let total_generations := graph_generations m + 1 in
  mkMetrics total_generations (cache_hits m) (cache_misses m)
    ((average_generation_time m * inject_Z (total_generations - 1)
      + generation_time) / inject_Z total_generations)%Q
    (failed_generations m).

Definition cache_key (artwork_id : UUID) (depth : Z) : string :=
  "graph:" ++ artwork_id ++ ":" ++ pretty depth.

Section Generation.

(** The two store helpers [generate_artwork_graph] calls on [self]; the
    class does not define them, so they are taken as given. *)
Variable _get_artwork_node : UUID -> Result (option Artwork).
Variable _get_node_relationships :
  UUID -> gmap string PyVal -> Result RelatedData.

(** [nx.spring_layout] over the node ids and the edges. *)
Variable spring_layout : list UUID -> list (UUID * UUID) -> gmap string (Q * Q).

(** The ids of one level, in the order their answers are merged
    ([_process_node_chunk] across all chunk coroutines). *)
Fixpoint process_ids (node_ids : list UUID) (options : gmap string PyVal)
    (acc : Acc) : Result unit * Acc :=
  match node_ids with
  | [] => (Ok (), acc)
  | node_id :: rest =>
      let acc1 := mkAcc (acc_nodes acc) (acc_relationships acc)
                        (acc_trace acc ++ [GetNodeRelationships node_id])%list in
      match _get_node_relationships node_id options with
      | Raise e => (Raise e, acc1)
      | Ok related_data => process_ids rest options (merge_related related_data acc1)
      end
  end.

(** The [for level in range(depth)] loop, [n] iterations left. *)
Fixpoint expand_levels (n level : nat) (sched : nat -> list nat)
    (options : gmap string PyVal) (acc : Acc) : Result unit * Acc :=
  match n with
  | O => (Ok (), acc)
  | S n' =>
      let current_nodes := (acc_nodes acc).*1 in
      let chunks := chunked DEFAULT_BATCH_SIZE current_nodes in
      match process_ids (gather_order (sched level) chunks) options acc with
      | (Raise e, acc') => (Raise e, acc')
      | (Ok _, acc') =>
          if Z.ltb MAX_GRAPH_SIZE (Z.of_nat (length (acc_nodes acc')))
          then (Ok (), acc')
          else expand_levels n' (S level) sched options acc'
      end
  end.

(** [_generate_graph_parallel] *)
Definition _generate_graph_parallel (artwork : Artwork) (depth : Z)
    (options : gmap string PyVal) (sched : nat -> list nat)
    (tr : list Event) : Result GraphData * list Event :=
  let acc0 := mkAcc [(NodeModel.uuid (node artwork), Art artwork)] [] tr in
  match expand_levels (Z.to_nat depth) 0 sched options acc0 with
  | (Raise e, acc) => (Raise e, acc_trace acc)
  | (Ok _, acc) =>
      (Ok (mkGraph (acc_nodes acc).*2 (acc_relationships acc)), acc_trace acc)
  end.

Definition set_position (pos : gmap string (Q * Q)) (n : GraphNode)
    : GraphNode :=
  match pos !! node_uuid n with
  | Some (x, y) =>
      let p := PDict [("x", PFloat x); ("y", PFloat y)] in
      match n with
      | Plain m =>
          Plain (with_properties (<["position" := p]> (NodeModel.properties m)) m)
      | Art a =>
          Art (with_node
                 (with_properties
                    (<["position" := p]> (NodeModel.properties (node a)))
                    (node a)) a)
      end
  | None => n
  end.

(** [_optimize_graph] *)
Definition _optimize_graph (graph_data : GraphData) : GraphData :=
  let pos := spring_layout (node_uuid <$> nodes graph_data)
               ((fun r => (source_node r, target_node r))
                  <$> relationships graph_data) in
  mkGraph (set_position pos <$> nodes graph_data) (relationships graph_data).

Definition failed (g : Generator) : Generator :=
  let m := metrics g in
  with_metrics (mkMetrics (graph_generations m) (cache_hits m)
                          (cache_misses m) (average_generation_time m)
                          (failed_generations m + 1)) g.

(** The body of [generate_artwork_graph].  [generation_time] is the
    elapsed time the clock gives at the end. *)
Definition generate_body (artwork_id : UUID) (depth : Z)
    (options : option (gmap string PyVal)) (sched : nat -> list nat)
    (generation_time : Q) (g : Generator) : Result GraphData * Generator :=
  let key := cache_key artwork_id depth in
  match _get_from_cache key g with
  | (Some cached_graph, g1) =>
      let m := metrics g1 in
      (Ok cached_graph,
       with_metrics (mkMetrics (graph_generations m) (cache_hits m + 1)
                               (cache_misses m) (average_generation_time m)
                               (failed_generations m)) g1)
  | (None, g1) =>
      let m := metrics g1 in
      let g2 := log (GetArtworkNode artwork_id)
                  (with_metrics
                     (mkMetrics (graph_generations m) (cache_hits m)
                                (cache_misses m + 1)
                                (average_generation_time m)
                                (failed_generations m)) g1) in
      match _get_artwork_node artwork_id with
      | Raise e => (Raise e, failed g2)
      | Ok None =>
          (Raise (ValueError ("Artwork not found: " ++ artwork_id)), failed g2)
      | Ok (Some artwork) =>
          match _generate_graph_parallel artwork depth (default ∅ options)
                  sched (trace g2) with
          | (Raise e, tr) =>
              (Raise e, failed (mkGen (cache g2) (metrics g2) tr))
          | (Ok graph_data, tr) =>
              let optimized_graph := _optimize_graph graph_data in
              let g3 := _cache_graph key optimized_graph
                          (mkGen (cache g2) (metrics g2) tr) in
              (Ok optimized_graph,
               with_metrics (_update_metrics generation_time (metrics g3)) g3)
          end
      end
  end.

(** [generate_artwork_graph] under [@circuit_breaker] and [@retry]; the
    state is the breaker's counter and the generator. *)
Definition generate_artwork_graph (artwork_id : UUID) (depth : Z)
    (options : option (gmap string PyVal)) (sched : nat -> list nat)
    (generation_time : Q) (s : Z * Generator)
    : Result GraphData * (Z * Generator) :=
  retry MAX_RETRY_ATTEMPTS
    (fun _ (s : Z * Generator) =>
       circuit_breaker
         (generate_body artwork_id depth options sched generation_time)
         s.1 s.2)
    0%nat s.

End Generation.

End GraphGenerator.

(** ** The store helpers of the generator *)

Module GraphStore.
Import ArtworkModel RelationshipModel GraphGenerator.

(** The nodes and relationships the graph store holds. *)
Record Store := mkStore {
  store_nodes : list GraphNode;
  store_relationships : list Relationship
}.

Definition touches (u : UUID) (r : Relationship) : bool :=
  bool_decide (source_node r = u) || bool_decide (target_node r = u).

Definition other_end (u : UUID) (r : Relationship) : UUID :=
  if bool_decide (source_node r = u) then target_node r else source_node r.

(** Modelled from the spec: [GraphGenerator._get_node_relationships], which
    [_process_node_chunk] calls and no source file defines.  Following the
    breadth-first step of section 4.4 and the scenario of section 8
    ([generate(U1, depth=1)] yields U1's two relationships and the nodes at
    their far ends), it answers with the relationships attached to
    [node_id] and the nodes at their other ends. *)
Definition get_node_relationships (s : Store) (node_id : UUID)
    (options : gmap string PyVal) : Result RelatedData :=
  let rels := List.filter (touches node_id) (store_relationships s) in
  let ends := other_end node_id <$> rels in
  Ok (mkRelated
        (List.filter (fun n => bool_decide (node_uuid n ∈ ends)) (store_nodes s))
        rels).

(** Modelled from the spec: [GraphGenerator._get_artwork_node], which
    [generate_artwork_graph] calls and no source file defines.  Step 2 of
    section 4.4: the root artwork node when the store has it, [None]
    otherwise. *)
Definition get_artwork_node (s : Store) (artwork_id : UUID)
    : Result (option Artwork) :=
  Ok (head (omap (fun n => match n with
                           | Art a =>
                               if bool_decide (node_uuid n = artwork_id)
                               then Some a else None
                           | Plain _ => None
                           end) (store_nodes s))).

(** No layout: [nx.spring_layout] places no node. *)
Definition no_layout (ids : list UUID) (edges : list (UUID * UUID))
    : gmap string (Q * Q) := ∅.

Definition plain_node (u ty : string) : GraphNode :=
  Plain (NodeModel.mkNode u ty ty ∅ 0 0 1 "system").

Definition artwork_root (u t : string) : Artwork :=
  mkArtwork
    (NodeModel.mkNode u "ARTWORK" "Artwork"
       {[ "title" := PStr t; "year" := PInt 1900; "medium" := PStr "oil" ]}
       0 0 1 "system")
    t 1900 "oil" "public" 0 "system" "system".

Definition edge (u ty src tgt : string) : Relationship :=
  mkRel u ty src tgt ∅ 0 0 1 0 [].

(** The scenario of section 8: artwork U1, created by artist U2, belonging
    to movement U3. *)
Definition scenario : Store :=
  mkStore [Art (artwork_root "U1" "A"); plain_node "U2" "ARTIST";
           plain_node "U3" "MOVEMENT"]
          [edge "R1" "CREATED_BY" "U1" "U2"; edge "R2" "BELONGS_TO" "U1" "U3"].

(** [r] as an object built at time [t] without a [last_accessed]: the
    field's default is the time of construction (relationship.py:67). *)
Definition stamp (t : Z) (r : Relationship) : Relationship :=
  mkRel (uuid r) (type r) (source_node r) (target_node r) (properties r)
        (created_at r) (updated_at r) (version r) t (audit_trail r).

(** Modelled from the spec: the same helper when it builds the
    [Relationship] objects of its answer anew at each call; [clock] is the
    time at which the query for a node id is answered. *)
Definition get_node_relationships_at (clock : UUID -> Z) (s : Store)
    (node_id : UUID) (options : gmap string PyVal) : Result RelatedData :=
  rd ← get_node_relationships s node_id options;
  Ok (mkRelated (rd_nodes rd) (stamp (clock node_id) <$> rd_relationships rd)).

(** The root is asked at time 1, every other node at time 2. *)
Definition read_time (node_id : UUID) : Z :=
  if String.eqb node_id "U1" then 1 else 2.

(** An artwork with [n] artists around it. *)
Definition star (n : nat) : Store :=
  mkStore (Art (artwork_root "hub" "Hub")
             :: ((fun i : nat => plain_node ("n" ++ pretty i) "ARTIST") <$> seq 0 n))
          ((fun i : nat => edge ("r" ++ pretty i) "CREATED_BY" "hub"
                                ("n" ++ pretty i)) <$> seq 0 n).

End GraphStore.

(** ** Cache writes and the caching decorator ([shared/utils/cache.py]) *)

Module CacheWrites.
Import Breaker.

Definition MAX_KEY_LENGTH : nat := 256.

(** What [self._client.set(formatted_key, text, ttl)] does on one call: it
    returns its success flag or raises. *)
Inductive SetReply :=
  | Stored (success : bool)
  | SetRaises (e : Exn).

(** [ttl or self._default_ttl] *)
Definition effective_ttl (ttl : option Z) (default_ttl : Z) : Z :=
  match ttl with
  | Some t => if Z.eqb t 0 then default_ttl else t
  | None => default_ttl
  end.

(** [x is not None] *)
Definition is_not_none (v : PyVal) : bool :=
  match v with
  | PNone => false
  | _ => true
  end.

Section WithJson.

(** [json.loads] and [json.dumps]: the result, or what they raise. *)
Variable json_loads : string -> Result PyVal.
Variable json_dumps : PyVal -> Result string.
(** [self._default_ttl] *)
Variable default_ttl : Z.

(** [CacheManager.set_cached_data].  [now] is the clock as the call reads
    it, [client] the client's [set] as the call finds it.  Keys are ASCII
    text, so [len] is the number of characters. *)
Definition set_cached_data (key : string) (data : PyVal) (ttl : option Z)
    (use_circuit_breaker : bool) (now : Z)
    (client : string -> string -> Z -> SetReply) (m : CacheManager)
    : Result bool * CacheManager :=
  let '(opened, cb) :=
    if use_circuit_breaker then is_open now (_circuit_breaker m)
    else (false, _circuit_breaker m) in
  if opened then
    (Raise (PyException "Circuit breaker is open"),
     mkCM cb (hits m) (misses m) (errors m))
  else
    let failed (e : Exn) :=
      (Raise e, mkCM (record_failure now cb) (hits m) (misses m) (errors m)) in
    let formatted_key := CACHE_KEY_PREFIX ++ key in
    if Nat.ltb MAX_KEY_LENGTH (String.length formatted_key) then
      failed (ValueError "Cache key exceeds maximum length of 256")
    else
      match json_dumps data with
      | Raise e => failed e
      | Ok text =>
          match client formatted_key text (effective_ttl ttl default_ttl) with
          | SetRaises e => failed e
          | Stored success =>
              (Ok success,
               mkCM (if success then record_success cb else cb)
                    (hits m) (misses m) (errors m))
          end
      end.

(** The wrapper [cache_decorator] builds around [func].  [cache_key] is the
    key the wrapper computes from the call's arguments; [func] acts on a
    state [St]; [env] gives the clock and the client's [get] to each attempt
    of the read, [now] and [client] the clock and the client's [set] to the
    write. *)
Definition cache_decorator {St : Type} (ttl : option Z)
    (use_circuit_breaker : bool) (cache_key : string)
    (func : St -> Result PyVal * St)
    (env : nat -> Z * (string -> ClientReply)) (now : Z)
    (client : string -> string -> Z -> SetReply) (s : CacheManager * St)
    : Result PyVal * (CacheManager * St) :=
  match get_cached_data json_loads cache_key use_circuit_breaker env s.1 with
  | (Raise e, m1) => (Raise e, (m1, s.2))
  | (Ok cached_result, m1) =>
      if is_not_none (default PNone cached_result) then
        (Ok (default PNone cached_result), (m1, s.2))
      else
        match func s.2 with
        | (Raise e, st) => (Raise e, (m1, st))
        | (Ok result, st) =>
            if is_not_none result then
              match set_cached_data cache_key result ttl use_circuit_breaker
                      now client m1 with
              | (Raise e, m2) => (Raise e, (m2, st))
              | (Ok _, m2) => (Ok result, (m2, st))
              end
            else (Ok result, (m1, st))
        end
  end.

End WithJson.

End CacheWrites.

(** ** The Redis client's breaker ([shared/database/redis.py]) *)

Module RedisBreaker.

Record CircuitBreaker := mkRB {
  failure_threshold : Z;
  reset_timeout : Z;
  failures : Z;
  is_open : bool;
  last_failure : Z
}.

(** [CircuitBreaker.__init__] *)
Definition init (failure_threshold reset_timeout : Z) : CircuitBreaker :=
  mkRB failure_threshold reset_timeout 0 false 0.

(** [failure]; [now] is the clock it reads. *)
Definition failure (now : Z) (cb : CircuitBreaker) : CircuitBreaker :=
  mkRB (failure_threshold cb) (reset_timeout cb) (failures cb + 1)
       (if Z.leb (failure_threshold cb) (failures cb + 1) then true
        else is_open cb)
       now.

Definition success (cb : CircuitBreaker) : CircuitBreaker :=
  mkRB (failure_threshold cb) (reset_timeout cb) 0 false (last_failure cb).

Definition half_open (cb : CircuitBreaker) : CircuitBreaker :=
  mkRB (failure_threshold cb) (reset_timeout cb) (failures cb) false
       (last_failure cb).

(** The [circuit_breaker] decorator around a client method [func] acting on
    the rest of the client, [St].  [now] is the clock when the call arrives,
    [later] the clock when its failure is recorded. *)
Definition circuit_breaker {St A : Type} (func : St -> Result A * St)
    (now later : Z) (s : CircuitBreaker * St)
    : Result A * (CircuitBreaker * St) :=
  let attempt (cb : CircuitBreaker) :=
    match func s.2 with
    | (Ok result, st) => (Ok result, (success cb, st))
    | (Raise e, st) => (Raise e, (failure later cb, st))
    end in
  if is_open s.1 then
    if Z.ltb (reset_timeout s.1) (now - last_failure s.1)
    then attempt (half_open s.1)
    else (Raise (ConnectionError "Circuit breaker is open"), s)
  else attempt s.1.

End RedisBreaker.

(** ** [Node.create] ([graph_service/models/node.py]) *)

Module NodeCreation.
Import Neo4j NodeModel.

(** The parameters of the [CREATE] query: the object's fields. *)
Definition stored_form (self : Node) : StoredNode :=
  mkStored (type self) (label self) (properties self) (created_at self)
           (updated_at self) (version self) (last_modified_by self).

(** [Node.create] *)
Definition create (self : Node) (db : Neo4jConnection)
    : Result Node * Neo4jConnection :=
  match execute_query db (CreateNode (uuid self) (stored_form self)) with
  | (Raise e, db') => (Raise e, db')
  | (Ok _, db') => (Ok self, db')
  end.

End NodeCreation.

(** ** [Relationship.validate_properties]
    ([graph_service/models/relationship.py]) *)

Module RelationshipOps.
Import RelationshipModel.

Definition RELATIONSHIP_TYPES : list string :=
  ["CREATED_BY"; "BELONGS_TO"; "INFLUENCED_BY"; "LOCATED_IN";
   "USES_TECHNIQUE"; "MADE_WITH"; "CONTEMPORARY_OF"; "STUDIED_UNDER"].

Definition RELATIONSHIP_PROPERTIES : list string :=
  ["strength"; "confidence"; "start_date"; "end_date"; "source"; "metadata"].

Definition REQUIRED_PROPERTIES : gmap string (list string) :=
  list_to_map
    [("CREATED_BY", ["start_date"; "confidence"]);
     ("BELONGS_TO", ["confidence"]);
     ("INFLUENCED_BY", ["strength"; "start_date"; "end_date"])].

Definition missing_properties (ty : string) (props : gmap string PyVal)
    : list string :=
  List.filter (fun p => bool_decide (props !! p = None))
              (default [] (REQUIRED_PROPERTIES !! ty)).

Section WithSanitizer.

(** [bleach.clean(value)] *)
Variable clean : string -> string.

(** [Relationship.validate_properties] on a relationship of type [ty]. *)
Definition validate_properties (ty : string) (props : gmap string PyVal)
    : Result (gmap string PyVal) :=
  if bool_decide (props = ∅) then Ok ∅
  else
    match missing_properties ty props with
    | [] =>
        Ok (NodeModel.sanitize clean
              <$> filter (fun kv : string * PyVal =>
                            kv.1 ∈ RELATIONSHIP_PROPERTIES) props)
    | missing =>
        Raise (ValueError ("Missing required properties for " ++ ty ++ ": "
                           ++ NodeModel.repr_list missing))
    end.

End WithSanitizer.

End RelationshipOps.

(** ** [detect_communities] ([graph_service/utils/graph_algorithms.py]) *)

Module Communities.

Definition COMMUNITY_ALGORITHMS : list string :=
  ["louvain"; "label_propagation"; "modularity_optimization"].

(** The loop over [enumerate(communities)], at index [idx]. *)
Fixpoint collect (idx : nat) (communities : list (list UUID))
    (min_community_size : Z) (community_dict : gmap string (list UUID))
    : gmap string (list UUID) :=
  match communities with
  | [] => community_dict
  | community :: rest =>
      collect (S idx) rest min_community_size
        (if Z.leb min_community_size (Z.of_nat (length community))
         then <["community_" ++ pretty idx := community]> community_dict
         else community_dict)
  end.

(** [detect_communities]; [detect] is the query followed by the networkx
    routine the algorithm name selects, each community given as the list of
    its members. *)
Definition detect_communities (detect : string -> Result (list (list UUID)))
    (algorithm : string) (min_community_size : Z)
    : Result (gmap string (list UUID)) :=
  if bool_decide (algorithm ∈ COMMUNITY_ALGORITHMS) then
    communities ← detect algorithm;
    Ok (collect 0 communities min_community_size ∅)
  else
    Raise (ValueError ("Invalid algorithm. Must be one of: "
                       ++ NodeModel.repr_list COMMUNITY_ALGORITHMS)).

End Communities.

(** ** [Relationship.update] ([graph_service/models/relationship.py]) *)

Module RelationshipUpdate.
Import RelationshipModel RelationshipOps.

Section WithSanitizer.

(** [bleach.clean(value)] *)
Variable clean : string -> string.

(** The entry [update] appends to the audit trail. *)
Definition update_entry (now previous_version : Z) : PyVal :=
  PDict [("action", PStr "update"); ("timestamp", PInt now);
         ("details", PDict [("previous_version", PInt previous_version)])].

(** [Relationship.update]: the outcome and the object afterwards.
    [outcome] is what [db.execute_query] does with the update query, [now]
    the clock. *)
Definition update (self : Relationship) (outcome : Result unit)
    (props : gmap string PyVal) (version : Z) (now : Z)
    : Result Relationship * Relationship :=
  if bool_decide (version = RelationshipModel.version self) then
    match validate_properties clean (type self) props with
    | Raise e => (Raise e, self)
    | Ok updated_properties =>
        match outcome with
        | Raise e => (Raise e, self)
        | Ok _ =>
            let self' :=
              mkRel (uuid self) (type self) (source_node self)
                    (target_node self) (updated_properties ∪ properties self)
                    (created_at self) now (RelationshipModel.version self + 1)
                    (last_accessed self)
                    (audit_trail self ++ [update_entry now version])%list in
            (Ok self', self')
        end
    end
  else (Raise (ValueError "Concurrent modification detected"), self).

End WithSanitizer.

End RelationshipUpdate.

(** ** [calculate_graph_metrics]
    ([graph_service/utils/graph_algorithms.py]) *)

Module GraphMetrics.
Import ArtworkModel.

Definition default_metrics : list string :=
  ["density"; "diameter"; "average_clustering"].

(** [metrics or default_metrics] *)
Definition requested (metrics : option (list string)) : list string :=
  match metrics with
  | Some (m :: ms) => m :: ms
  | _ => default_metrics
  end.

(** The outcomes of the futures, in the order they are submitted; the
    three arguments are what the networkx routines do on the graph: return
    a value, or raise, as [nx.diameter] does on a graph that is not
    connected. *)
Definition submitted (metrics : list string)
    (density diameter average_clustering : Result PyVal)
    : list (Result PyVal) :=
  ((if bool_decide ("density" ∈ metrics) then [density] else []) ++
   (if bool_decide ("diameter" ∈ metrics) then [diameter] else []) ++
   (if bool_decide ("average_clustering" ∈ metrics)
    then [average_clustering] else []))%list.

Definition value_of (o : Result PyVal) : option PyVal :=
  match o with Ok v => Some v | Raise _ => None end.

Definition exception_of (o : Result PyVal) : option Exn :=
  match o with Ok _ => None | Raise e => Some e end.

(** [await asyncio.gather] over [asyncio.to_thread(f.result)] of each future:
    the values in the order of the futures when all of them return;
    otherwise the exception of the future seen to fail first, the
    [first]-th of those that raise. *)
Definition gather (first : nat) (outcomes : list (Result PyVal))
    : Result (list PyVal) :=
  match omap exception_of outcomes with
  | [] => Ok (omap value_of outcomes)
  | e :: es => Raise (default e ((e :: es) !! first))
  end.

(** [for metric, value in zip(metrics, results):
       metric_results[metric] = value] *)
Definition paired (metrics : list string) (results : list PyVal)
    : list (string * PyVal) :=
  fold_left (fun d kv => dict_set kv.1 kv.2 d) (zip metrics results) [].

(** [calculate_graph_metrics], given the counts the query returns and what
    the networkx routines do on the graph built from its rows; whatever is
    raised inside is logged and raised again. *)
Definition calculate_graph_metrics (metrics : option (list string))
    (node_count edge_count : Z)
    (density diameter average_clustering : Result PyVal) (first : nat)
    : Result (list (string * PyVal)) :=
  let metrics := requested metrics in
  results ← gather first
              (submitted metrics density diameter average_clustering);
  let metric_results := paired metrics results in
  if Z.eqb node_count 0 then Raise ZeroDivisionError
  else
    Ok (dict_merge metric_results
          [("node_count", PInt node_count); ("edge_count", PInt edge_count);
           ("average_degree",
            PFloat (Qmake (2 * edge_count) (Z.to_pos node_count)))]).

End GraphMetrics.

(** ** The Redis client's rate limiter ([shared/database/redis.py]) *)

Module RateLimit.

Definition RATE_LIMIT_WINDOW : Z := 60.
Definition RATE_LIMIT_MAX_REQUESTS : nat := 1000.

(** [[ts for ts in requests if ts > window_start]] *)
Definition recent (window_start : Z) (timestamps : list Z) : list Z :=
  List.filter (fun ts => Z.ltb window_start ts) timestamps.

(** [timestamps[-1] > window_start], for a list that has a last element. *)
Definition last_after (window_start : Z) (timestamps : list Z) : bool :=
  match last timestamps with
  | Some ts => Z.ltb window_start ts
  | None => false
  end.

(** [RedisClient._check_rate_limit] on the [rate_limits] dict; [now] is the
    clock.  The clean-up reads [timestamps[-1]] of every stored list, which
    raises on an empty one. *)
Definition _check_rate_limit (request_id : string) (now : Z)
    (rate_limits : gmap string (list Z))
    : Result bool * gmap string (list Z) :=
  let window_start := now - RATE_LIMIT_WINDOW in
  if bool_decide (map_Forall (fun _ timestamps => timestamps <> [])
                             rate_limits) then
    let cleaned :=
      filter (fun kv : string * list Z => last_after window_start kv.2 = true)
             rate_limits in
    let requests := recent window_start (default [] (cleaned !! request_id)) in
    if Nat.leb RATE_LIMIT_MAX_REQUESTS (length requests) then
      (Ok false, cleaned)
    else (Ok true, <[request_id := (requests ++ [now])%list]> cleaned)
  else (Raise (IndexError "list index out of range"), rate_limits).

End RateLimit.

(** ** Statements and closed instances

    The predicates the properties below are stated with, and the concrete
    breakers, stores and artworks they are tried on. *)

Module BreakerCases.
Import Breaker.

(** The probe protocol in the specification's words: a breaker that has
    opened and whose reset interval has elapsed at [now] lets the first call
    through, refuses a second call made while that probe is still in flight,
    is closed after the probe's success and open again after its failure. *)
Definition single_probe_protocol (cb : CircuitBreaker) (now : Z) : Prop :=
  let cb1 := (is_open now cb).2 in
  (is_open now cb).1 = false /\
  (is_open now cb1).1 = true /\
  (is_open now (record_success cb1)).1 = false /\
  (is_open now (record_failure now cb1)).1 = true.

(** The breakers a program can hold: built by [__init__], then changed by
    recorded outcomes and by reads of [is_open]. *)
Inductive reachable (thr : Q) (iv : Z) : CircuitBreaker -> Prop :=
  | reach_init : reachable thr iv (init thr iv)
  | reach_success cb :
      reachable thr iv cb -> reachable thr iv (record_success cb)
  | reach_failure now cb :
      reachable thr iv cb -> reachable thr iv (record_failure now cb)
  | reach_read now cb :
      reachable thr iv cb -> reachable thr iv (is_open now cb).2.

(** A breaker opened by its first failure, at time 100. *)
Definition opened_once : CircuitBreaker :=
  record_failure 100
    (init CIRCUIT_BREAKER_THRESHOLD CIRCUIT_BREAKER_INTERVAL).

(** The same breaker after three cache hits served with
    [use_circuit_breaker=False] while it was open. *)
Definition relieved : CircuitBreaker :=
  record_success (record_success (record_success opened_once)).

(** A stand-in for [json.loads], for closed examples. *)
Definition loads_text (s : string) : Result PyVal := Ok (PStr s).

(** A manager whose breaker opened at time 100. *)
Definition tripped : CacheManager := mkCM opened_once 0 0 1.

(** The client holds no key at all; the attempts are made at 105, 107 and
    111. *)
Definition empty_cache (i : nat) : Z * (string -> ClientReply) :=
  (nth i [105; 107; 111] 120, fun _ => Data None).

(** The client is down on every attempt. *)
Definition outage (i : nat) : Z * (string -> ClientReply) :=
  (nth i [105; 107; 111] 120,
   fun _ => ClientRaises (ConnectionError "redis down")).

End BreakerCases.

Module NodeCases.
Import Neo4j NodeModel.

(** A stored artist at version 3, and the object a reader holds of it. *)
Definition artist_props : gmap string PyVal :=
  {[ "name" := PStr "Claude Monet"; "birth_year" := PInt 1840 ]}.

Definition stored_artist : StoredNode :=
  mkStored "ARTIST" "Artist" artist_props 10 20 3 "system".

Definition artist : Node :=
  mkNode "u-artist" "ARTIST" "Artist" artist_props 10 20 3 "system".

Definition one_artist_db : Neo4jConnection :=
  mkDb {[ "u-artist" := stored_artist ]} [] (fun _ => false) [].

(** The guard at work: the artist is attached to one artwork. *)
Definition attached_db : Neo4jConnection :=
  mkDb {[ "u-artist" := stored_artist ]} [("u-art", "u-artist")]
       (fun _ => false) [].

(** The same store during an outage: every query runs out of retries. *)
Definition unreachable_db : Neo4jConnection :=
  mkDb {[ "u-artist" := stored_artist ]} [] (fun _ => true) [].

End NodeCases.

Module ArtworkCases.
Import Neo4j NodeModel ArtworkModel.

(** Stand-ins for the two library functions, for closed examples. *)
Definition uuid5_text (data : string) : string := "uuid5-of-" ++ data.

Definition date_text (d : Z) : string := pretty d.

Definition mona_lisa : Artwork :=
  mkArtwork
    (mkNode "u-mona" "ARTWORK" "Artwork"
       {[ "title" := PStr "Mona Lisa"; "year" := PInt 1503;
          "medium" := PStr "oil"; "version" := PInt 1;
          "checksum" := PStr "uuid5-of-Mona Lisa1503oil" ]}
       50 50 1 "system")
    "Mona Lisa" 1503 "oil" "public" 50 "curator" "curator".

Definition louvre_db : Neo4jConnection :=
  mkDb {[ "u-mona" :=
            mkStored "ARTWORK" "Artwork" (properties (node mona_lisa))
                     50 50 1 "system" ]}
       [] (fun _ => false) [].

End ArtworkCases.

Module SimilaritySpec.
Import Neo4j Similarity.

(** The Jaccard index of two sets, in the specification's words: the size
    of the intersection over the size of the union. *)
Definition jaccard_index (a b : gset string) : Q :=
  Z.of_nat (size (a ∩ b)) # Pos.of_nat (size (a ∪ b)).

(** Highest score first. *)
Definition desc (x y : Scored) : Prop :=
  (similarity_score y <= similarity_score x)%Q.

(** Two artworks that share no neighbour: [a] was made by [x], [b] by [y]. *)
Definition artwork_node (t : string) : StoredNode :=
  mkStored "ARTWORK" "Artwork" {[ "title" := PStr t ]} 0 0 1 "system".

Definition artist_node (n : string) : StoredNode :=
  mkStored "ARTIST" "Artist" {[ "name" := PStr n ]} 0 0 1 "system".

Definition strangers : Neo4jConnection :=
  mkDb {[ "a" := artwork_node "A"; "b" := artwork_node "B";
          "x" := artist_node "X"; "y" := artist_node "Y" ]}
       [("a", "x"); ("b", "y")] (fun _ => false) [].

(** Three candidates for [a], each with one neighbour. *)
Definition three_rows : list SimRow :=
  [mkRow "b" ∅ ["ARTIST:x"] ["ARTIST:x"];
   mkRow "c" ∅ ["ARTIST:x"] ["ARTIST:x"; "ARTIST:y"];
   mkRow "d" ∅ ["ARTIST:x"] ["ARTIST:y"]].

End SimilaritySpec.

Module GeneratorSpec.
Import ArtworkModel RelationshipModel GraphGenerator.
#[local] Open Scope list_scope.

(** A dict whose keys are distinct and are the uuids of its values. *)
Definition keyed (d : list (UUID * GraphNode)) : Prop :=
  NoDup d.*1 /\ Forall (fun kn => node_uuid kn.2 = kn.1) d.

(** The accumulators with one more call recorded. *)
Definition logged (e : Event) (acc : Acc) : Acc :=
  mkAcc (acc_nodes acc) (acc_relationships acc) (acc_trace acc ++ [e]).

(** The ids one level handles, given the order its answers arrive in. *)
Definition level_order (choices : list nat) (acc : Acc) : list UUID :=
  gather_order choices (chunked DEFAULT_BATCH_SIZE (acc_nodes acc).*1).

Section Reach.

Variable get_rel : UUID -> gmap string PyVal -> Result RelatedData.
Variable options : gmap string PyVal.

(** The relationships the helper has answered with. *)
Definition returned (r : Relationship) : Prop :=
  exists u d, get_rel u options = Ok d /\ r ∈ rd_relationships d.

(** Two node ids joined by such a relationship, in either direction. *)
Definition adjacent (u v : UUID) : Prop :=
  exists r, returned r /\
    ((source_node r = u /\ target_node r = v) \/
     (source_node r = v /\ target_node r = u)).

(** [within root n v]: [v] is reached from [root] along at most [n]
    relationships, that is, its shortest distance from [root] is at most
    [n]. *)
Inductive within (root : UUID) : nat -> UUID -> Prop :=
  | within_root n : within root n root
  | within_step n u v : within root n u -> adjacent u v -> within root (S n) v.

(** What the accumulators satisfy throughout a generation: distinct keys
    that are the uuids of their nodes, and a duplicate-free set of
    relationships the helper has answered with. *)
Definition distinct_inv (acc : Acc) : Prop :=
  keyed (acc_nodes acc) /\
  NoDup (acc_relationships acc) /\
  Forall returned (acc_relationships acc).

(** What they satisfy after [level] levels: every node and both ends of
    every relationship are within [level] relationships of [root]. *)
Definition depth_inv (root : UUID) (level : nat) (acc : Acc) : Prop :=
  (forall k, k ∈ (acc_nodes acc).*1 -> within root level k) /\
  (forall r, r ∈ acc_relationships acc ->
             within root level (source_node r) /\
             within root level (target_node r)).

End Reach.

(** Chunk coroutines resumed strictly one after the other. *)
Definition in_order (level : nat) : list nat := [].

(** A generator with an empty, reachable cache, built with a configured
    maximum depth of 2. *)
Definition fresh_generator : Generator :=
  init (mkRedis ∅ true) {[ "max_depth" := PInt 2 ]}.

End GeneratorSpec.

Module CacheWriteCases.
Import Breaker CacheWrites.

(** A stand-in for [json.dumps], for closed examples. *)
Definition dumps_text (v : PyVal) : Result string :=
  match v with
  | PStr s => Ok s
  | _ => Ok "null"
  end.

(** A key of 250 characters; with the prefix it has 260. *)
Definition long_key : string :=
  String.concat "" (replicate 25 "0123456789").

Definition new_manager : CacheManager :=
  mkCM (init CIRCUIT_BREAKER_THRESHOLD CIRCUIT_BREAKER_INTERVAL) 0 0 0.

(** A client that stores whatever it is given. *)
Definition accepting (key text : string) (ttl : Z) : SetReply := Stored true.

(** A wrapped function that counts its calls. *)
Definition counted (calls : nat) : Result PyVal * nat := (Ok (PInt 7), S calls).

End CacheWriteCases.

Module RedisBreakerCases.
Import RedisBreaker.

(** The breakers a client can hold: built by [__init__], then changed by
    calls through the decorator. *)
Inductive reachable (thr rt : Z) : CircuitBreaker -> Prop :=
  | reach_init : reachable thr rt (init thr rt)
  | reach_call (St A : Type) (func : St -> Result A * St) (now later : Z)
      (cb : CircuitBreaker) (st : St) :
      reachable thr rt cb ->
      reachable thr rt (circuit_breaker func now later (cb, st)).2.1.

(** A client method that finds the server down, and one that answers. *)
Definition down (st : unit) : Result bool * unit :=
  (Raise (ConnectionError "connection refused"), st).

Definition up (st : unit) : Result bool * unit := (Ok true, st).

(** The default breaker after five calls that found the server down, at
    times 1 to 5. *)
Definition five_failures : CircuitBreaker :=
  foldl (fun cb t => (circuit_breaker down t t (cb, ())).2.1) (init 5 60)
        [1; 2; 3; 4; 5].

End RedisBreakerCases.

Module RelationshipCases.

(** The property dict [Artwork.add_artist] gives the CREATED_BY
    relationship it builds, for an artwork dated 1503 and the audit user
    'curator'. *)
Definition artist_link : gmap string PyVal :=
  {[ "start_date" := PStr "1503-01-01T00:00:00";
     "confidence" := PFloat 1%Q;
     "created_by" := PStr "curator" ]}.

End RelationshipCases.

Module CommunityCases.

(** Three communities, the second too small for a minimum size of 3. *)
Definition found (algorithm : string) : Result (list (list UUID)) :=
  Ok [["a"; "b"; "c"]; ["d"]; ["e"; "f"; "g"; "h"]].

End CommunityCases.

Module GeneratorRunSpec.
Import GraphGenerator.

(** Nothing is taken out of the accumulators: the nodes held, a dict in
    insertion order, are an initial segment of the nodes held afterwards,
    and the relationships held, a set, are among those held afterwards. *)
Definition extends (acc acc' : Acc) : Prop :=
  acc_nodes acc `prefix_of` acc_nodes acc' /\
  acc_relationships acc ⊆ acc_relationships acc'.

(** The generation times recorded one after the other. *)
Definition record_times (times : list Q) (m : Metrics) : Metrics :=
  foldl (fun m t => _update_metrics t m) m times.

End GeneratorRunSpec.

Module GraphMetricsSpec.

(** [d[k]] on a dict kept in insertion order, [None] for an absent key. *)
Fixpoint dict_get (k : string) (d : list (string * PyVal)) : option PyVal :=
  match d with
  | [] => None
  | (k', v) :: rest => if String.eqb k k' then Some v else dict_get k rest
  end.

End GraphMetricsSpec.

Module RateLimitSpec.
Import RateLimit.

(** Requests served one after the other, each a request id and the clock
    reading of its check: the [rate_limits] dict and the requests admitted
    so far, oldest first. *)
Definition serve (st : gmap string (list Z) * list (string * Z))
    (request : string * Z) : gmap string (list Z) * list (string * Z) :=
  match _check_rate_limit request.1 request.2 st.1 with
  | (Ok true, rate_limits) => (rate_limits, (st.2 ++ [request])%list)
  | (_, rate_limits) => (rate_limits, st.2)
  end.

(** The clock readings of the admitted requests of one id. *)
Definition times (request_id : string) (admitted : list (string * Z))
    : list Z :=
  (List.filter (fun r : string * Z => bool_decide (r.1 = request_id))
               admitted).*2.

(** How many requests of the id were admitted within the window that ends
    at [now]. *)
Definition admitted_in_window (request_id : string) (now : Z)
    (admitted : list (string * Z)) : nat :=
  length (recent (now - RATE_LIMIT_WINDOW) (times request_id admitted)).

(** What the dict and the admitted requests satisfy after a check made at
    [clock]: no stored list is empty, no stored reading is later than
    [clock] or than the last reading of its list, and for every window start
    from [clock - RATE_LIMIT_WINDOW] on the stored list of an id counts as
    many readings as were admitted for it. *)
Definition consistent (clock : Z) (rate_limits : gmap string (list Z))
    (admitted : list (string * Z)) : Prop :=
  (forall id timestamps,
     rate_limits !! id = Some timestamps ->
     timestamps <> [] /\
     forall t, t ∈ timestamps ->
       t <= clock /\ exists l, last timestamps = Some l /\ t <= l) /\
  (forall id w,
     clock - RATE_LIMIT_WINDOW <= w ->
     length (recent w (times id admitted))
     = length (recent w (default [] (rate_limits !! id)))).

(** Three requests, two of them under the default id. *)
Definition three_requests : list (string * Z) :=
  [("default", 5); ("other", 10); ("default", 10)].

End RateLimitSpec.

(** * Properties *)

(** ** The circuit breakers *)

Module BreakerFacts.
Import Breaker BreakerCases.

Lemma is_open_closed cb now :
  _is_open cb = false -> is_open now cb = (false, cb).
Proof. intros H. unfold is_open. rewrite H. reflexivity. Qed.

Lemma is_open_elapsed cb now :
  _is_open cb = true -> interval cb < now - last_failure_time cb ->
  is_open now cb = (false, set_open false cb).
Proof.
  intros H Hlt. unfold is_open. rewrite H.
  destruct (Z.ltb_spec (interval cb) (now - last_failure_time cb)); [done|lia].
Qed.

Lemma is_open_waiting cb now :
  _is_open cb = true -> now - last_failure_time cb <= interval cb ->
  is_open now cb = (true, cb).
Proof.
  intros H Hle. unfold is_open. rewrite H.
  destruct (Z.ltb_spec (interval cb) (now - last_failure_time cb)); [lia|done].
Qed.

(** A failure recorded while the failure ratio is above the threshold sets
    the flag, whatever it was. *)
Lemma record_failure_opens cb now :
  0 < total_requests cb -> 0 <= failures cb <= total_requests cb ->
  (threshold cb < failure_ratio cb)%Q ->
  _is_open (record_failure now cb) = true /\
  last_failure_time (record_failure now cb) = now /\
  interval (record_failure now cb) = interval cb.
Proof.
  intros Ht Hf Hq.
  unfold record_failure, _update_state, failure_ratio, Qlt_bool, Qlt in *.
  destruct cb as [[a d] iv f t lft o]; simpl in *.
  rewrite Z2Pos.id in * by lia.
  destruct (Z.ltb_spec 0 (t + 1)); [|lia].
  destruct (Z.ltb_spec (a * (t + 1)) ((f + 1) * Z.pos d)) as [|Hge];
    [simpl; auto|].
  exfalso. nia.
Qed.

Lemma record_success_fields cb :
  last_failure_time (record_success cb) = last_failure_time cb /\
  interval (record_success cb) = interval cb.
Proof.
  unfold record_success, _update_state.
  repeat match goal with |- context [if ?b then _ else _] => destruct b end;
    simpl; auto.
Qed.

(** The counters of a breaker in use: failures never exceed requests. *)
Lemma reachable_counts thr iv cb :
  reachable thr iv cb ->
  0 <= failures cb <= total_requests cb /\
  threshold cb = thr /\ interval cb = iv.
Proof.
  induction 1 as [|cb _ IH|now cb _ IH|now cb _ IH]; simpl.
  - split; [lia|split; reflexivity].
  - unfold record_success, _update_state.
    repeat match goal with |- context [if ?b then _ else _] => destruct b end;
      simpl; (split; [lia|tauto]).
  - unfold record_failure, _update_state.
    repeat match goal with |- context [if ?b then _ else _] => destruct b end;
      simpl; (split; [lia|tauto]).
  - unfold is_open.
    repeat match goal with |- context [if ?b then _ else _] => destruct b end;
      simpl; tauto.
Qed.

(** The decorator of [graph_generator.py] has no reset path: from the
    threshold on the decorated call is never made again. *)
Lemma decorator_stays_open {St A} (func : St -> Result A * St) n s :
  GraphGenerator.CIRCUIT_BREAKER_THRESHOLD <= n ->
  GraphGenerator.circuit_breaker func n s =
    (Raise (PyException "Circuit breaker open - too many failures"), (n, s)).
Proof.
  intros H. unfold GraphGenerator.circuit_breaker.
  destruct (Z.leb_spec GraphGenerator.CIRCUIT_BREAKER_THRESHOLD n); [done|lia].
Qed.

(** C2, as stated, fails: once the interval has elapsed the cache breaker
    is simply closed, so a second call made while the first one is still in
    flight is let through as well; and a failed call after the interval
    leaves the breaker closed when the failure ratio is not above the
    threshold. *)
Lemma single_probe_protocol_fails :
  ~ single_probe_protocol opened_once 131 /\
  (is_open 131 opened_once).1 = false /\
  (is_open 131 (is_open 131 opened_once).2).1 = false /\
  _is_open relieved = true /\
  (is_open 131 relieved).1 = false /\
  (is_open 131 (record_failure 131 (is_open 131 relieved).2)).1 = false.
Proof.
  split; [|vm_compute; auto 6].
  unfold single_probe_protocol. intros (_ & H & _).
  vm_compute in H. discriminate.
Qed.

(** C2 (amended): for a cache breaker that opened (flag set, failure ratio
    above the threshold) and whose interval has elapsed since the last
    failure, [is_open] answers [False] to every call from then on until an
    outcome is recorded, so any number of calls is let through; a success
    recorded for such a call leaves later calls allowed, and a failure
    recorded at time [t] opens the breaker again for the next [interval]
    seconds.  The [circuit_breaker] decorator of the graph generator has no
    reset interval: at or above its threshold it fails every call without
    making it. *)
Theorem breaker_after_interval (cb : CircuitBreaker) (now : Z) :
  _is_open cb = true ->
  interval cb < now - last_failure_time cb ->
  0 <= interval cb ->
  0 < total_requests cb ->
  0 <= failures cb <= total_requests cb ->
  (threshold cb < failure_ratio cb)%Q ->
  let cb1 := (is_open now cb).2 in
  (is_open now cb).1 = false /\
  (forall t, is_open t cb1 = (false, cb1)) /\
  (forall t, now <= t -> (is_open t (record_success cb1)).1 = false) /\
  (forall t t', t <= t' <= t + interval cb ->
     is_open t' (record_failure t cb1) = (true, record_failure t cb1)) /\
  (forall (St A : Type) (func : St -> Result A * St) n s,
     GraphGenerator.CIRCUIT_BREAKER_THRESHOLD <= n ->
     GraphGenerator.circuit_breaker func n s =
       (Raise (PyException "Circuit breaker open - too many failures"),
        (n, s))).
Proof.
  intros Hopen Helapsed Hiv Ht Hf Hq cb1. subst cb1.
  rewrite (is_open_elapsed _ _ Hopen Helapsed). simpl.
  split; [reflexivity|].
  split; [intros t; apply is_open_closed; reflexivity|].
  split.
  - intros t Hle.
    destruct (record_success_fields (set_open false cb)) as [Hl Hi].
    destruct (_is_open (record_success (set_open false cb))) eqn:E.
    + rewrite is_open_elapsed; [reflexivity|assumption|].
      rewrite Hl, Hi. simpl. lia.
    + rewrite is_open_closed; [reflexivity|assumption].
  - split; [|intros; by apply decorator_stays_open].
    intros t t' Hle.
    destruct (record_failure_opens (set_open false cb) t) as (Ho & Hl & Hi);
      [assumption..|].
    apply is_open_waiting; [assumption|].
    rewrite Hl, Hi. simpl. lia.
Qed.

Lemma breaker_after_interval_witness :
  let cb1 := (is_open 131 opened_once).2 in
  (is_open 131 opened_once).1 = false /\
  (forall t, is_open t cb1 = (false, cb1)) /\
  (forall t, 131 <= t -> (is_open t (record_success cb1)).1 = false) /\
  (forall t t', t <= t' <= t + interval opened_once ->
     is_open t' (record_failure t cb1) = (true, record_failure t cb1)) /\
  (forall (St A : Type) (func : St -> Result A * St) n s,
     GraphGenerator.CIRCUIT_BREAKER_THRESHOLD <= n ->
     GraphGenerator.circuit_breaker func n s =
       (Raise (PyException "Circuit breaker open - too many failures"),
        (n, s))).
Proof.
  apply (breaker_after_interval opened_once 131); vm_compute;
    try reflexivity; try (split; discriminate); discriminate.
Defined.

End BreakerFacts.

(** ** Cache reads *)

Module CacheFacts.
Import Breaker BreakerCases BreakerFacts.

(** While the breaker is open and its interval has not elapsed, one attempt
    raises and leaves the manager as it was. *)
Lemma get_once_open json_loads key now client m :
  _is_open (_circuit_breaker m) = true ->
  now - last_failure_time (_circuit_breaker m) <= interval (_circuit_breaker m) ->
  get_cached_data_once json_loads key true now client m =
    (Raise (PyException "Circuit breaker is open"), m).
Proof.
  intros Ho Hw. unfold get_cached_data_once.
  rewrite (is_open_waiting _ _ Ho Hw). destruct m; reflexivity.
Qed.

(** With the breaker open throughout, [get_cached_data] raises to its
    caller, whatever the key holds. *)
Lemma get_raises_while_open json_loads key env m :
  _is_open (_circuit_breaker m) = true ->
  (forall i, (env i).1 - last_failure_time (_circuit_breaker m)
             <= interval (_circuit_breaker m)) ->
  get_cached_data json_loads key true env m = (Raise RetryError, m).
Proof.
  intros Ho Hw. unfold get_cached_data, MAX_RETRY_ATTEMPTS. simpl.
  rewrite !get_once_open by auto. reflexivity.
Qed.

(** C4, as stated, fails: a read of an absent key raises when the breaker
    is open, and a cache outage raises as well; neither is turned into a
    miss by [get_cached_data]. *)
Lemma get_on_missing_key_raises :
  (forall i k, (empty_cache i).2 k = Data None) /\
  (get_cached_data loads_text "graph:U1:2" true empty_cache tripped).1
    = Raise RetryError /\
  (get_cached_data loads_text "graph:U1:2" true outage
     (mkCM (init CIRCUIT_BREAKER_THRESHOLD CIRCUIT_BREAKER_INTERVAL) 0 0 0)).1
    = Raise RetryError.
Proof.
  split; [reflexivity|]. split; vm_compute; reflexivity.
Qed.

(** C4 (amended): for every key, when the breaker lets the first attempt
    through and the client answers with nothing (or with empty text) for
    the key, [get_cached_data] returns [None], counts a miss and raises
    nothing; and [GraphGenerator._get_from_cache] never raises: when the
    cache does not answer it returns [None], otherwise what the cache holds
    for the key. *)
Theorem get_miss_returns_sentinel (json_loads : string -> Result PyVal)
    (key : string) (use_circuit_breaker : bool)
    (env : nat -> Z * (string -> ClientReply))
    (m : CacheManager) (d : option string) (g : GraphGenerator.Generator) :
  (if use_circuit_breaker
   then (is_open (env 0%nat).1 (_circuit_breaker m)).1 else false) = false ->
  (env 0%nat).2 (CACHE_KEY_PREFIX ++ key) = Data d ->
  truthy d = false ->
  (get_cached_data json_loads key use_circuit_breaker env m).1 = Ok None /\
  misses (get_cached_data json_loads key use_circuit_breaker env m).2
    = misses m + 1 /\
  (GraphGenerator._get_from_cache key g).1 =
    (if GraphGenerator.redis_up (GraphGenerator.cache g)
     then GraphGenerator.redis_data (GraphGenerator.cache g) !! key
     else None).
Proof.
  intros Hadm Hreply Hfalsy.
  unfold get_cached_data, MAX_RETRY_ATTEMPTS. simpl.
  unfold get_cached_data_once. rewrite Hreply, Hfalsy.
  destruct use_circuit_breaker.
  - destruct (is_open (env 0%nat).1 (_circuit_breaker m)) as [o cb].
    simpl in Hadm. subst o. simpl. split; [reflexivity|]. split; [reflexivity|].
    unfold GraphGenerator._get_from_cache.
    destruct (GraphGenerator.redis_up (GraphGenerator.cache g)); reflexivity.
  - simpl. split; [reflexivity|]. split; [reflexivity|].
    unfold GraphGenerator._get_from_cache.
    destruct (GraphGenerator.redis_up (GraphGenerator.cache g)); reflexivity.
Qed.

Lemma get_miss_returns_sentinel_witness :
  (get_cached_data loads_text "graph:U1:2" true empty_cache
     (mkCM (init CIRCUIT_BREAKER_THRESHOLD CIRCUIT_BREAKER_INTERVAL) 0 0 0)).1
    = Ok None /\
  misses (get_cached_data loads_text "graph:U1:2" true empty_cache
     (mkCM (init CIRCUIT_BREAKER_THRESHOLD CIRCUIT_BREAKER_INTERVAL) 0 0 0)).2
    = 0 + 1 /\
  (GraphGenerator._get_from_cache "graph:U1:2"
     (GraphGenerator.init (GraphGenerator.mkRedis ∅ false) ∅)).1 =
    (if GraphGenerator.redis_up
          (GraphGenerator.cache
             (GraphGenerator.init (GraphGenerator.mkRedis ∅ false) ∅))
     then GraphGenerator.redis_data
            (GraphGenerator.cache
               (GraphGenerator.init (GraphGenerator.mkRedis ∅ false) ∅))
            !! "graph:U1:2"
     else None).
Proof.
  apply (get_miss_returns_sentinel loads_text "graph:U1:2" true empty_cache
           (mkCM (init CIRCUIT_BREAKER_THRESHOLD CIRCUIT_BREAKER_INTERVAL) 0 0 0)
           None); reflexivity.
Defined.

End CacheFacts.

(** ** Node updates and deletions *)

Module NodeFacts.
Import Neo4j NodeModel NodeCases.

Lemma filter_nil_iff {A} (f : A -> bool) (l : list A) :
  List.filter f l = [] <-> forall x, In x l -> f x = false.
Proof.
  induction l as [|a l IH]; simpl.
  - split; [intros _ x []|reflexivity].
  - destruct (f a) eqn:E.
    + split; [discriminate|]. intros H. specialize (H a (or_introl eq_refl)).
      congruence.
    + rewrite IH. split.
      * intros H x [<-|Hx]; auto.
      * intros H x Hx. apply H. right. assumption.
Qed.

(** Merging new properties over the current ones never loses a required
    key. *)
Lemma merged_keeps_required ty (props new : gmap string PyVal) :
  missing_properties ty props = [] ->
  missing_properties ty (new ∪ props) = [].
Proof.
  unfold missing_properties. rewrite !filter_nil_iff.
  intros H x Hx. specialize (H x Hx).
  apply bool_decide_eq_false in H. apply bool_decide_eq_false.
  intros Hnone. apply lookup_union_None in Hnone. tauto.
Qed.

Lemma validate_ok clean ty props :
  missing_properties ty props = [] ->
  validate_properties clean ty props = Ok (sanitize clean <$> props).
Proof. intros H. unfold validate_properties. rewrite H. reflexivity. Qed.

(** A node built by [__init__] holds its required properties. *)
Lemma init_required clean u now ty props who n :
  init clean u now ty props who = Ok n ->
  missing_properties (type n) (properties n) = [].
Proof.
  unfold init. case_bool_decide; [|discriminate].
  unfold validate_properties.
  destruct (missing_properties ty props) eqn:E; [|discriminate].
  simpl. intros [= <-]. simpl.
  unfold missing_properties in *. rewrite filter_nil_iff in *.
  intros x Hx. specialize (E x Hx).
  apply bool_decide_eq_false in E. apply bool_decide_eq_false.
  rewrite lookup_fmap. destruct (props !! x); [discriminate|congruence].
Qed.

(** C3 (amended): for a node that is in the store, whose object holds its
    type's required properties (as [__init__] leaves it): when the query
    reaches the store, [update] succeeds exactly when the object's version
    is the stored one; on success both the object's and the stored version
    are the old version plus 1; with a stale version it raises the
    version-conflict [ValueError] and leaves the object and the stored nodes
    as they were.  When the query does not reach the store, [update] raises
    the [ConnectionError] of [execute_query] whatever the version, and
    again nothing changes. *)
Theorem update_optimistic_lock (clean : string -> string) (self : Node)
    (db : Neo4jConnection) (props : gmap string PyVal) (modified_by : string)
    (now : Z) (stored : StoredNode) :
  db_nodes db !! uuid self = Some stored ->
  missing_properties (type self) (properties self) = [] ->
  let '(res, self', db') := update clean self db props modified_by now in
  (db_fails db (length (db_log db)) = false ->
     (is_ok res = true <-> version self = sn_version stored) /\
     (version self = sn_version stored ->
        version self' = version self + 1 /\
        sn_version <$> (db_nodes db' !! uuid self)
          = Some (sn_version stored + 1)) /\
     (version self <> sn_version stored ->
        res = Raise (ValueError "Node version conflict or node not found") /\
        self' = self /\ db_nodes db' = db_nodes db)) /\
  (db_fails db (length (db_log db)) = true ->
     res = Raise (ConnectionError "Query failed after all retry attempts") /\
     self' = self /\ db_nodes db' = db_nodes db).
Proof.
  intros Hstored Hreq. unfold update.
  rewrite (validate_ok clean _ _ (merged_keeps_required _ _ props Hreq)).
  unfold execute_query.
  destruct (db_fails db (length (db_log db))) eqn:Hup.
  { simpl. split; [discriminate|]. intros _. auto. }
  rewrite Hstored.
  destruct (Z.eqb_spec (sn_version stored) (version self)) as [Heq|Hne]; simpl.
  - split; [|discriminate]. intros _.
    split; [split; auto|]. split; [|congruence].
    intros _. split; [reflexivity|].
    rewrite lookup_insert_eq. simpl. congruence.
  - split; [|discriminate]. intros _.
    split; [split; [discriminate|congruence]|]. split; [congruence|].
    intros _. auto.
Qed.

Lemma update_optimistic_lock_witness :
  let '(res, self', db') :=
    update (fun s => s) artist one_artist_db {[ "style" := PStr "Impressionism" ]}
           "editor" 30 in
  (db_fails one_artist_db (length (db_log one_artist_db)) = false ->
     (is_ok res = true <-> version artist = sn_version stored_artist) /\
     (version artist = sn_version stored_artist ->
        version self' = version artist + 1 /\
        sn_version <$> (db_nodes db' !! uuid artist)
          = Some (sn_version stored_artist + 1)) /\
     (version artist <> sn_version stored_artist ->
        res = Raise (ValueError "Node version conflict or node not found") /\
        self' = artist /\ db_nodes db' = db_nodes one_artist_db)) /\
  (db_fails one_artist_db (length (db_log one_artist_db)) = true ->
     res = Raise (ConnectionError "Query failed after all retry attempts") /\
     self' = artist /\ db_nodes db' = db_nodes one_artist_db).
Proof.
  apply (update_optimistic_lock (fun s => s) artist one_artist_db
           {[ "style" := PStr "Impressionism" ]} "editor" 30 stored_artist);
    reflexivity.
Defined.

(** C3, against the claim as worded: the artist is stored at version 3 and
    the caller's object carries version 3, yet during an outage the update
    does not succeed: it raises [ConnectionError], no version conflict, and
    the object keeps version 3. *)
Lemma current_version_update_fails :
  db_nodes unreachable_db !! uuid artist = Some stored_artist /\
  version artist = sn_version stored_artist /\
  (update (fun s => s) artist unreachable_db
          {[ "style" := PStr "Impressionism" ]} "editor" 30).1
    = (Raise (ConnectionError "Query failed after all retry attempts"),
       artist).
Proof. split; [reflexivity|]. split; reflexivity. Qed.

(** X8: two writers that read the same version: the first update goes
    through, the second one, made from the version both had read, is
    refused. *)
Lemma second_writer_loses clean self db props1 props2 who1 who2 t1 t2 stored :
  db_nodes db !! uuid self = Some stored ->
  (forall i, db_fails db i = false) ->
  missing_properties (type self) (properties self) = [] ->
  version self = sn_version stored ->
  let '(res1, _, db1) := update clean self db props1 who1 t1 in
  let '(res2, self2, db2) := update clean self db1 props2 who2 t2 in
  is_ok res1 = true /\
  res2 = Raise (ValueError "Node version conflict or node not found") /\
  self2 = self /\ db_nodes db2 = db_nodes db1.
Proof.
  intros Hstored Hup Hreq Hv. unfold update.
  rewrite !(validate_ok clean _ _ (merged_keeps_required _ _ _ Hreq)).
  unfold execute_query at 1. rewrite Hup, Hstored.
  destruct (Z.eqb_spec (sn_version stored) (version self)); [|congruence].
  unfold execute_query. simpl. rewrite Hup, lookup_insert_eq. simpl.
  destruct (Z.eqb_spec (version self + 1) (version self)); [lia|].
  simpl. auto.
Qed.

(** C10: [delete] on a node with a relationship attached raises, leaves the
    stored nodes and edges as they were and issues the counting query only,
    never the deletion; hence whenever [delete] returns [True], or the
    stored nodes change, the node's relationship count was zero. *)
Theorem delete_guard (self : Node) (db : Neo4jConnection) (modified_by : string) :
  let '(res, db') := delete self db modified_by in
  (0 < rel_count db (uuid self) ->
     is_ok res = false /\
     db_nodes db' = db_nodes db /\ db_rels db' = db_rels db /\
     db_log db' = (db_log db ++ [CountRelationships (uuid self)])%list) /\
  (is_ok res = true \/ db_nodes db' <> db_nodes db ->
     rel_count db (uuid self) = 0).
Proof.
  unfold delete, execute_query.
  destruct (db_fails db (length (db_log db))); simpl.
  - split; [auto|]. intros [?|?]; [discriminate|congruence].
  - assert (Hnn : 0 <= rel_count db (uuid self)) by (unfold rel_count; lia).
    destruct (Z.ltb_spec 0 (rel_count db (uuid self))) as [Hpos|Hzero]; simpl.
    + split; [auto|]. intros [?|?]; [discriminate|congruence].
    + destruct (db_fails db _); simpl; (split; [lia|]); intros _; lia.
Qed.

Example delete_attached_refused :
  delete artist attached_db "editor" =
    (Raise (ValueError "Cannot delete node with existing relationships"),
     mkDb {[ "u-artist" := stored_artist ]} [("u-art", "u-artist")]
          (fun _ => false) [CountRelationships "u-artist"]).
Proof. reflexivity. Qed.

Example delete_unattached_done :
  (delete artist one_artist_db "editor").1 = Ok true /\
  db_nodes (delete artist one_artist_db "editor").2 !! "u-artist" = None /\
  db_log (delete artist one_artist_db "editor").2 =
    [CountRelationships "u-artist"; DeleteNode "u-artist"].
Proof. vm_compute. auto. Qed.

End NodeFacts.

(** ** The artwork checksum *)

Module ArtworkFacts.
Import Neo4j NodeModel ArtworkModel ArtworkCases.

(** What [Node.update] leaves in the object: nothing new when it raises,
    the sanitised merge of the properties when it returns. *)
Lemma update_properties clean self db props who now :
  let '(res, self', _) := update clean self db props who now in
  (is_ok res = false /\ self' = self) \/
  (is_ok res = true /\
   properties self' = sanitize clean <$> (props ∪ properties self)).
Proof.
  unfold update, validate_properties.
  destruct (missing_properties _ _); [|left; auto].
  destruct (execute_query _ _) as [[rows|e] db']; [|left; auto].
  destruct rows; [left|right]; auto.
Qed.

(** C9: the checksum is computed from the title, the creation date and the
    medium alone, and [update_metadata] changes none of the three; so for an
    artwork whose stored checksum is the one of its current fields (as
    [__init__] and every metadata write leave it; the sanitiser leaves such
    a uuid text alone), the checksum property after [update_metadata] is the
    one before, whether the write went through or not. *)
Theorem checksum_stable (clean : string -> string) (datetime_str : Z -> string)
    (uuid5_dns : string -> string) (self : Artwork) (db : Neo4jConnection)
    (metadata : list (string * PyVal)) (audit_user : string) (now : Z) :
  properties (node self) !! "checksum"
    = Some (PStr (_generate_checksum datetime_str uuid5_dns self)) ->
  clean (_generate_checksum datetime_str uuid5_dns self)
    = _generate_checksum datetime_str uuid5_dns self ->
  let '(_, self', _) :=
    update_metadata clean datetime_str uuid5_dns self db metadata audit_user now in
  (forall other : Artwork,
     title other = title self -> creation_date other = creation_date self ->
     medium other = medium self ->
     _generate_checksum datetime_str uuid5_dns other
       = _generate_checksum datetime_str uuid5_dns self) /\
  title self' = title self /\
  creation_date self' = creation_date self /\
  medium self' = medium self /\
  properties (node self') !! "checksum" = properties (node self) !! "checksum".
Proof.
  intros Hsum Hclean.
  assert (Hfun : forall other : Artwork,
     title other = title self -> creation_date other = creation_date self ->
     medium other = medium self ->
     _generate_checksum datetime_str uuid5_dns other
       = _generate_checksum datetime_str uuid5_dns self).
  { intros other Ht Hd Hm. unfold _generate_checksum. by rewrite Ht, Hd, Hm. }
  unfold update_metadata.
  destruct (properties (node self) !! "version") as [v|] eqn:Hv;
    [|simpl; auto].
  destruct (plus_one v) as [v'|] eqn:Hv'; [|simpl; auto].
  destruct (default (PDict []) _) as [ | | | | | old] eqn:Hmd;
    try (simpl; repeat split; auto;
         rewrite lookup_insert_ne by discriminate; reflexivity).
  match goal with
  | |- context [update clean ?n db ?p audit_user now] =>
      pose proof (update_properties clean n db p audit_user now) as Hupd;
      destruct (update clean n db p audit_user now) as [[res n'] db']
  end.
  assert (Hcs : _generate_checksum datetime_str uuid5_dns
                  (mkArtwork
                     (with_properties
                        (<["metadata" := PDict (dict_merge old metadata)]>
                           (<["version" := v']> (properties (node self))))
                        (node self))
                     (title self) (creation_date self) (medium self)
                     (security_level self) now (created_by self) audit_user)
                = _generate_checksum datetime_str uuid5_dns self)
    by reflexivity.
  rewrite Hcs in *.
  destruct res as [r|e]; simpl.
  - repeat split; auto.
    destruct Hupd as [[Hf _]|[_ Hp]]; [discriminate|].
    rewrite Hp, Hsum, lookup_fmap. simpl.
    rewrite lookup_union_l' by (rewrite lookup_insert_eq; eauto).
    rewrite lookup_insert_eq. simpl. by rewrite Hclean.
  - repeat split; auto. rewrite lookup_insert_eq. by rewrite Hsum.
Qed.

Example mona_lisa_init :
  init (fun s => s) date_text uuid5_text "u-mona" 50 "Mona Lisa" 1503 "oil"
       {[ "title" := PStr "Mona Lisa"; "year" := PInt 1503;
          "medium" := PStr "oil" ]} "public" "curator"
  = Ok mona_lisa.
Proof.
  vm_compute. reflexivity.
Qed.

Lemma checksum_stable_witness :
  let '(_, self', _) :=
    update_metadata (fun s => s) date_text uuid5_text mona_lisa louvre_db
      [("room", PStr "711")] "curator" 60 in
  (forall other : Artwork,
     title other = title mona_lisa ->
     creation_date other = creation_date mona_lisa ->
     medium other = medium mona_lisa ->
     _generate_checksum date_text uuid5_text other
       = _generate_checksum date_text uuid5_text mona_lisa) /\
  title self' = title mona_lisa /\
  creation_date self' = creation_date mona_lisa /\
  medium self' = medium mona_lisa /\
  properties (node self') !! "checksum"
    = properties (node mona_lisa) !! "checksum".
Proof.
  apply (checksum_stable (fun s => s) date_text uuid5_text mona_lisa louvre_db
           [("room", PStr "711")] "curator" 60); reflexivity.
Defined.

End ArtworkFacts.

(** ** Similar artworks *)

Module SimilarityFacts.
Import Neo4j Similarity SimilaritySpec.

Lemma jaccard_is_index r q :
  jaccard r = Ok q ->
  q = jaccard_index (list_to_set (features r)) (list_to_set (other_features r)).
Proof.
  unfold jaccard, jaccard_index.
  destruct (size _) eqn:E; [discriminate|]. by intros [= <-].
Qed.

Lemma insert_desc_perm x l : Permutation (insert_desc x l) (x :: l).
Proof.
  induction l as [|y l IH]; simpl; [reflexivity|].
  destruct (Qle_bool _ _); [reflexivity|].
  rewrite IH. apply perm_swap.
Qed.

Lemma sorted_desc_perm l : Permutation (sorted_desc l) l.
Proof.
  induction l as [|x l IH]; simpl; [reflexivity|].
  rewrite insert_desc_perm. by constructor.
Qed.

Lemma insert_desc_sorted x l :
  StronglySorted desc l -> StronglySorted desc (insert_desc x l).
Proof.
  induction 1 as [|y l Hs IH Hall]; simpl.
  - repeat constructor.
  - destruct (Qle_bool (similarity_score y) (similarity_score x)) eqn:E.
    + apply Qle_bool_iff in E.
      constructor; [by constructor|].
      constructor; [exact E|].
      eapply Forall_impl; [exact Hall|].
      intros z Hz. unfold desc in *. eapply Qle_trans; eassumption.
    + assert (Hxy : desc y x).
      { unfold desc. apply Qlt_le_weak, Qnot_le_lt.
        intros Hle. apply Qle_bool_iff in Hle. congruence. }
      constructor; [exact IH|].
      rewrite (Forall_forall (desc y)). intros z Hz.
      apply list_elem_of_In in Hz.
      apply (Permutation_in _ (insert_desc_perm x l)) in Hz.
      destruct Hz as [<-|Hz]; [exact Hxy|].
      rewrite Forall_forall in Hall. apply Hall. by apply list_elem_of_In.
Qed.

Lemma sorted_desc_sorted l : StronglySorted desc (sorted_desc l).
Proof.
  induction l; simpl; [constructor|by apply insert_desc_sorted].
Qed.

(** Every scored entry comes from a row and carries that row's index. *)
Lemma score_rows_sound metric rows all :
  score_rows metric rows = Ok all ->
  forall s, s ∈ all ->
  exists r, r ∈ rows /\ s_artwork_id s = artwork_id r /\
            s_properties s = properties r /\
            similarity_score s =
              jaccard_index (list_to_set (features r))
                            (list_to_set (other_features r)).
Proof.
  revert all. induction rows as [|r rows IH]; simpl; intros all Hall s Hs.
  - injection Hall as <-. by apply elem_of_nil in Hs.
  - destruct (String.eqb metric "jaccard").
    + destruct (jaccard r) as [q|] eqn:Hq; [|discriminate]. simpl in Hall.
      destruct (score_rows metric rows) as [tl|]; [|discriminate].
      simpl in Hall. injection Hall as <-.
      apply elem_of_cons in Hs as [->|Hs].
      * exists r. simpl. split; [left|]. repeat split; by apply jaccard_is_index.
      * destruct (IH tl eq_refl s Hs) as (r' & Hr' & Hrest).
        exists r'. split; [by right|exact Hrest].
    + destruct (IH all Hall s Hs) as (r' & Hr' & Hrest).
      exists r'. split; [by right|exact Hrest].
Qed.

Lemma slice_to_nonneg {A} limit (l : list A) :
  0 <= limit -> slice_to limit l = take (Z.to_nat limit) l.
Proof.
  intros H. unfold slice_to. destruct (Z.leb_spec 0 limit); [done|lia].
Qed.

(** C8, as stated, fails: a candidate that shares no neighbour with the
    source is returned (with score 0); and a negative limit does not bound
    the length of the answer. *)
Lemma stranger_is_returned :
  List.filter (fun v => bool_decide (v ∈ neighbours strangers "b"))
              (neighbours strangers "a") = [] /\
  find_similar_artworks (Ok (similarity_query strangers "a")) "jaccard" 10
    = Ok [mkScored "b" {[ "title" := PStr "B" ]} (0 # 2)] /\
  (length <$> find_similar_artworks (Ok three_rows) "jaccard" (-1)) = Ok 2%nat.
Proof. vm_compute. auto. Qed.

(** The specification's scenario: neighbours {X, Y} against {X, Y, Z}. *)
Example jaccard_two_thirds :
  jaccard (mkRow "b" ∅ ["ARTIST:X"; "MOVEMENT:Y"]
                 ["ARTIST:X"; "MOVEMENT:Y"; "PERIOD:Z"]) = Ok (2 # 3).
Proof. vm_compute. reflexivity. Qed.

(** Under ['jaccard'] every row that can be scored is scored. *)
Lemma jaccard_scores_every_row rows all :
  score_rows "jaccard" rows = Ok all -> length all = length rows.
Proof.
  revert all. induction rows as [|r rows IH]; simpl; intros all Hall.
  - by injection Hall as <-.
  - destruct (jaccard r) as [q|]; [|discriminate]. simpl in Hall.
    destruct (score_rows "jaccard" rows) as [tl|]; [|discriminate].
    simpl in Hall. injection Hall as <-. simpl. f_equal. by apply IH.
Qed.

(** C8 (amended): for a non-negative limit, every returned entry is one of
    the fetched rows (another artwork with at least one neighbour, shared
    with the source or not) with the Jaccard index of the two feature sets
    as its score; the answer has at most [limit] entries; and it is exactly
    the first [limit] entries (all of them when there are fewer) of the
    scored rows, one per fetched row under ['jaccard'], arranged by
    descending score. *)
Theorem find_similar_top_n (rows : list SimRow) (metric : string) (limit : Z)
    (res : list Scored) :
  0 <= limit ->
  find_similar_artworks (Ok rows) metric limit = Ok res ->
  (forall s, s ∈ res ->
     exists r, r ∈ rows /\ s_artwork_id s = artwork_id r /\
               s_properties s = properties r /\
               similarity_score s =
                 jaccard_index (list_to_set (features r))
                               (list_to_set (other_features r))) /\
  Z.of_nat (length res) <= limit /\
  exists rest all,
    score_rows metric rows = Ok all /\
    (metric = "jaccard" -> length all = length rows) /\
    length res = Nat.min (Z.to_nat limit) (length all) /\
    Permutation (res ++ rest) all /\
    StronglySorted desc (res ++ rest).
Proof.
  intros Hlim. unfold find_similar_artworks.
  case_bool_decide; [|discriminate]. simpl.
  destruct (score_rows metric rows) as [all|] eqn:Hall; [|discriminate].
  simpl. rewrite slice_to_nonneg by assumption. intros [= <-].
  split; [|split].
  - intros s Hs. apply (score_rows_sound _ _ _ Hall).
    apply elem_of_take in Hs as (i & Hi & _).
    apply list_elem_of_lookup_2 in Hi.
    apply list_elem_of_In. apply list_elem_of_In in Hi.
    by apply (Permutation_in _ (sorted_desc_perm all)).
  - rewrite length_take. lia.
  - exists (drop (Z.to_nat limit) (sorted_desc all)), all.
    rewrite take_drop. split; [reflexivity|].
    split; [intros ->; by apply jaccard_scores_every_row|].
    split.
    { rewrite length_take.
      by rewrite (Permutation_length (sorted_desc_perm all)). }
    split; [apply sorted_desc_perm|apply sorted_desc_sorted].
Qed.

Lemma find_similar_top_n_witness :
  (forall s, s ∈ [mkScored "b" ∅ (1 # 1); mkScored "c" ∅ (1 # 2)] ->
     exists r, r ∈ three_rows /\ s_artwork_id s = artwork_id r /\
               s_properties s = properties r /\
               similarity_score s =
                 jaccard_index (list_to_set (features r))
                               (list_to_set (other_features r))) /\
  Z.of_nat (length [mkScored "b" ∅ (1 # 1); mkScored "c" ∅ (1 # 2)]) <= 2 /\
  exists rest all,
    score_rows "jaccard" three_rows = Ok all /\
    ("jaccard" = "jaccard" -> length all = length three_rows) /\
    length [mkScored "b" ∅ (1 # 1); mkScored "c" ∅ (1 # 2)]
      = Nat.min (Z.to_nat 2) (length all) /\
    Permutation ([mkScored "b" ∅ (1 # 1); mkScored "c" ∅ (1 # 2)] ++ rest) all /\
    StronglySorted desc
      ([mkScored "b" ∅ (1 # 1); mkScored "c" ∅ (1 # 2)] ++ rest).
Proof.
  apply (find_similar_top_n three_rows "jaccard" 2); [lia|].
  vm_compute. reflexivity.
Defined.

End SimilarityFacts.

(** ** Graph generation *)

Module GeneratorFacts.
Import ArtworkModel RelationshipModel GraphGenerator GeneratorSpec.
#[local] Open Scope list_scope.

(** *** Batches and their interleaving *)

Lemma chunked_aux_concat {A} fuel size (l : list A) :
  (0 < size)%nat -> (length l <= fuel)%nat ->
  concat (chunked_aux fuel size l) = l.
Proof.
  intros Hsize. revert l.
  induction fuel as [|fuel IH]; intros [|a l] Hlen; simpl in *;
    try reflexivity; try lia.
  rewrite IH.
  - destruct size as [|size]; [lia|]. simpl. by rewrite take_drop.
  - destruct size as [|size]; [lia|]. simpl. rewrite length_drop. lia.
Qed.

(** The batches partition the frontier, in order. *)
Lemma concat_chunked {A} size (l : list A) :
  (0 < size)%nat -> concat (chunked size l) = l.
Proof. intros H. by apply chunked_aux_concat. Qed.

Lemma pick_perm {A} n (chunks chunks' : list (list A)) a :
  pick n chunks = Some (a, chunks') ->
  Permutation (concat chunks) (a :: concat chunks').
Proof.
  revert n a chunks'.
  induction chunks as [|ch rest IH]; intros n a chunks'; simpl; [discriminate|].
  destruct ch as [|b ch].
  - destruct (pick n rest) as [[a0 r]|] eqn:E; [|discriminate].
    intros [= <- <-]. simpl. by eapply IH.
  - destruct n as [|n].
    + intros [= <- <-]. reflexivity.
    + destruct (pick n rest) as [[b0 r]|] eqn:E.
      * intros [= <- <-]. simpl. rewrite (IH _ _ _ E).
        change (b :: ch ++ b0 :: concat r) with ((b :: ch) ++ b0 :: concat r).
        symmetry. apply (Permutation_middle (b :: ch) (concat r) b0).
      * intros [= <- <-]. reflexivity.
Qed.

Lemma pick_none {A} n (chunks : list (list A)) :
  pick n chunks = None -> concat chunks = [].
Proof.
  revert n. induction chunks as [|ch rest IH]; intros n; simpl; [done|].
  destruct ch as [|b ch].
  - destruct (pick n rest) as [[a0 r]|] eqn:E; [discriminate|].
    intros _. by eapply IH.
  - destruct n; [discriminate|]. destruct (pick n rest) as [[? ?]|]; discriminate.
Qed.

(** Whatever the order in which the answers arrive, every id of every
    batch is handled exactly once. *)
Lemma gather_order_perm {A} choices (chunks : list (list A)) :
  Permutation (gather_order choices chunks) (concat chunks).
Proof.
  revert chunks. induction choices as [|c cs IH]; intros chunks; simpl;
    [reflexivity|].
  destruct (pick c chunks) as [[a chunks']|] eqn:E.
  - rewrite (pick_perm _ _ _ _ E). constructor. apply IH.
  - by rewrite (pick_none _ _ E).
Qed.

(** Two batches whose answers arrive alternately, second batch first. *)
Example gather_alternating :
  gather_order [1; 0; 1]%nat [["a"; "b"]; ["c"; "d"]] = ["c"; "a"; "d"; "b"].
Proof. reflexivity. Qed.

Lemma level_order_perm {A} choices (l : list A) :
  Permutation (gather_order choices (chunked DEFAULT_BATCH_SIZE l)) l.
Proof.
  rewrite gather_order_perm, concat_chunked; [reflexivity|].
  unfold DEFAULT_BATCH_SIZE. lia.
Qed.

(** *** The accumulators *)

Lemma dict_add_keyed d n : keyed d -> keyed (dict_add d n).
Proof.
  intros [Hnd Hk]. unfold dict_add. case_bool_decide as Hin; [by split|].
  split.
  - rewrite fmap_app. simpl. apply NoDup_app. split; [done|].
    split; [|apply NoDup_singleton].
    intros x Hx Hx'. apply list_elem_of_singleton in Hx'. by subst.
  - apply Forall_app. split; [done|]. by constructor.
Qed.

Lemma dict_add_keys d n k :
  k ∈ (dict_add d n).*1 -> k ∈ d.*1 \/ k = node_uuid n.
Proof.
  unfold dict_add. case_bool_decide; [auto|].
  rewrite fmap_app, elem_of_app. simpl. rewrite list_elem_of_singleton. tauto.
Qed.

Lemma dict_add_length d n : (length d <= length (dict_add d n))%nat.
Proof.
  unfold dict_add. case_bool_decide; [lia|]. rewrite length_app. simpl. lia.
Qed.

Lemma foldl_dict_add_keyed ns d : keyed d -> keyed (foldl dict_add d ns).
Proof.
  revert d. induction ns as [|n ns IH]; intros d H; simpl; [done|].
  by apply IH, dict_add_keyed.
Qed.

Lemma foldl_dict_add_keys ns d k :
  k ∈ (foldl dict_add d ns).*1 -> k ∈ d.*1 \/ k ∈ node_uuid <$> ns.
Proof.
  revert d. induction ns as [|n ns IH]; intros d; simpl; [auto|].
  intros H. apply IH in H as [H|H].
  - apply dict_add_keys in H as [H| ->]; [auto|]. right. left.
  - right. by right.
Qed.

Lemma keyed_values d : keyed d -> node_uuid <$> d.*2 = d.*1.
Proof.
  intros [_ Hk]. induction Hk as [|[k n] d Hkn _ IH]; [done|].
  rewrite !fmap_cons. simpl in *. by rewrite IH, Hkn.
Qed.

Lemma set_add_nodup s r : NoDup s -> NoDup (set_add s r).
Proof.
  intros H. unfold set_add. case_bool_decide as Hin; [done|].
  apply NoDup_app. split; [done|]. split; [|apply NoDup_singleton].
  intros x Hx Hx'. apply list_elem_of_singleton in Hx'. by subst.
Qed.

Lemma set_add_elem s r x : x ∈ set_add s r -> x ∈ s \/ x = r.
Proof.
  unfold set_add. case_bool_decide; [auto|].
  rewrite elem_of_app, list_elem_of_singleton. tauto.
Qed.

Lemma foldl_set_add_nodup rs s : NoDup s -> NoDup (foldl set_add s rs).
Proof.
  revert s. induction rs as [|r rs IH]; intros s H; simpl; [done|].
  by apply IH, set_add_nodup.
Qed.

Lemma foldl_set_add_elem rs s x :
  x ∈ foldl set_add s rs -> x ∈ s \/ x ∈ rs.
Proof.
  revert s. induction rs as [|r rs IH]; intros s; simpl; [auto|].
  intros H. apply IH in H as [H|H].
  - apply set_add_elem in H as [H| ->]; [auto|]. right. left.
  - right. by right.
Qed.

(** *** Invariants of the expansion *)

Section Expansion.

Variable get_rel : UUID -> gmap string PyVal -> Result RelatedData.
Variable options : gmap string PyVal.

(** A property kept by logging and by merging an answer holds after the
    ids of a level have been handled, whether a query failed or not. *)
Lemma process_ids_inv (P : Acc -> Prop) ids :
  (forall acc e, P acc -> P (logged e acc)) ->
  (forall id rd acc, id ∈ ids -> get_rel id options = Ok rd ->
                     P acc -> P (merge_related rd acc)) ->
  forall acc, P acc -> P (process_ids get_rel ids options acc).2.
Proof.
  intros Hlog. induction ids as [|id ids IH]; intros Hstep acc HP; simpl;
    [done|].
  destruct (get_rel id options) as [rd|e] eqn:E; simpl.
  - apply IH.
    + intros id' rd' acc' Hin. apply Hstep. by right.
    + eapply Hstep; [left|exact E|]. by apply (Hlog acc).
  - by apply (Hlog acc).
Qed.

(** A property indexed by the level, advanced by each level, holds at some
    level between the first and the last when the loop ends. *)
Lemma expand_levels_inv (P : nat -> Acc -> Prop) sched :
  (forall level acc,
     P level acc ->
     P (S level)
       (process_ids get_rel (level_order (sched level) acc) options acc).2) ->
  forall n level acc,
    P level acc ->
    exists j, (level <= j <= level + n)%nat /\
              P j (expand_levels get_rel n level sched options acc).2.
Proof.
  intros Hstep. induction n as [|n IH]; intros level acc HP; simpl.
  - exists level. split; [lia|done].
  - specialize (Hstep level acc HP). unfold level_order in Hstep.
    destruct (process_ids get_rel _ options acc) as [[[]|e] acc'] eqn:E;
      simpl in *.
    + destruct (Z.ltb _ _).
      * exists (S level). split; [lia|done].
      * destruct (IH (S level) acc' Hstep) as (j & Hj & HPj).
        exists j. split; [lia|done].
    + exists (S level). split; [lia|done].
Qed.

(** Once a level ends with more than [MAX_GRAPH_SIZE] nodes, asking for
    more levels changes nothing. *)
Lemma expand_levels_stop sched k :
  forall level acc acc' m,
    expand_levels get_rel (S k) level sched options acc = (Ok (), acc') ->
    MAX_GRAPH_SIZE < Z.of_nat (length (acc_nodes acc')) ->
    (S k <= m)%nat ->
    expand_levels get_rel m level sched options acc = (Ok (), acc').
Proof.
  induction k as [|k IH]; intros level acc acc' m Hrun Hbig Hm;
    (destruct m as [|m]; [lia|]); simpl in *;
    destruct (process_ids get_rel _ options acc) as [[[]|e] acc1];
    try discriminate;
    destruct (Z.ltb_spec MAX_GRAPH_SIZE (Z.of_nat (length (acc_nodes acc1))));
    try done.
  - injection Hrun as <-. lia.
  - apply IH; [done|done|lia].
Qed.

Lemma within_S root n v :
  within get_rel options root n v -> within get_rel options root (S n) v.
Proof.
  induction 1 as [n|n u v _ IH Hadj]; [constructor|].
  by apply within_step with u.
Qed.

Lemma within_le root n m v :
  (n <= m)%nat ->
  within get_rel options root n v -> within get_rel options root m v.
Proof. induction 1 as [|m Hle IH]; [done|]. intros Hw. by apply within_S, IH. Qed.

End Expansion.

(** *** Distinct identifiers *)

Section Distinct.

Variable get_rel : UUID -> gmap string PyVal -> Result RelatedData.
Variable options : gmap string PyVal.

Lemma merge_related_distinct id rd acc :
  get_rel id options = Ok rd ->
  distinct_inv get_rel options acc ->
  distinct_inv get_rel options (merge_related rd acc).
Proof.
  intros Hget (Hk & Hnd & Hret). unfold merge_related. split; [|split]; simpl.
  - by apply foldl_dict_add_keyed.
  - by apply foldl_set_add_nodup.
  - rewrite Forall_forall in *. intros r Hr.
    apply foldl_set_add_elem in Hr as [Hr|Hr]; [by apply Hret|].
    by exists id, rd.
Qed.

Lemma expand_levels_distinct n level sched acc :
  distinct_inv get_rel options acc ->
  distinct_inv get_rel options
    (expand_levels get_rel n level sched options acc).2.
Proof.
  intros Hinv.
  destruct (expand_levels_inv get_rel options
              (fun _ => distinct_inv get_rel options) sched)
    with (n := n) (level := level) (acc := acc) as (j & _ & Hj); [|done|done].
  intros l a Ha. apply process_ids_inv; [|intros id rd a' _|done].
  - by intros a' e.
  - apply merge_related_distinct.
Qed.

Lemma generate_parallel_distinct artwork depth sched tr :
  match (_generate_graph_parallel get_rel artwork depth options sched tr).1 with
  | Ok gd =>
      NoDup (node_uuid <$> nodes gd) /\ NoDup (relationships gd) /\
      Forall (returned get_rel options) (relationships gd)
  | Raise _ => True
  end.
Proof.
  unfold _generate_graph_parallel.
  assert (H0 : distinct_inv get_rel options
                 (mkAcc [(NodeModel.uuid (node artwork), Art artwork)] [] tr)).
  { split; [split|split]; simpl.
    - apply NoDup_singleton.
    - by repeat constructor.
    - constructor.
    - constructor. }
  pose proof (expand_levels_distinct (Z.to_nat depth) 0 sched _ H0) as Hinv.
  destruct (expand_levels _ _ _ _ _ _) as [[[]|e] acc]; simpl in *; [|done].
  destruct Hinv as (Hk & Hnd & Hret). split; [|by split].
  rewrite (keyed_values _ Hk). apply Hk.
Qed.

End Distinct.

(** *** The depth bound *)

Section Depth.

Variable get_rel : UUID -> gmap string PyVal -> Result RelatedData.
Variable options : gmap string PyVal.

(** What the helper is expected to answer for a node id: relationships
    attached to that node, and the nodes at their other ends. *)
Hypothesis incident :
  forall u d r, get_rel u options = Ok d -> r ∈ rd_relationships d ->
                source_node r = u \/ target_node r = u.
Hypothesis neighbours_only :
  forall u d n, get_rel u options = Ok d -> n ∈ rd_nodes d ->
                node_uuid n = u \/ adjacent get_rel options u (node_uuid n).

Variable root : UUID.

Lemma merge_related_depth level id rd acc :
  within get_rel options root level id ->
  get_rel id options = Ok rd ->
  depth_inv get_rel options root (S level) acc ->
  depth_inv get_rel options root (S level) (merge_related rd acc).
Proof.
  intros Hid Hget [Hn Hr]. split; simpl.
  - intros k Hk. apply foldl_dict_add_keys in Hk as [Hk|Hk]; [by apply Hn|].
    apply list_elem_of_fmap in Hk as (n & -> & Hin).
    destruct (neighbours_only _ _ _ Hget Hin) as [-> | Hadj].
    + by apply within_S.
    + by apply within_step with id.
  - intros r Hin. apply foldl_set_add_elem in Hin as [Hin|Hin]; [by apply Hr|].
    assert (Hret : returned get_rel options r) by (by exists id, rd).
    destruct (incident _ _ _ Hget Hin) as [Hs|Ht].
    + split; [rewrite Hs; by apply within_S|].
      apply within_step with id; [done|]. exists r. split; [done|]. by left.
    + split; [|rewrite Ht; by apply within_S].
      apply within_step with id; [done|]. exists r. split; [done|]. by right.
Qed.

Lemma depth_inv_S level acc :
  depth_inv get_rel options root level acc ->
  depth_inv get_rel options root (S level) acc.
Proof.
  intros [Hn Hr]. split.
  - intros k Hk. by apply within_S, Hn.
  - intros r Hin. destruct (Hr r Hin). split; by apply within_S.
Qed.

Lemma depth_inv_le n m acc :
  (n <= m)%nat ->
  depth_inv get_rel options root n acc -> depth_inv get_rel options root m acc.
Proof. induction 1 as [|m Hle IH]; [done|]. intros H. by apply depth_inv_S, IH. Qed.

Lemma level_depth level choices acc :
  depth_inv get_rel options root level acc ->
  depth_inv get_rel options root (S level)
    (process_ids get_rel (level_order choices acc) options acc).2.
Proof.
  intros Hinv.
  apply process_ids_inv; [by intros a e| |by apply depth_inv_S].
  intros id rd a Hin Hget. apply (merge_related_depth level id); [|done].
  apply Hinv. unfold level_order in Hin.
  apply list_elem_of_In in Hin. apply list_elem_of_In.
  by apply (Permutation_in _ (level_order_perm choices _)).
Qed.

Lemma expand_levels_depth n sched acc :
  depth_inv get_rel options root 0 acc ->
  depth_inv get_rel options root n
    (expand_levels get_rel n 0 sched options acc).2.
Proof.
  intros Hinv.
  destruct (expand_levels_inv get_rel options
              (depth_inv get_rel options root) sched)
    with (n := n) (level := 0%nat) (acc := acc) as (j & Hj & Hdj); [|done|].
  - intros l a. apply level_depth.
  - apply depth_inv_le with j; [lia|done].
Qed.

End Depth.

(** *** The generated graph *)

Lemma set_position_uuid pos n : node_uuid (set_position pos n) = node_uuid n.
Proof.
  unfold set_position. destruct (pos !! node_uuid n) as [[x y]|]; [|done].
  by destruct n.
Qed.

Lemma optimize_graph_ids layout gd :
  node_uuid <$> nodes (_optimize_graph layout gd) = node_uuid <$> nodes gd.
Proof.
  unfold _optimize_graph. simpl. rewrite <- list_fmap_compose.
  apply list_fmap_ext. intros i n _. apply set_position_uuid.
Qed.

Lemma nodup_fmap_inj {A B} (f : A -> B) (l : list A) x y :
  NoDup (f <$> l) -> x ∈ l -> y ∈ l -> f x = f y -> x = y.
Proof.
  induction l as [|a l IH]; intros Hnd Hx Hy Hf; [by apply elem_of_nil in Hx|].
  rewrite fmap_cons in Hnd. apply NoDup_cons in Hnd as [Hnotin Hnd].
  apply elem_of_cons in Hx as [->|Hx]; apply elem_of_cons in Hy as [->|Hy];
    try done.
  - exfalso. apply Hnotin. rewrite Hf. by apply list_elem_of_fmap_2.
  - exfalso. apply Hnotin. rewrite <- Hf. by apply list_elem_of_fmap_2.
  - by apply IH.
Qed.

(** On a cache miss, a graph that [generate_body] returns is the laid-out
    result of [_generate_graph_parallel] from the root the store gave. *)
Lemma generate_body_miss get_art get_rel layout artwork_id depth options sched
    gt g :
  (_get_from_cache (cache_key artwork_id depth) g).1 = None ->
  match (generate_body get_art get_rel layout artwork_id depth options sched
           gt g).1 with
  | Ok graph =>
      exists artwork tr gd,
        get_art artwork_id = Ok (Some artwork) /\
        (_generate_graph_parallel get_rel artwork depth (default ∅ options)
           sched tr).1 = Ok gd /\
        graph = _optimize_graph layout gd
  | Raise _ => True
  end.
Proof.
  intros Hmiss. unfold generate_body.
  destruct (_get_from_cache _ g) as [[cached|] g1]; [discriminate|].
  destruct (get_art artwork_id) as [[artwork|]|e]; simpl; try done.
  destruct (_generate_graph_parallel _ _ _ _ _ _) as [[gd|e] tr] eqn:E;
    simpl; [|done].
  eexists artwork, _, gd. rewrite E. auto.
Qed.

(** C7 (amended): in a graph generated on a cache miss the node uuids are
    pairwise distinct and the relationship records are pairwise distinct:
    nodes are added under their uuid only when that uuid is not yet a key,
    relationships are added to a set of whole records.  The relationship
    uuids are pairwise distinct when the store never answers with two
    different records under one uuid, and in any case exactly when no two
    different records of the graph share a uuid. *)
Theorem generated_ids_distinct
    (get_art : UUID -> Result (option Artwork))
    (get_rel : UUID -> gmap string PyVal -> Result RelatedData)
    (layout : list UUID -> list (UUID * UUID) -> gmap string (Q * Q))
    (artwork_id : UUID) (depth : Z) (options : option (gmap string PyVal))
    (sched : nat -> list nat) (generation_time : Q) (g : Generator) :
  (_get_from_cache (cache_key artwork_id depth) g).1 = None ->
  match (generate_body get_art get_rel layout artwork_id depth options sched
           generation_time g).1 with
  | Ok graph =>
      NoDup (node_uuid <$> nodes graph) /\
      NoDup (relationships graph) /\
      ((forall r1 r2,
          returned get_rel (default ∅ options) r1 ->
          returned get_rel (default ∅ options) r2 ->
          uuid r1 = uuid r2 -> r1 = r2) ->
       NoDup (uuid <$> relationships graph)) /\
      (NoDup (uuid <$> relationships graph) <->
       forall r1 r2,
         r1 ∈ relationships graph -> r2 ∈ relationships graph ->
         uuid r1 = uuid r2 -> r1 = r2)
  | Raise _ => True
  end.
Proof.
  intros Hmiss.
  pose proof (generate_body_miss get_art get_rel layout artwork_id depth
                options sched generation_time g Hmiss) as Hgen.
  destruct (generate_body _ _ _ _ _ _ _ _ _).1 as [graph|e]; [|done].
  destruct Hgen as (artwork & tr & gd & _ & Hgd & ->).
  pose proof (generate_parallel_distinct get_rel (default ∅ options)
                artwork depth sched tr) as Hd.
  rewrite Hgd in Hd. destruct Hd as (Hn & Hr & Hret).
  rewrite optimize_graph_ids.
  change (relationships (_optimize_graph layout gd)) with (relationships gd).
  split; [done|]. split; [done|]. split.
  - intros Hid. apply NoDup_fmap_2_strong; [|done].
    rewrite Forall_forall in Hret. intros r1 r2 H1 H2.
    apply Hid; by apply Hret.
  - split.
    + intros Hu r1 r2 H1 H2. by apply (nodup_fmap_inj uuid (relationships gd)).
    + intros Hid. by apply NoDup_fmap_2_strong.
Qed.

(** C6: in a graph generated on a cache miss for depth [d], both ends of
    every relationship are within [d] relationships of the root, provided
    the store answers a node id with relationships attached to that node
    and with the nodes at their other ends. *)
Theorem relationships_within_depth
    (get_art : UUID -> Result (option Artwork))
    (get_rel : UUID -> gmap string PyVal -> Result RelatedData)
    (layout : list UUID -> list (UUID * UUID) -> gmap string (Q * Q))
    (artwork_id : UUID) (depth : Z) (options : option (gmap string PyVal))
    (sched : nat -> list nat) (generation_time : Q) (g : Generator) :
  (forall u d r, get_rel u (default ∅ options) = Ok d ->
                 r ∈ rd_relationships d ->
                 source_node r = u \/ target_node r = u) ->
  (forall u d n, get_rel u (default ∅ options) = Ok d -> n ∈ rd_nodes d ->
                 node_uuid n = u \/
                 adjacent get_rel (default ∅ options) u (node_uuid n)) ->
  (_get_from_cache (cache_key artwork_id depth) g).1 = None ->
  match (generate_body get_art get_rel layout artwork_id depth options sched
           generation_time g).1 with
  | Ok graph =>
      exists artwork,
        get_art artwork_id = Ok (Some artwork) /\
        forall r, r ∈ relationships graph ->
          within get_rel (default ∅ options) (NodeModel.uuid (node artwork))
                 (Z.to_nat depth) (source_node r) /\
          within get_rel (default ∅ options) (NodeModel.uuid (node artwork))
                 (Z.to_nat depth) (target_node r)
  | Raise _ => True
  end.
Proof.
  intros Hinc Hnb Hmiss.
  pose proof (generate_body_miss get_art get_rel layout artwork_id depth
                options sched generation_time g Hmiss) as Hgen.
  destruct (generate_body _ _ _ _ _ _ _ _ _).1 as [graph|e]; [|done].
  destruct Hgen as (artwork & tr & gd & Hart & Hgd & ->).
  exists artwork. split; [done|]. simpl.
  unfold _generate_graph_parallel in Hgd.
  pose proof (expand_levels_depth get_rel (default ∅ options) Hinc Hnb
                (NodeModel.uuid (node artwork)) (Z.to_nat depth) sched
                (mkAcc [(NodeModel.uuid (node artwork), Art artwork)] [] tr))
    as Hinv.
  destruct (expand_levels _ _ _ _ _ _) as [[[]|e] acc]; [|discriminate].
  simpl in *. injection Hgd as <-. simpl.
  apply Hinv. split; simpl.
  - intros k Hk. apply list_elem_of_singleton in Hk as ->. constructor.
  - intros r Hr. by apply elem_of_nil in Hr.
Qed.

(** C1 (amended): when the expansion, run for [k + 1] levels, ends with
    more than [MAX_GRAPH_SIZE] nodes, no further level is expanded: for
    every larger requested depth [_generate_graph_parallel] returns that
    same result, nodes, relationships and store calls alike.  The result is
    the plain nodes/relationships record; it carries no truncation flag. *)
Theorem truncation_stops_expansion
    (get_rel : UUID -> gmap string PyVal -> Result RelatedData)
    (artwork : Artwork) (k : nat) (depth : Z) (options : gmap string PyVal)
    (sched : nat -> list nat) (tr : list Event) :
  match (_generate_graph_parallel get_rel artwork (Z.of_nat (S k)) options
           sched tr).1 with
  | Ok gd => MAX_GRAPH_SIZE < Z.of_nat (length (nodes gd))
  | Raise _ => False
  end ->
  Z.of_nat (S k) <= depth ->
  _generate_graph_parallel get_rel artwork depth options sched tr =
  _generate_graph_parallel get_rel artwork (Z.of_nat (S k)) options sched tr.
Proof.
  unfold _generate_graph_parallel. rewrite Nat2Z.id. intros Hbig Hle.
  destruct (expand_levels get_rel (S k) _ _ _ _) as [[[]|e] acc] eqn:E;
    [|done].
  simpl in Hbig. rewrite length_fmap in Hbig.
  rewrite (expand_levels_stop get_rel options sched k _ _ _ (Z.to_nat depth) E);
    [done|done|lia].
Qed.

(** *** The store helpers meet the contract *)

Import GraphStore.

Lemma store_returned s options r :
  returned (get_node_relationships s) options r ->
  r ∈ store_relationships s.
Proof.
  intros (u & d & [= <-] & Hr). simpl in Hr.
  apply list_elem_of_In, filter_In in Hr as [Hr _]. by apply list_elem_of_In.
Qed.

Lemma store_incident s options u d r :
  get_node_relationships s u options = Ok d -> r ∈ rd_relationships d ->
  source_node r = u \/ target_node r = u.
Proof.
  intros [= <-] Hr. simpl in Hr.
  apply list_elem_of_In, filter_In in Hr as [_ Ht].
  unfold touches in Ht. apply orb_true_iff in Ht as [Ht|Ht];
    apply bool_decide_eq_true in Ht; auto.
Qed.

Lemma store_neighbours s options u d n :
  get_node_relationships s u options = Ok d -> n ∈ rd_nodes d ->
  node_uuid n = u \/
  adjacent (get_node_relationships s) options u (node_uuid n).
Proof.
  intros Hget Hn. pose proof Hget as [= <-]. simpl in Hn.
  apply list_elem_of_In, filter_In in Hn as [_ Hn].
  apply bool_decide_eq_true in Hn.
  apply list_elem_of_fmap in Hn as (r & Hend & Hr).
  right. exists r. split.
  - exists u, (mkRelated
                 (List.filter
                    (fun n => bool_decide
                       (node_uuid n ∈ other_end u
                          <$> List.filter (touches u) (store_relationships s)))
                    (store_nodes s))
                 (List.filter (touches u) (store_relationships s))).
    split; [done|exact Hr].
  - apply list_elem_of_In, filter_In in Hr as [_ Ht].
    unfold other_end in Hend. unfold touches in Ht.
    case_bool_decide as Hs.
    + left. by rewrite Hend.
    + right. simpl in Ht. apply bool_decide_eq_true in Ht. by rewrite Hend.
Qed.

Lemma store_uuid_identifies s options :
  NoDup (uuid <$> store_relationships s) ->
  forall r1 r2,
    returned (get_node_relationships s) options r1 ->
    returned (get_node_relationships s) options r2 ->
    uuid r1 = uuid r2 -> r1 = r2.
Proof.
  intros Hnd r1 r2 H1 H2. apply (nodup_fmap_inj uuid (store_relationships s));
    [done|by eapply store_returned..].
Qed.

(** *** Closed instances *)

Lemma generated_ids_distinct_witness :
  is_ok (generate_body (get_artwork_node scenario)
           (get_node_relationships scenario) no_layout "U1" 2 None in_order
           1%Q fresh_generator).1 = true /\
  match (generate_body (get_artwork_node scenario)
           (get_node_relationships scenario) no_layout "U1" 2 None in_order
           1%Q fresh_generator).1 with
  | Ok graph =>
      NoDup (node_uuid <$> nodes graph) /\
      NoDup (relationships graph) /\
      ((forall r1 r2,
          returned (get_node_relationships scenario) (default ∅ None) r1 ->
          returned (get_node_relationships scenario) (default ∅ None) r2 ->
          uuid r1 = uuid r2 -> r1 = r2) ->
       NoDup (uuid <$> relationships graph)) /\
      (NoDup (uuid <$> relationships graph) <->
       forall r1 r2,
         r1 ∈ relationships graph -> r2 ∈ relationships graph ->
         uuid r1 = uuid r2 -> r1 = r2)
  | Raise _ => True
  end.
Proof.
  split; [vm_compute; reflexivity|].
  apply (generated_ids_distinct (get_artwork_node scenario)
           (get_node_relationships scenario) no_layout "U1" 2 None in_order
           1%Q fresh_generator).
  reflexivity.
Defined.

(** The scenario's store answers with one record per relationship uuid, so
    the graph generated from it has distinct relationship uuids. *)
Example scenario_relationship_uuids :
  (fmap uuid ∘ relationships) <$>
    (generate_body (get_artwork_node scenario)
       (get_node_relationships scenario) no_layout "U1" 2 None in_order
       1%Q fresh_generator).1 = Ok ["R1"; "R2"].
Proof. vm_compute. reflexivity. Qed.

(** C7, against the claim as worded: the store holds R1 and R2 once each,
    but the helper builds its [Relationship] objects at each call, so the
    record of R1 read from U1 and the one read from U2 differ in
    [last_accessed]; the set keeps both and the generated graph carries the
    uuid R1 twice. *)
Lemma reread_relationship_repeats_uuid :
  NoDup (uuid <$> store_relationships scenario) /\
  exists graph,
    (generate_body (get_artwork_node scenario)
       (get_node_relationships_at read_time scenario) no_layout "U1" 2 None
       in_order 1%Q fresh_generator).1 = Ok graph /\
    stamp 1 (edge "R1" "CREATED_BY" "U1" "U2") ∈ relationships graph /\
    stamp 2 (edge "R1" "CREATED_BY" "U1" "U2") ∈ relationships graph /\
    ~ NoDup (uuid <$> relationships graph).
Proof.
  split; [apply (bool_decide_unpack (NoDup _)); vm_compute; exact I|].
  eexists. split; [vm_compute; reflexivity|].
  split; [apply (bool_decide_unpack _); vm_compute; exact I|].
  split; [apply (bool_decide_unpack _); vm_compute; exact I|].
  apply (bool_decide_unpack (~ _)). vm_compute. exact I.
Qed.

Lemma relationships_within_depth_witness :
  is_ok (generate_body (get_artwork_node scenario)
           (get_node_relationships scenario) no_layout "U1" 2 None in_order
           1%Q fresh_generator).1 = true /\
  match (generate_body (get_artwork_node scenario)
           (get_node_relationships scenario) no_layout "U1" 2 None in_order
           1%Q fresh_generator).1 with
  | Ok graph =>
      exists artwork,
        get_artwork_node scenario "U1" = Ok (Some artwork) /\
        forall r, r ∈ relationships graph ->
          within (get_node_relationships scenario) (default ∅ None)
                 (NodeModel.uuid (node artwork)) (Z.to_nat 2) (source_node r) /\
          within (get_node_relationships scenario) (default ∅ None)
                 (NodeModel.uuid (node artwork)) (Z.to_nat 2) (target_node r)
  | Raise _ => True
  end.
Proof.
  split; [vm_compute; reflexivity|].
  apply (relationships_within_depth (get_artwork_node scenario)
           (get_node_relationships scenario) no_layout "U1" 2 None in_order
           1%Q fresh_generator).
  - apply store_incident.
  - apply store_neighbours.
  - reflexivity.
Defined.

(** The scenario of section 8, depth 1 and depth 0. *)
Example scenario_depth_1 :
  (generate_body (get_artwork_node scenario) (get_node_relationships scenario)
     no_layout "U1" 1 None in_order 1%Q fresh_generator).1
  = Ok (mkGraph (store_nodes scenario) (store_relationships scenario)).
Proof. vm_compute. reflexivity. Qed.

Example scenario_depth_0 :
  (generate_body (get_artwork_node scenario) (get_node_relationships scenario)
     no_layout "U1" 0 None in_order 1%Q fresh_generator).1
  = Ok (mkGraph [Art (artwork_root "U1" "A")] []).
Proof. vm_compute. reflexivity. Qed.

(** C1, as stated, fails: for an artwork with 1001 neighbours the expansion
    stops after the first level, and the returned graph has 1002 nodes,
    more than [MAX_GRAPH_SIZE]. *)
Lemma truncated_graph_exceeds_limit :
  (length ∘ nodes <$>
     (generate_artwork_graph (get_artwork_node (star 1001))
        (get_node_relationships (star 1001)) no_layout "hub" 2 None in_order
        1%Q (0, init (mkRedis ∅ true) ∅)).1) = Ok 1002%nat /\
  MAX_GRAPH_SIZE < 1002.
Proof. split; [vm_compute; reflexivity|reflexivity]. Qed.

Lemma truncation_stops_expansion_witness :
  _generate_graph_parallel (get_node_relationships (star 1001))
    (artwork_root "hub" "Hub") 5 ∅ in_order [] =
  _generate_graph_parallel (get_node_relationships (star 1001))
    (artwork_root "hub" "Hub") (Z.of_nat 1) ∅ in_order [].
Proof.
  apply (truncation_stops_expansion (get_node_relationships (star 1001))
           (artwork_root "hub" "Hub") 0 5 ∅ in_order []).
  - vm_compute. reflexivity.
  - vm_compute. discriminate.
Defined.

(** *** No depth check *)

(** The calls made during the expansion are added after those made
    before. *)
Lemma expand_levels_trace get_rel options n level sched acc :
  exists rest,
    acc_trace (expand_levels get_rel n level sched options acc).2
      = acc_trace acc ++ rest.
Proof.
  destruct (expand_levels_inv get_rel options
              (fun _ a => exists rest, acc_trace a = acc_trace acc ++ rest)
              sched) with (n := n) (level := level) (acc := acc)
    as (j & _ & Hj); [| by exists []; rewrite app_nil_r | done].
  intros l a Ha. apply process_ids_inv; [| |done].
  - intros a' e [rest Hrest]. exists (rest ++ [e]). simpl.
    by rewrite Hrest, app_assoc.
  - intros id rd a' _ _ [rest Hrest]. by exists rest.
Qed.

Lemma generate_parallel_trace get_rel artwork depth options sched tr :
  exists rest,
    (_generate_graph_parallel get_rel artwork depth options sched tr).2
      = tr ++ rest.
Proof.
  unfold _generate_graph_parallel.
  destruct (expand_levels_trace get_rel options (Z.to_nat depth) 0 sched
              (mkAcc [(NodeModel.uuid (node artwork), Art artwork)] [] tr))
    as [rest Hrest].
  exists rest. by destruct (expand_levels _ _ _ _ _ _) as [[[]|e] acc].
Qed.

(** Whatever the requested depth, the first thing [generate_body] does is
    read the cache under the key of that depth: the depth is compared with
    nothing, and [config] is never consulted. *)
Lemma depth_is_never_checked get_art get_rel layout artwork_id depth options
    sched gt g :
  exists rest,
    trace (generate_body get_art get_rel layout artwork_id depth options sched
             gt g).2
      = trace g ++ CacheGet (cache_key artwork_id depth) :: rest.
Proof.
  unfold generate_body.
  assert (Hc : exists o, _get_from_cache (cache_key artwork_id depth) g
                 = (o, log (CacheGet (cache_key artwork_id depth)) g)).
  { unfold _get_from_cache. destruct (redis_up (cache g)); eauto. }
  destruct Hc as [o ->]. destruct o as [cached|]; simpl.
  - by exists [].
  - destruct (get_art artwork_id) as [[artwork|]|e]; simpl;
      try (exists [GetArtworkNode artwork_id]; by rewrite <- app_assoc).
    match goal with
    | |- context [_generate_graph_parallel ?a ?b ?c ?d ?e ?f] =>
        destruct (generate_parallel_trace a b c d e f) as [rest Hrest];
        destruct (_generate_graph_parallel a b c d e f) as [[gd|e'] tr]
    end; simpl in *; subst tr.
    + exists (GetArtworkNode artwork_id :: rest
              ++ [CacheSetex (cache_key artwork_id depth) GRAPH_CACHE_TTL]).
      unfold _cache_graph. simpl.
      destruct (redis_up (cache g)); simpl;
        by rewrite <- !app_assoc.
    + exists (GetArtworkNode artwork_id :: rest). by rewrite <- !app_assoc.
Qed.

(** C5 at a failing input: asked for depth 8 by a generator configured with
    a maximum depth of 2, [generate_artwork_graph] raises nothing; it reads
    the cache, queries the store 23 times, caches and returns the graph. *)
Theorem depth_eight_is_served :
  let run :=
    generate_artwork_graph (get_artwork_node scenario)
      (get_node_relationships scenario) no_layout "U1" 8 None in_order 1%Q
      (0, fresh_generator) in
  fresh_generator = init (mkRedis ∅ true) {[ "max_depth" := PInt 2 ]} /\
  (length ∘ nodes <$> run.1) = Ok 3%nat /\
  take 3 (trace run.2.2) =
    [CacheGet "graph:U1:8"; GetArtworkNode "U1"; GetNodeRelationships "U1"] /\
  length (trace run.2.2) = 25%nat /\
  last (trace run.2.2) = Some (CacheSetex "graph:U1:8" 3600).
Proof. vm_compute. auto. Qed.

End GeneratorFacts.

(** ** The cache breaker over its lifetime, cache writes, the decorator *)

Module CacheRuns.
Import Breaker BreakerCases BreakerFacts CacheFacts CacheWrites CacheWriteCases.

Lemma update_state_open cb :
  _is_open cb = true -> _is_open (_update_state cb) = true.
Proof.
  intros H. unfold _update_state.
  repeat match goal with |- context [if ?b then _ else _] => destruct b end;
    done.
Qed.

Lemma update_state_counts cb :
  failures (_update_state cb) = failures cb /\
  total_requests (_update_state cb) = total_requests cb /\
  threshold (_update_state cb) = threshold cb.
Proof.
  unfold _update_state.
  repeat match goal with |- context [if ?b then _ else _] => destruct b end;
    done.
Qed.

(** The flag is set by [_update_state] only when the failure ratio is
    above the threshold, which takes a recorded failure. *)
Lemma update_state_opened cb :
  (0 <= threshold cb)%Q -> 0 <= failures cb ->
  _is_open (_update_state cb) = true ->
  _is_open cb = true \/ 0 < failures cb.
Proof.
  intros Hthr Hf. unfold _update_state.
  destruct (Z.ltb_spec 0 (total_requests cb)) as [Ht|Ht]; [|auto].
  destruct (Qlt_bool (threshold cb) (failure_ratio cb)) eqn:E; [|auto].
  intros _. right.
  unfold Qlt_bool, failure_ratio in E. simpl in E.
  apply Z.ltb_lt in E. unfold Qle in Hthr. simpl in Hthr.
  destruct (threshold cb) as [a d]. simpl in *. nia.
Qed.

(** X1: over the whole life of a cache breaker with a non-negative
    threshold (built by [__init__], then changed only by recorded outcomes
    and by reads of [is_open]) the failures counted never exceed the
    requests counted, and the flag is set only after at least one failure
    has been recorded: successes alone never open the breaker. *)
Theorem open_breaker_has_failed (thr : Q) (iv : Z) (cb : CircuitBreaker) :
  (0 <= thr)%Q ->
  reachable thr iv cb ->
  0 <= failures cb <= total_requests cb /\
  threshold cb = thr /\
  (_is_open cb = true -> 0 < failures cb).
Proof.
  intros Hthr. induction 1 as [|cb _ IH|now cb _ IH|now cb _ IH].
  - simpl. split; [lia|]. split; [reflexivity|discriminate].
  - destruct IH as (Hc & Ht & Ho).
    destruct (update_state_counts
                (mkCB (threshold cb) (interval cb) (failures cb)
                      (total_requests cb + 1) (last_failure_time cb)
                      (_is_open cb))) as (Hf & Hn & Hh).
    unfold record_success. rewrite Hf, Hn, Hh. simpl.
    split; [lia|]. split; [done|]. intros Hopen.
    apply update_state_opened in Hopen as [Hopen|Hpos]; simpl in *;
      [by apply Ho|done|by rewrite Ht|lia].
  - destruct IH as (Hc & Ht & Ho).
    destruct (update_state_counts
                (mkCB (threshold cb) (interval cb) (failures cb + 1)
                      (total_requests cb + 1) now (_is_open cb)))
      as (Hf & Hn & Hh).
    unfold record_failure. rewrite Hf, Hn, Hh. simpl.
    split; [lia|]. split; [done|]. intros _. lia.
  - destruct IH as (Hc & Ht & Ho). unfold is_open.
    destruct (_is_open cb) eqn:E; [|simpl; rewrite E; auto].
    destruct (Z.ltb _ _); simpl; [|rewrite E; auto].
    split; [lia|]. split; [done|discriminate].
Qed.

Lemma open_breaker_has_failed_witness :
  0 <= failures relieved <= total_requests relieved /\
  threshold relieved = CIRCUIT_BREAKER_THRESHOLD /\
  (_is_open relieved = true -> 0 < failures relieved).
Proof.
  apply (open_breaker_has_failed CIRCUIT_BREAKER_THRESHOLD
           CIRCUIT_BREAKER_INTERVAL relieved).
  - discriminate.
  - unfold relieved, opened_once. do 3 apply reach_success.
    apply reach_failure, reach_init.
Defined.

Lemma record_failure_sets cb now :
  0 <= total_requests cb ->
  (threshold cb < Qmake (failures cb + 1) (Z.to_pos (total_requests cb + 1)))%Q ->
  _is_open (record_failure now cb) = true /\
  last_failure_time (record_failure now cb) = now /\
  interval (record_failure now cb) = interval cb /\
  failures (record_failure now cb) = failures cb + 1 /\
  total_requests (record_failure now cb) = total_requests cb + 1.
Proof.
  intros Ht Hq. unfold record_failure, _update_state. simpl.
  destruct (Z.ltb_spec 0 (total_requests cb + 1)); [|lia].
  assert (E : Qlt_bool (threshold cb)
                (failure_ratio
                   (mkCB (threshold cb) (interval cb) (failures cb + 1)
                         (total_requests cb + 1) now (_is_open cb))) = true).
  { unfold Qlt_bool, failure_ratio. simpl. apply Z.ltb_lt. exact Hq. }
  rewrite E. simpl. auto.
Qed.

(** X2: when the first attempt of a read is let through, the client
    raises, and that failure puts the failure ratio above the threshold (as
    the first failure of a new manager does), the breaker opens at once; the
    two further attempts of the [@retry] decorator, made within the reset
    interval, are refused without asking the client, and the read raises.
    One failure is recorded, not three. *)
Theorem first_failure_ends_retries (json_loads : string -> Result PyVal)
    (key : string) (env : nat -> Z * (string -> ClientReply))
    (m : CacheManager) (e : Exn) :
  (is_open (env 0%nat).1 (_circuit_breaker m)).1 = false ->
  (env 0%nat).2 (CACHE_KEY_PREFIX ++ key) = ClientRaises e ->
  0 <= total_requests (_circuit_breaker m) ->
  (threshold (_circuit_breaker m)
   < Qmake (failures (_circuit_breaker m) + 1)
           (Z.to_pos (total_requests (_circuit_breaker m) + 1)))%Q ->
  (forall i, (env i).1 - (env 0%nat).1 <= interval (_circuit_breaker m)) ->
  (get_cached_data json_loads key true env m).1 = Raise RetryError /\
  failures (_circuit_breaker (get_cached_data json_loads key true env m).2)
    = failures (_circuit_breaker m) + 1 /\
  total_requests (_circuit_breaker (get_cached_data json_loads key true env m).2)
    = total_requests (_circuit_breaker m) + 1 /\
  errors (get_cached_data json_loads key true env m).2 = errors m + 1 /\
  _is_open (_circuit_breaker (get_cached_data json_loads key true env m).2)
    = true.
Proof.
  intros Hadm Hreply Ht Hq Hnear.
  assert (Hcb : exists cb0,
             is_open (env 0%nat).1 (_circuit_breaker m) = (false, cb0) /\
             threshold cb0 = threshold (_circuit_breaker m) /\
             interval cb0 = interval (_circuit_breaker m) /\
             failures cb0 = failures (_circuit_breaker m) /\
             total_requests cb0 = total_requests (_circuit_breaker m)).
  { unfold is_open in *.
    destruct (_is_open (_circuit_breaker m)); [|eauto 10].
    destruct (Z.ltb _ _); [eauto 10|discriminate]. }
  destruct Hcb as (cb0 & Hread & Hthr & Hiv & Hf & Hn).
  assert (H0 : get_cached_data_once json_loads key true (env 0%nat).1
                 (env 0%nat).2 m
               = (Raise e, mkCM (record_failure (env 0%nat).1 cb0) (hits m)
                                (misses m) (errors m + 1))).
  { unfold get_cached_data_once. by rewrite Hread, Hreply. }
  destruct (record_failure_sets cb0 (env 0%nat).1) as (Ho & Hl & Hi & Hf' & Hn');
    [lia|by rewrite Hthr, Hf, Hn|].
  unfold get_cached_data, MAX_RETRY_ATTEMPTS. simpl. rewrite H0.
  rewrite !get_once_open; simpl;
    try assumption; try (rewrite Hl, Hi, Hiv; apply Hnear).
  rewrite Hf', Hn', Hf, Hn. auto.
Qed.

Lemma first_failure_ends_retries_witness :
  (get_cached_data loads_text "graph:U1:2" true outage
     (mkCM (init CIRCUIT_BREAKER_THRESHOLD CIRCUIT_BREAKER_INTERVAL) 0 0 0)).1
    = Raise RetryError /\
  failures (_circuit_breaker
     (get_cached_data loads_text "graph:U1:2" true outage
        (mkCM (init CIRCUIT_BREAKER_THRESHOLD CIRCUIT_BREAKER_INTERVAL) 0 0 0)).2)
    = 0 + 1 /\
  total_requests (_circuit_breaker
     (get_cached_data loads_text "graph:U1:2" true outage
        (mkCM (init CIRCUIT_BREAKER_THRESHOLD CIRCUIT_BREAKER_INTERVAL) 0 0 0)).2)
    = 0 + 1 /\
  errors (get_cached_data loads_text "graph:U1:2" true outage
        (mkCM (init CIRCUIT_BREAKER_THRESHOLD CIRCUIT_BREAKER_INTERVAL) 0 0 0)).2
    = 0 + 1 /\
  _is_open (_circuit_breaker
     (get_cached_data loads_text "graph:U1:2" true outage
        (mkCM (init CIRCUIT_BREAKER_THRESHOLD CIRCUIT_BREAKER_INTERVAL) 0 0 0)).2)
    = true.
Proof.
  apply (first_failure_ends_retries loads_text "graph:U1:2" outage
           (mkCM (init CIRCUIT_BREAKER_THRESHOLD CIRCUIT_BREAKER_INTERVAL) 0 0 0)
           (ConnectionError "redis down")); try reflexivity.
  intros i. destruct i as [|[|[|[|i]]]]; vm_compute; discriminate.
Defined.

(** X3: a write under a key whose prefixed form is longer than
    [MAX_KEY_LENGTH] raises [ValueError] without asking the client, and the
    refusal is recorded as a cache failure; on a new manager that one
    failure opens the breaker, so a read of any key made within the reset
    interval is refused. *)
Theorem long_key_opens_breaker (json_loads : string -> Result PyVal)
    (json_dumps : PyVal -> Result string) (default_ttl : Z)
    (key : string) (data : PyVal) (ttl : option Z) (now : Z)
    (client : string -> string -> Z -> SetReply)
    (h mi er : Z) (key' : string) (now' : Z)
    (client' : string -> ClientReply) :
  (MAX_KEY_LENGTH < String.length (CACHE_KEY_PREFIX ++ key))%nat ->
  now' - now <= CIRCUIT_BREAKER_INTERVAL ->
  let m0 := mkCM (init CIRCUIT_BREAKER_THRESHOLD CIRCUIT_BREAKER_INTERVAL)
                 h mi er in
  let out := set_cached_data json_dumps default_ttl key data ttl true now
               client m0 in
  out.1 = Raise (ValueError "Cache key exceeds maximum length of 256") /\
  out.2 = mkCM (record_failure now
                  (init CIRCUIT_BREAKER_THRESHOLD CIRCUIT_BREAKER_INTERVAL))
               h mi er /\
  _is_open (_circuit_breaker out.2) = true /\
  get_cached_data_once json_loads key' true now' client' out.2 =
    (Raise (PyException "Circuit breaker is open"), out.2).
Proof.
  intros Hlong Hnear m0 out. subst m0 out.
  unfold set_cached_data. simpl is_open.
  cbv beta iota zeta.
  destruct (Nat.ltb_spec MAX_KEY_LENGTH (String.length (CACHE_KEY_PREFIX ++ key)))
    as [_|Hle]; [|lia].
  simpl. split; [reflexivity|]. split; [reflexivity|].
  split; [reflexivity|].
  apply get_once_open; [reflexivity|]. simpl. exact Hnear.
Qed.

Lemma long_key_opens_breaker_witness :
  let out := set_cached_data dumps_text 3600 long_key (PInt 1) None true 100
               accepting new_manager in
  out.1 = Raise (ValueError "Cache key exceeds maximum length of 256") /\
  out.2 = mkCM (record_failure 100
                  (init CIRCUIT_BREAKER_THRESHOLD CIRCUIT_BREAKER_INTERVAL))
               0 0 0 /\
  _is_open (_circuit_breaker out.2) = true /\
  get_cached_data_once loads_text "graph:U1:2" true 120 (fun _ => Data None)
    out.2
  = (Raise (PyException "Circuit breaker is open"), out.2).
Proof.
  apply (long_key_opens_breaker loads_text dumps_text 3600 long_key (PInt 1)
           None 100 accepting 0 0 0 "graph:U1:2" 120 (fun _ => Data None)).
  - apply Nat.ltb_lt. vm_compute. reflexivity.
  - vm_compute. discriminate.
Defined.

(** X4: while the breaker is open and its reset interval has not
    elapsed, a function wrapped by [cache_decorator] is not called at all:
    the read raises after its three refused attempts and the wrapper passes
    that on, leaving the manager and the function's state as they were.
    There is no fallback to computing the result. *)
Theorem decorated_call_refused_while_open {St : Type}
    (json_loads : string -> Result PyVal) (json_dumps : PyVal -> Result string)
    (default_ttl : Z) (ttl : option Z) (cache_key : string)
    (func : St -> Result PyVal * St)
    (env : nat -> Z * (string -> ClientReply)) (now : Z)
    (client : string -> string -> Z -> SetReply) (m : CacheManager) (st : St) :
  _is_open (_circuit_breaker m) = true ->
  (forall i, (env i).1 - last_failure_time (_circuit_breaker m)
             <= interval (_circuit_breaker m)) ->
  cache_decorator json_loads json_dumps default_ttl ttl true cache_key func
                  env now client (m, st)
  = (Raise RetryError, (m, st)).
Proof.
  intros Ho Hw. unfold cache_decorator. simpl.
  by rewrite (get_raises_while_open json_loads cache_key env m Ho Hw).
Qed.

Lemma decorated_call_refused_while_open_witness :
  cache_decorator loads_text dumps_text 3600 None true "lookup:42" counted
                  empty_cache 112 accepting (tripped, 0%nat)
  = (Raise RetryError, (tripped, 0%nat)).
Proof.
  apply (decorated_call_refused_while_open loads_text dumps_text 3600 None
           "lookup:42" counted empty_cache 112 accepting tripped 0%nat).
  - reflexivity.
  - intros i. destruct i as [|[|[|[|i]]]]; vm_compute; discriminate.
Defined.

(** X5: a wrapped function whose cache key is over-long in its
    prefixed form never has its result returned: the read has no length
    check, so on a miss the function runs (its state changes), then the
    write refuses the key, and the wrapper raises that [ValueError] in place
    of the result, recording a cache failure. *)
Theorem decorated_long_key_loses_result {St : Type}
    (json_loads : string -> Result PyVal) (json_dumps : PyVal -> Result string)
    (default_ttl : Z) (ttl : option Z) (cache_key : string)
    (func : St -> Result PyVal * St)
    (env : nat -> Z * (string -> ClientReply)) (now : Z)
    (client : string -> string -> Z -> SetReply) (m : CacheManager) (st : St)
    (result : PyVal) (st' : St) :
  (MAX_KEY_LENGTH < String.length (CACHE_KEY_PREFIX ++ cache_key))%nat ->
  _is_open (_circuit_breaker m) = false ->
  (env 0%nat).2 (CACHE_KEY_PREFIX ++ cache_key) = Data None ->
  func st = (Ok result, st') ->
  result <> PNone ->
  cache_decorator json_loads json_dumps default_ttl ttl true cache_key func
                  env now client (m, st)
  = (Raise (ValueError "Cache key exceeds maximum length of 256"),
     (mkCM (record_failure now (_circuit_breaker m)) (hits m) (misses m + 1)
           (errors m), st')).
Proof.
  intros Hlong Hclosed Hreply Hfunc Hres.
  assert (Hget : get_cached_data json_loads cache_key true env m
                 = (Ok None, mkCM (_circuit_breaker m) (hits m) (misses m + 1)
                                  (errors m))).
  { unfold get_cached_data, MAX_RETRY_ATTEMPTS, retry, get_cached_data_once.
    by rewrite (is_open_closed _ _ Hclosed), Hreply. }
  assert (Hset : forall m1,
             _circuit_breaker m1 = _circuit_breaker m ->
             set_cached_data json_dumps default_ttl cache_key result ttl true
               now client m1
             = (Raise (ValueError "Cache key exceeds maximum length of 256"),
                mkCM (record_failure now (_circuit_breaker m)) (hits m1)
                     (misses m1) (errors m1))).
  { intros m1 Hm1. unfold set_cached_data.
    rewrite Hm1, (is_open_closed _ _ Hclosed).
    destruct (Nat.ltb_spec MAX_KEY_LENGTH
                (String.length (CACHE_KEY_PREFIX ++ cache_key))) as [_|Hle];
      [reflexivity|lia]. }
  assert (Hnn : is_not_none result = true) by (by destruct result).
  unfold cache_decorator. cbn [fst snd]. rewrite Hget. cbn [default is_not_none].
  rewrite Hfunc, Hnn, Hset by reflexivity. reflexivity.
Qed.

Lemma decorated_long_key_loses_result_witness :
  cache_decorator loads_text dumps_text 3600 None true long_key counted
                  empty_cache 112 accepting (new_manager, 0%nat)
  = (Raise (ValueError "Cache key exceeds maximum length of 256"),
     (mkCM (record_failure 112 (_circuit_breaker new_manager))
           (hits new_manager) (misses new_manager + 1) (errors new_manager),
      1%nat)).
Proof.
  apply (decorated_long_key_loses_result loads_text dumps_text 3600 None
           long_key counted empty_cache 112 accepting new_manager 0%nat
           (PInt 7) 1%nat); try reflexivity.
  - apply Nat.ltb_lt. vm_compute. reflexivity.
  - discriminate.
Defined.

End CacheRuns.

(** ** The Redis client's breaker *)

Module RedisBreakerFacts.
Import RedisBreaker RedisBreakerCases.

(** X6: after any sequence of calls through the decorator, starting
    from a new breaker with a positive threshold, the breaker is open
    exactly when the count of failures has reached the threshold; the count
    is the number of failures since the last success, since every success
    sets it back to zero and a refused call leaves it alone. *)
Theorem open_iff_threshold_reached (thr rt : Z) (cb : CircuitBreaker) :
  0 < thr ->
  reachable thr rt cb ->
  (is_open cb = true <-> thr <= failures cb) /\
  0 <= failures cb /\
  failure_threshold cb = thr /\ reset_timeout cb = rt.
Proof.
  intros Hthr. induction 1 as [|St A func now later cb st _ IH].
  - simpl. split; [split; [discriminate|lia]|]. auto with lia.
  - destruct IH as (Hopen & Hf & Ht & Hr).
    assert (Hattempt : forall cb0,
              failures cb0 = failures cb -> failure_threshold cb0 = thr ->
              reset_timeout cb0 = rt ->
              (is_open cb0 = true -> thr <= failures cb) ->
              let cb' :=
                (match func st with
                 | (Ok result, st0) => (Ok result, (success cb0, st0))
                 | (Raise e, st0) => (Raise e, (failure later cb0, st0))
                 end).2.1 in
              (is_open cb' = true <-> thr <= failures cb') /\
              0 <= failures cb' /\
              failure_threshold cb' = thr /\ reset_timeout cb' = rt).
    { intros cb0 Hf0 Ht0 Hr0 Ho0.
      destruct (func st) as [[result|e] st0]; simpl.
      - split; [split; [discriminate|lia]|]. auto with lia.
      - rewrite Hf0, Ht0.
        destruct (Z.leb_spec thr (failures cb + 1)) as [Hle|Hlt].
        + split; [tauto|]. auto with lia.
        + split; [|auto with lia]. split; [|lia].
          intros Ho. apply Ho0 in Ho. lia. }
    unfold circuit_breaker. simpl.
    destruct (is_open cb) eqn:E.
    + destruct (Z.ltb _ _).
      * apply Hattempt; simpl; auto. discriminate.
      * simpl. rewrite E. tauto.
    + apply Hattempt; auto. rewrite E. discriminate.
Qed.

Lemma open_iff_threshold_reached_witness :
  (is_open five_failures = true <-> 5 <= failures five_failures) /\
  0 <= failures five_failures /\
  failure_threshold five_failures = 5 /\ reset_timeout five_failures = 60.
Proof.
  apply (open_iff_threshold_reached 5 60 five_failures); [lia|].
  unfold five_failures. cbn [foldl].
  do 5 apply reach_call. apply reach_init.
Defined.

(** X7: the probe.  For an open breaker whose failure count has
    reached its threshold: a call that arrives within [reset_timeout] of
    the last failure is refused without the client method being run; a call
    that arrives later is let through, and its success closes the breaker
    and sets the count to zero, while its failure leaves the breaker open,
    with the time of that failure as the start of a new timeout. *)
Theorem probe_after_timeout {St A : Type} (func : St -> Result A * St)
    (now later : Z) (cb : CircuitBreaker) (st : St) :
  is_open cb = true ->
  failure_threshold cb <= failures cb ->
  (now - last_failure cb <= reset_timeout cb ->
     circuit_breaker func now later (cb, st)
     = (Raise (ConnectionError "Circuit breaker is open"), (cb, st))) /\
  (reset_timeout cb < now - last_failure cb ->
     (circuit_breaker func now later (cb, st)).1 = (func st).1 /\
     (circuit_breaker func now later (cb, st)).2.2 = (func st).2 /\
     let cb' := (circuit_breaker func now later (cb, st)).2.1 in
     if is_ok (func st).1
     then is_open cb' = false /\ failures cb' = 0
     else is_open cb' = true /\ last_failure cb' = later /\
          failures cb' = failures cb + 1).
Proof.
  intros Hopen Hreached. unfold circuit_breaker. simpl. rewrite Hopen.
  split; intros Ht.
  - destruct (Z.ltb_spec (reset_timeout cb) (now - last_failure cb)); [lia|done].
  - destruct (Z.ltb_spec (reset_timeout cb) (now - last_failure cb)); [|lia].
    destruct (func st) as [[result|e] st0]; simpl; [auto|].
    destruct (Z.leb_spec (failure_threshold cb) (failures cb + 1)); [auto|lia].
Qed.

Lemma probe_after_timeout_witness :
  (70 - last_failure five_failures <= reset_timeout five_failures ->
     circuit_breaker up 70 70 (five_failures, ())
     = (Raise (ConnectionError "Circuit breaker is open"), (five_failures, ()))) /\
  (reset_timeout five_failures < 70 - last_failure five_failures ->
     (circuit_breaker up 70 70 (five_failures, ())).1 = (up ()).1 /\
     (circuit_breaker up 70 70 (five_failures, ())).2.2 = (up ()).2 /\
     let cb' := (circuit_breaker up 70 70 (five_failures, ())).2.1 in
     if is_ok (up ()).1
     then is_open cb' = false /\ failures cb' = 0
     else is_open cb' = true /\ last_failure cb' = 70 /\
          failures cb' = failures five_failures + 1).
Proof.
  apply (probe_after_timeout up 70 70 five_failures ()).
  - reflexivity.
  - vm_compute. discriminate.
Defined.

End RedisBreakerFacts.

(** ** The life of a node in the store *)

Module NodeLifecycle.
Import Neo4j NodeModel NodeCases NodeFacts NodeCreation.

Lemma second_writer_loses_witness :
  let '(res1, _, db1) :=
    update (fun s => s) artist one_artist_db {[ "style" := PStr "Impressionism" ]}
           "editor" 30 in
  let '(res2, self2, db2) :=
    update (fun s => s) artist db1 {[ "style" := PStr "Realism" ]} "curator" 31 in
  is_ok res1 = true /\
  res2 = Raise (ValueError "Node version conflict or node not found") /\
  self2 = artist /\ db_nodes db2 = db_nodes db1.
Proof.
  apply (second_writer_loses (fun s => s) artist one_artist_db
           {[ "style" := PStr "Impressionism" ]} {[ "style" := PStr "Realism" ]}
           "editor" "curator" 30 31 stored_artist); reflexivity.
Defined.

(** X9: [update] touches one node only.  Whatever it is given and
    whether it succeeds or raises, the object keeps its uuid, type, label and
    creation time, the store keeps its edges, and every node stored under
    another uuid stays as it was. *)
Theorem update_frame (clean : string -> string) (self : Node)
    (db : Neo4jConnection) (props : gmap string PyVal) (modified_by : string)
    (now : Z) :
  let '(_, self', db') := update clean self db props modified_by now in
  uuid self' = uuid self /\ type self' = type self /\
  label self' = label self /\ created_at self' = created_at self /\
  db_rels db' = db_rels db /\
  forall u, u <> uuid self -> db_nodes db' !! u = db_nodes db !! u.
Proof.
  unfold update.
  destruct (validate_properties clean (type self) (props ∪ properties self))
    as [validated|e]; [|auto 10].
  unfold execute_query.
  destruct (db_fails db (length (db_log db))); [simpl; auto 10|].
  destruct (db_nodes db !! uuid self) as [n|] eqn:E; [|simpl; auto 10].
  destruct (Z.eqb (sn_version n) (version self)); simpl; [|auto 10].
  repeat split; try reflexivity.
  intros u Hu. by rewrite lookup_insert_ne.
Qed.

(** What [update] leaves behind: the stored nodes as they were when it
    raises, the next version in the object when it returns. *)
Lemma update_outcome clean self db props who now :
  let '(res, self', db') := update clean self db props who now in
  (is_ok res = false -> db_nodes db' = db_nodes db /\ self' = self) /\
  (is_ok res = true -> version self' = version self + 1).
Proof.
  unfold update.
  destruct (validate_properties clean (type self) (props ∪ properties self))
    as [validated|e]; [|simpl; split; [auto|discriminate]].
  unfold execute_query.
  destruct (db_fails db (length (db_log db)));
    [simpl; split; [auto|discriminate]|].
  destruct (db_nodes db !! uuid self) as [n|] eqn:E;
    [|simpl; split; [auto|discriminate]].
  destruct (Z.eqb (sn_version n) (version self)); simpl;
    (split; [try discriminate; auto|try discriminate; auto]).
Qed.

(** X10: a node created under a uuid the store does not hold yet, with
    the store answering, can be updated from the same object: the update
    succeeds, and the store then holds the node at the next version with the
    sanitised merge of the properties, the new modification time and the
    new author. *)
Theorem create_then_update (clean : string -> string) (self : Node)
    (db : Neo4jConnection) (props : gmap string PyVal) (modified_by : string)
    (now : Z) :
  db_nodes db !! uuid self = None ->
  (forall i, db_fails db i = false) ->
  missing_properties (type self) (properties self) = [] ->
  let '(res1, db1) := create self db in
  let '(res2, self2, db2) := update clean self db1 props modified_by now in
  res1 = Ok self /\
  db_nodes db1 !! uuid self = Some (stored_form self) /\
  res2 = Ok self2 /\
  version self2 = version self + 1 /\
  db_nodes db2 !! uuid self =
    Some (mkStored (type self) (label self)
            (sanitize clean <$> (props ∪ properties self))
            (created_at self) now (version self + 1) modified_by).
Proof.
  intros Hfresh Hup Hreq. unfold create, execute_query. rewrite Hup.
  unfold update.
  rewrite (validate_ok clean _ _ (merged_keeps_required _ _ props Hreq)).
  unfold execute_query. simpl. rewrite Hup, !lookup_insert_eq. simpl.
  rewrite Z.eqb_refl. simpl. rewrite lookup_insert_eq. auto.
Qed.

Lemma create_then_update_witness :
  let '(res1, db1) := create artist (mkDb ∅ [] (fun _ => false) []) in
  let '(res2, self2, db2) :=
    update (fun s => s) artist db1 {[ "style" := PStr "Impressionism" ]}
           "editor" 30 in
  res1 = Ok artist /\
  db_nodes db1 !! uuid artist = Some (stored_form artist) /\
  res2 = Ok self2 /\
  version self2 = version artist + 1 /\
  db_nodes db2 !! uuid artist =
    Some (mkStored (type artist) (label artist)
            (sanitize (fun s => s)
               <$> ({[ "style" := PStr "Impressionism" ]} ∪ properties artist))
            (created_at artist) 30 (version artist + 1) "editor").
Proof.
  apply (create_then_update (fun s => s) artist (mkDb ∅ [] (fun _ => false) [])
           {[ "style" := PStr "Impressionism" ]} "editor" 30); reflexivity.
Defined.

(** X11: creating a node under a new uuid and deleting it again, with
    the store answering and no edge attached to that uuid, gives back the
    stored nodes and edges there were before; the three queries issued are
    the creation, the relationship count and the deletion. *)
Theorem create_delete_round_trip (self : Node) (db : Neo4jConnection)
    (modified_by : string) :
  db_nodes db !! uuid self = None ->
  (forall i, db_fails db i = false) ->
  rel_count db (uuid self) = 0 ->
  let '(res1, db1) := create self db in
  let '(res2, db2) := delete self db1 modified_by in
  res1 = Ok self /\ res2 = Ok true /\
  db_nodes db2 = db_nodes db /\ db_rels db2 = db_rels db /\
  db_log db2 = (db_log db ++ [CreateNode (uuid self) (stored_form self);
                              CountRelationships (uuid self);
                              DeleteNode (uuid self)])%list.
Proof.
  intros Hfresh Hup Hcount. unfold create, execute_query. rewrite Hup.
  unfold delete, execute_query. simpl. rewrite !Hup.
  assert (Hc : rel_count
                 (with_nodes (<[uuid self:=stored_form self]> (db_nodes db))
                    (db_log db ++ [CreateNode (uuid self) (stored_form self)]) db)
                 (uuid self) = 0) by exact Hcount.
  rewrite Hc. simpl. rewrite Hup. simpl.
  rewrite delete_insert_id by exact Hfresh.
  rewrite <- !app_assoc. auto.
Qed.

Lemma create_delete_round_trip_witness :
  let '(res1, db1) := create artist (mkDb ∅ [("a", "b")] (fun _ => false) []) in
  let '(res2, db2) := delete artist db1 "editor" in
  res1 = Ok artist /\ res2 = Ok true /\
  db_nodes db2 = db_nodes (mkDb ∅ [("a", "b")] (fun _ => false) []) /\
  db_rels db2 = db_rels (mkDb ∅ [("a", "b")] (fun _ => false) []) /\
  db_log db2 =
    (db_log (mkDb ∅ [("a", "b")] (fun _ => false) [])
       ++ [CreateNode (uuid artist) (stored_form artist);
           CountRelationships (uuid artist);
           DeleteNode (uuid artist)])%list.
Proof.
  apply (create_delete_round_trip artist
           (mkDb ∅ [("a", "b")] (fun _ => false) []) "editor"); reflexivity.
Defined.

(** X26: validation is idempotent when the sanitiser is.  Validating
    the result of a successful validation again succeeds and changes
    nothing; so [update], which validates the stored properties again with
    every write, leaves untouched properties as they are. *)
Theorem validation_idempotent (clean : string -> string) (ty : string)
    (props v : gmap string PyVal) :
  (forall s, clean (clean s) = clean s) ->
  validate_properties clean ty props = Ok v ->
  validate_properties clean ty v = Ok v.
Proof.
  intros Hclean. unfold validate_properties at 1.
  destruct (missing_properties ty props) eqn:Hmiss; [|discriminate].
  intros [= <-].
  rewrite validate_ok.
  - f_equal. rewrite <- map_fmap_compose. apply map_fmap_ext.
    intros k x _. destruct x; simpl; try done. by rewrite Hclean.
  - unfold missing_properties in *. rewrite filter_nil_iff in *.
    intros p Hp. specialize (Hmiss p Hp).
    apply bool_decide_eq_false in Hmiss. apply bool_decide_eq_false.
    rewrite lookup_fmap. by destruct (props !! p).
Qed.

Lemma validation_idempotent_witness :
  validate_properties (fun _ => "text") "ARTIST"
    {[ "name" := PStr "text"; "birth_year" := PInt 1840 ]}
  = Ok {[ "name" := PStr "text"; "birth_year" := PInt 1840 ]}.
Proof.
  apply (validation_idempotent (fun _ => "text") "ARTIST" artist_props
           {[ "name" := PStr "text"; "birth_year" := PInt 1840 ]}).
  - reflexivity.
  - vm_compute. reflexivity.
Defined.

End NodeLifecycle.

(** ** Artwork construction and metadata versions *)

Module ArtworkVersions.
Import Neo4j NodeModel ArtworkModel ArtworkCases ArtworkFacts NodeLifecycle.

(** X12: [update_metadata] has no rollback.  For an artwork whose
    version property is the integer [v] and whose metadata property is
    absent or a dict, the object's version property is [v + 1] after the
    call whether the write went through or not; when it did not, the
    stored nodes are as before, so the object is one version ahead of the
    store. *)
Theorem version_bumped_without_rollback (clean : string -> string)
    (datetime_str : Z -> string) (uuid5_dns : string -> string)
    (self : Artwork) (db : Neo4jConnection)
    (metadata : list (string * PyVal)) (audit_user : string) (now : Z)
    (v : Z) :
  properties (node self) !! "version" = Some (PInt v) ->
  (properties (node self) !! "metadata" = None \/
   exists old, properties (node self) !! "metadata" = Some (PDict old)) ->
  let '(res, self', db') :=
    update_metadata clean datetime_str uuid5_dns self db metadata audit_user
                    now in
  properties (node self') !! "version" = Some (PInt (v + 1)) /\
  (is_ok res = false -> db_nodes db' = db_nodes db) /\
  (is_ok res = true -> version (node self') = version (node self) + 1).
Proof.
  intros Hv Hmd. unfold update_metadata. rewrite Hv. simpl.
  assert (Hdict : exists old,
            default (PDict [])
              (<["version" := PInt (v + 1)]> (properties (node self))
                 !! "metadata") = PDict old).
  { rewrite lookup_insert_ne by discriminate.
    destruct Hmd as [->|[old ->]]; simpl; eauto. }
  destruct Hdict as [old ->].
  match goal with
  | |- context [update clean ?n db ?p audit_user now] =>
      pose proof (update_properties clean n db p audit_user now) as Hupd;
      pose proof (update_outcome clean n db p audit_user now) as Hfr;
      destruct (update clean n db p audit_user now) as [[res n'] db']
  end.
  destruct res as [r|e]; simpl.
  - destruct Hupd as [[Hf _]|[_ Hp]]; [discriminate|].
    split; [|split; [discriminate|]].
    + rewrite Hp, lookup_fmap.
      rewrite lookup_union_l' by (rewrite lookup_insert_ne by discriminate;
                                  rewrite lookup_insert_ne by discriminate;
                                  rewrite lookup_insert_eq; eauto).
      rewrite lookup_insert_ne by discriminate.
      rewrite lookup_insert_ne by discriminate.
      by rewrite lookup_insert_eq.
    + intros _. by rewrite (proj2 Hfr eq_refl).
  - split; [|split; [|discriminate]].
    + rewrite lookup_insert_ne by discriminate.
      rewrite lookup_insert_ne by discriminate.
      by rewrite lookup_insert_eq.
    + intros _. by apply Hfr.
Qed.

Lemma version_bumped_without_rollback_witness :
  let '(res, self', db') :=
    update_metadata (fun s => s) date_text uuid5_text mona_lisa
      (mkDb ∅ [] (fun _ => false) []) [("room", PStr "711")] "curator" 60 in
  properties (node self') !! "version" = Some (PInt (1 + 1)) /\
  (is_ok res = false ->
     db_nodes db' = db_nodes (mkDb ∅ [] (fun _ => false) [])) /\
  (is_ok res = true -> version (node self') = version (node mona_lisa) + 1).
Proof.
  apply (version_bumped_without_rollback (fun s => s) date_text uuid5_text
           mona_lisa (mkDb ∅ [] (fun _ => false) []) [("room", PStr "711")]
           "curator" 60 1); [reflexivity|]. left. reflexivity.
Defined.

Lemma artwork_required :
  REQUIRED_PROPERTIES !! "ARTWORK" = Some ["title"; "year"; "medium"].
Proof. reflexivity. Qed.

(** X13: what [Artwork.__init__] leaves.  When it returns, the security
    level is one of the three allowed ones, the node is an ARTWORK at
    version 1, the checksum property is the checksum of the new object's
    title, date and medium, the version property is 1, and the property
    dict passed in held 'title', 'year' and 'medium' (the title and medium
    passed as arguments do not stand in for them). *)
Theorem init_establishes_checksum (clean : string -> string)
    (datetime_str : Z -> string) (uuid5_dns : string -> string)
    (node_uuid : UUID) (now : Z) (t : string) (d : Z) (m : string)
    (props : gmap string PyVal) (level who : string) (a : Artwork) :
  init clean datetime_str uuid5_dns node_uuid now t d m props level who = Ok a ->
  level ∈ allowed_levels /\ security_level a = level /\
  title a = t /\ creation_date a = d /\ medium a = m /\
  type (node a) = "ARTWORK" /\ version (node a) = 1 /\
  properties (node a) !! "checksum"
    = Some (PStr (_generate_checksum datetime_str uuid5_dns a)) /\
  properties (node a) !! "version" = Some (PInt 1) /\
  (forall k, k ∈ ["title"; "year"; "medium"] -> is_Some (props !! k)).
Proof.
  intros H. unfold init in H.
  destruct (NodeModel.init clean node_uuid now "ARTWORK" props "system")
    as [n|e] eqn:Hn; cbn [mbind Result_bind] in H; [|discriminate].
  destruct (bool_decide (level ∈ allowed_levels)) eqn:Hlevel; [|discriminate].
  apply bool_decide_eq_true in Hlevel. injection H as <-.
  unfold NodeModel.init in Hn.
  change (bool_decide ("ARTWORK" ∈ NODE_TYPES)) with true in Hn.
  unfold validate_properties in Hn.
  destruct (missing_properties "ARTWORK" props) eqn:Hmiss;
    cbn [mbind Result_bind] in Hn; [|discriminate].
  injection Hn as <-. simpl.
  repeat (split; [done|]).
  split; [by rewrite lookup_insert_ne, lookup_insert_eq|].
  split; [by rewrite lookup_insert_eq|].
  intros k Hk. unfold missing_properties in Hmiss.
  rewrite artwork_required in Hmiss.
  rewrite NodeFacts.filter_nil_iff in Hmiss.
  apply list_elem_of_In in Hk. specialize (Hmiss k Hk).
  apply bool_decide_eq_false in Hmiss.
  by destruct (props !! k); [eexists|].
Qed.

Lemma init_establishes_checksum_witness :
  "public" ∈ allowed_levels /\ security_level mona_lisa = "public" /\
  title mona_lisa = "Mona Lisa" /\ creation_date mona_lisa = 1503 /\
  medium mona_lisa = "oil" /\
  type (node mona_lisa) = "ARTWORK" /\ version (node mona_lisa) = 1 /\
  properties (node mona_lisa) !! "checksum"
    = Some (PStr (_generate_checksum date_text uuid5_text mona_lisa)) /\
  properties (node mona_lisa) !! "version" = Some (PInt 1) /\
  (forall k, k ∈ ["title"; "year"; "medium"] ->
     is_Some (({[ "title" := PStr "Mona Lisa"; "year" := PInt 1503;
                  "medium" := PStr "oil" ]} : gmap string PyVal) !! k)).
Proof.
  apply (init_establishes_checksum (fun s => s) date_text uuid5_text "u-mona"
           50 "Mona Lisa" 1503 "oil"
           {[ "title" := PStr "Mona Lisa"; "year" := PInt 1503;
              "medium" := PStr "oil" ]} "public" "curator" mona_lisa).
  vm_compute. reflexivity.
Defined.

End ArtworkVersions.

(** ** Relationship properties *)

Module RelationshipFacts.
Import NodeModel RelationshipOps RelationshipCases.

(** Every property a relationship type requires is one the validator
    keeps. *)
Lemma required_whitelisted ty l :
  REQUIRED_PROPERTIES !! ty = Some l ->
  Forall (fun p => p ∈ RELATIONSHIP_PROPERTIES) l.
Proof.
  assert (H : map_Forall (fun _ l => Forall (fun p => p ∈ RELATIONSHIP_PROPERTIES) l)
                         REQUIRED_PROPERTIES).
  { apply (bool_decide_unpack _). vm_compute. exact I. }
  intros Hl. exact (H ty l Hl).
Qed.

(** X14: what [Relationship.validate_properties] lets through.  The
    validated dict holds only keys of [RELATIONSHIP_PROPERTIES], each with
    the sanitised value the input had for it, and nothing else of the
    input; for a non-empty input it still holds every property the type
    requires; and the empty dict is accepted for every type, also for one
    that has required properties. *)
Theorem validated_properties_whitelisted (clean : string -> string)
    (ty : string) (props v : gmap string PyVal) :
  validate_properties clean ty props = Ok v ->
  (forall k, is_Some (v !! k) -> k ∈ RELATIONSHIP_PROPERTIES) /\
  (forall k, k ∈ RELATIONSHIP_PROPERTIES ->
             v !! k = sanitize clean <$> props !! k) /\
  (props <> ∅ -> missing_properties ty v = []) /\
  validate_properties clean ty ∅ = Ok ∅.
Proof.
  unfold validate_properties. case_bool_decide as Hempty.
  - intros [= <-]. subst props. repeat split; try done.
    intros k [x Hx]. by rewrite lookup_empty in Hx.
  - destruct (missing_properties ty props) eqn:Hmiss; [|discriminate].
    intros [= <-].
    split; [|split; [|split; [|done]]].
    + intros k [x Hx]. rewrite lookup_fmap in Hx.
      destruct (filter _ props !! k) as [y|] eqn:Hy; [|discriminate].
      apply map_lookup_filter_Some in Hy as [_ Hk]. exact Hk.
    + intros k Hk. rewrite lookup_fmap. f_equal.
      destruct (props !! k) as [y|] eqn:Hy.
      * by apply map_lookup_filter_Some.
      * apply map_lookup_filter_None. left. exact Hy.
    + intros _. unfold missing_properties in *.
      rewrite NodeFacts.filter_nil_iff in *. intros p Hp.
      specialize (Hmiss p Hp). apply bool_decide_eq_false in Hmiss.
      apply bool_decide_eq_false.
      destruct (REQUIRED_PROPERTIES !! ty) as [l|] eqn:Hl; [|destruct Hp].
      pose proof (required_whitelisted ty l Hl) as Hwl.
      rewrite Forall_forall in Hwl. simpl in Hp.
      apply list_elem_of_In, Hwl in Hp.
      rewrite lookup_fmap.
      destruct (props !! p) as [y|] eqn:Hy; [|done].
      assert (Hf : filter (fun kv : string * PyVal =>
                             kv.1 ∈ RELATIONSHIP_PROPERTIES) props !! p
                   = Some y) by (by apply map_lookup_filter_Some).
      by rewrite Hf.
Qed.

(** The dict [Artwork.add_artist] builds passes validation for a
    CREATED_BY relationship, and loses its 'created_by' entry there. *)
Lemma validated_properties_whitelisted_witness :
  (forall k,
     is_Some (({[ "start_date" := PStr "1503-01-01T00:00:00";
                  "confidence" := PFloat 1%Q ]} : gmap string PyVal) !! k) ->
     k ∈ RELATIONSHIP_PROPERTIES) /\
  (forall k, k ∈ RELATIONSHIP_PROPERTIES ->
     ({[ "start_date" := PStr "1503-01-01T00:00:00";
         "confidence" := PFloat 1%Q ]} : gmap string PyVal) !! k
     = sanitize (fun s => s) <$> artist_link !! k) /\
  (artist_link <> ∅ ->
     missing_properties "CREATED_BY"
       {[ "start_date" := PStr "1503-01-01T00:00:00";
          "confidence" := PFloat 1%Q ]} = []) /\
  validate_properties (fun s => s) "CREATED_BY" ∅ = Ok ∅.
Proof.
  apply (validated_properties_whitelisted (fun s => s) "CREATED_BY" artist_link
           {[ "start_date" := PStr "1503-01-01T00:00:00";
              "confidence" := PFloat 1%Q ]}).
  vm_compute. reflexivity.
Defined.

End RelationshipFacts.

(** ** Similar artworks over the stored graph, communities *)

Module SimilarityRuns.
Import Neo4j Similarity SimilaritySpec SimilarityFacts.

Lemma score_rows_skips metric rows :
  String.eqb metric "jaccard" = false -> score_rows metric rows = Ok [].
Proof.
  intros H. induction rows as [|r rows IH]; simpl; [done|]. by rewrite H.
Qed.

Lemma slice_to_elem {A} limit (l : list A) x : x ∈ slice_to limit l -> x ∈ l.
Proof.
  unfold slice_to. destruct (Z.leb 0 limit); intros H;
    apply elem_of_take in H as (i & Hi & _);
    by apply list_elem_of_lookup_2 in Hi.
Qed.

(** X15: the two metrics that are accepted but not implemented.  Under
    'cosine' and under 'euclidean' every row is skipped, so the answer is
    the empty list, whatever the query returned and whatever the limit. *)
Theorem other_metrics_return_nothing (rows : list SimRow) (limit : Z) :
  find_similar_artworks (Ok rows) "cosine" limit = Ok [] /\
  find_similar_artworks (Ok rows) "euclidean" limit = Ok [].
Proof.
  unfold find_similar_artworks.
  split; (case_bool_decide as Hm; [|exfalso; apply Hm; repeat constructor]);
    cbn [mbind Result_bind]; rewrite score_rows_skips by reflexivity;
    cbn [mbind Result_bind sorted_desc foldr]; unfold slice_to;
    destruct (Z.leb 0 limit); by rewrite take_nil.
Qed.

(** A row with a feature has a Jaccard score, between 0 and 1. *)
Lemma jaccard_bounds r :
  features r <> [] ->
  exists q, jaccard r = Ok q /\ (0 <= q <= 1)%Q.
Proof.
  intros Hf. unfold jaccard.
  set (f := list_to_set (features r) : gset string).
  set (o := list_to_set (other_features r) : gset string).
  assert (Hpos : size (f ∪ o) <> 0%nat).
  { apply size_non_empty_iff. intros Hempty.
    assert (Hx : exists x, x ∈ features r)
      by (destruct (features r); [done|eexists; left]).
    destruct Hx as [x Hx].
    assert (Hin : x ∈ f ∪ o)
      by (apply elem_of_union_l; by apply elem_of_list_to_set).
    apply Hempty in Hin. by apply elem_of_empty in Hin. }
  assert (Hle : (size (f ∩ o) <= size (f ∪ o))%nat).
  { apply subseteq_size. intros y Hy.
    apply elem_of_intersection in Hy as [Hy _]. by apply elem_of_union_l. }
  destruct (size (f ∪ o)) as [|u] eqn:Hu; [done|].
  eexists. split; [reflexivity|].
  assert (Hz : Z.pos (Pos.of_nat (S u)) = Z.of_nat (S u))
    by (rewrite <- positive_nat_Z, Nat2Pos.id; [done|lia]).
  unfold Qle. cbn [Qnum Qden]. rewrite Hz. lia.
Qed.

Lemma score_rows_total rows :
  (forall r, r ∈ rows -> features r <> []) ->
  exists all, score_rows "jaccard" rows = Ok all.
Proof.
  induction rows as [|r rows IH]; intros H; simpl; [eauto|].
  destruct (jaccard_bounds r) as (q & -> & _); [apply H; left|].
  destruct IH as [all ->]; [intros r' Hr'; apply H; by right|].
  simpl. eauto.
Qed.

(** What the query's [MATCH] clauses guarantee of every row. *)
Lemma similarity_query_rows db artwork r :
  r ∈ similarity_query db artwork ->
  features r <> [] /\ artwork_id r <> artwork /\
  exists n, db_nodes db !! artwork_id r = Some n /\
            sn_type n = "ARTWORK" /\ properties r = sn_properties n.
Proof.
  unfold similarity_query.
  destruct (db_nodes db !! artwork) as [a|]; [|by intros ?%elem_of_nil].
  case_bool_decide; [|by intros ?%elem_of_nil].
  destruct (feature_list db artwork) as [|f0 fs] eqn:Hfs;
    [by intros ?%elem_of_nil|].
  intros Hr. apply elem_of_take in Hr as (i & Hi & _).
  apply list_elem_of_lookup_2 in Hi.
  apply list_elem_of_omap in Hi as ([u n] & Hun & Hrow).
  apply elem_of_map_to_list in Hun. simpl in Hrow.
  destruct (bool_decide (sn_type n = "ARTWORK")) eqn:Hty; [|discriminate].
  destruct (bool_decide (u = artwork)) eqn:Hu; [discriminate|]. simpl in Hrow.
  destruct (feature_list db u) as [|g0 gs]; [discriminate|].
  injection Hrow as <-. simpl.
  apply bool_decide_eq_true in Hty. apply bool_decide_eq_false in Hu.
  split; [done|]. split; [done|]. eauto.
Qed.

Lemma similarity_query_length db artwork :
  (length (similarity_query db artwork) <= 100)%nat.
Proof.
  unfold similarity_query.
  repeat match goal with
         | |- context [match ?x with _ => _ end] => destruct x
         end; simpl; try lia.
  rewrite length_take. lia.
Qed.

Lemma score_rows_length metric rows all :
  score_rows metric rows = Ok all -> (length all <= length rows)%nat.
Proof.
  revert all. induction rows as [|r rows IH]; simpl; intros all H.
  - injection H as <-. simpl. lia.
  - destruct (String.eqb metric "jaccard").
    + destruct (jaccard r); [|discriminate]. cbn [mbind Result_bind] in H.
      destruct (score_rows metric rows) as [tl|]; [|discriminate].
      cbn [mbind Result_bind] in H. injection H as <-. simpl.
      specialize (IH tl eq_refl). lia.
    + specialize (IH all H). lia.
Qed.

Lemma slice_to_length {A} limit (l : list A) :
  (length (slice_to limit l) <= length l)%nat.
Proof. unfold slice_to. destruct (Z.leb 0 limit); rewrite length_take; lia. Qed.

(** X16: [find_similar_artworks] over the rows its own query yields.
    For every store, artwork id and limit (negative ones included) the
    Jaccard run returns, without dividing by zero; every entry is a stored
    ARTWORK other than the source, carries that node's properties, and has
    a score between 0 and 1; and there are at most 100 entries. *)
Theorem similar_to_stored_artwork (db : Neo4jConnection) (artwork : UUID)
    (limit : Z) :
  exists res,
    find_similar_artworks (Ok (similarity_query db artwork)) "jaccard" limit
      = Ok res /\
    (length res <= 100)%nat /\
    forall s, s ∈ res ->
      (0 <= similarity_score s <= 1)%Q /\
      s_artwork_id s <> artwork /\
      exists n, db_nodes db !! s_artwork_id s = Some n /\
                sn_type n = "ARTWORK" /\ s_properties s = sn_properties n.
Proof.
  destruct (score_rows_total (similarity_query db artwork)) as [all Hall].
  { intros r Hr. by apply similarity_query_rows in Hr as (? & _). }
  exists (slice_to limit (sorted_desc all)).
  unfold find_similar_artworks.
  case_bool_decide as Hm; [|exfalso; apply Hm; repeat constructor].
  cbn [mbind Result_bind]. rewrite Hall. cbn [mbind Result_bind].
  split; [reflexivity|]. split.
  - pose proof (score_rows_length _ _ _ Hall) as Hlen.
    pose proof (similarity_query_length db artwork) as Hq.
    pose proof (slice_to_length limit (sorted_desc all)) as Hs.
    rewrite (Permutation_length (sorted_desc_perm all)) in Hs. lia.
  - intros s Hs. apply slice_to_elem in Hs.
    apply list_elem_of_In in Hs.
    apply (Permutation_in _ (sorted_desc_perm all)) in Hs.
    apply list_elem_of_In in Hs.
    destruct (score_rows_sound _ _ _ Hall s Hs) as (r & Hr & Hid & Hp & Hsc).
    destruct (similarity_query_rows _ _ _ Hr) as (Hf & Hne & n & Hn & Hty & Hpr).
    destruct (jaccard_bounds r Hf) as (q & Hq & Hb).
    apply jaccard_is_index in Hq. rewrite Hsc, <- Hq, Hid, Hp. eauto 10.
Qed.

End SimilarityRuns.

Module CommunityFacts.
Import Communities CommunityCases.

Lemma community_key_inj (i j : nat) :
  "community_" ++ pretty i = "community_" ++ pretty j -> i = j.
Proof. intros H. apply (inj (String.app _)) in H. by apply (inj pretty) in H. Qed.

Lemma collect_lookup communities min_size :
  forall idx d0 (i : nat) c,
    (forall j, (idx <= j)%nat -> d0 !! ("community_" ++ pretty j) = None) ->
    collect idx communities min_size d0 !! ("community_" ++ pretty i) = Some c
    <-> ((idx <= i)%nat /\ communities !! (i - idx)%nat = Some c /\
         min_size <= Z.of_nat (length c)) \/
        ((i < idx)%nat /\ d0 !! ("community_" ++ pretty i) = Some c).
Proof.
  induction communities as [|c0 cs IH]; intros idx d0 i c H0; simpl.
  - split.
    + intros H. destruct (Nat.le_gt_cases idx i) as [Hle|Hlt]; [|auto].
      rewrite H0 in H by done. discriminate.
    + intros [(_ & H & _)|[_ H]]; [discriminate|done].
  - rewrite IH.
    + destruct (Nat.lt_trichotomy i idx) as [Hlt|[->|Hgt]].
      * split; (intros [(Hle & _)|[_ H]]; [lia|right; split; [lia|]]).
        -- destruct (Z.leb _ _); [|done].
           rewrite lookup_insert_ne in H; [done|].
           intros Hk. apply community_key_inj in Hk. lia.
        -- destruct (Z.leb _ _); [|done].
           rewrite lookup_insert_ne; [done|].
           intros Hk. apply community_key_inj in Hk. lia.
      * rewrite Nat.sub_diag. simpl. split.
        -- intros [(Hle & _)|[_ H]]; [lia|]. left.
           destruct (Z.leb_spec min_size (Z.of_nat (length c0))) as [Hm|Hm].
           ++ rewrite lookup_insert_eq in H. injection H as <-. auto.
           ++ rewrite H0 in H by done. discriminate.
        -- intros [(_ & [= <-] & Hm)|[Hlt _]]; [|lia]. right.
           split; [lia|].
           destruct (Z.leb_spec min_size (Z.of_nat (length c0))); [|lia].
           by rewrite lookup_insert_eq.
      * replace (i - idx)%nat with (S (i - S idx)) by lia. simpl.
        split; (intros [(Hle & H)|[Hlt _]]; [left; split; [lia|done]|lia]).
    + intros j Hj. destruct (Z.leb _ _); [|apply H0; lia].
      rewrite lookup_insert_ne; [apply H0; lia|].
      intros Hk. apply community_key_inj in Hk. lia.
Qed.

(** X17: what [detect_communities] returns.  The communities with at
    least [min_community_size] members, each under the key that carries its
    position in the list the algorithm gave: the dict holds a community
    under 'community_i' exactly when it is the [i]-th one found and is
    large enough, so dropped communities leave gaps in the numbering. *)
Theorem communities_keep_their_index
    (detect : string -> Result (list (list UUID))) (algorithm : string)
    (min_community_size : Z) (community_dict : gmap string (list UUID)) :
  detect_communities detect algorithm min_community_size = Ok community_dict ->
  algorithm ∈ COMMUNITY_ALGORITHMS /\
  exists communities,
    detect algorithm = Ok communities /\
    forall (i : nat) c,
      community_dict !! ("community_" ++ pretty i) = Some c <->
      communities !! i = Some c /\ min_community_size <= Z.of_nat (length c).
Proof.
  unfold detect_communities. case_bool_decide as Halg; [|discriminate].
  destruct (detect algorithm) as [communities|e]; [|discriminate].
  cbn [mbind Result_bind]. intros [= <-].
  split; [done|]. exists communities. split; [done|]. intros i c.
  rewrite collect_lookup by (intros j _; apply lookup_empty).
  rewrite Nat.sub_0_r. split.
  - intros [(_ & H)|[Hlt _]]; [done|lia].
  - intros H. left. split; [lia|done].
Qed.

Lemma communities_keep_their_index_witness :
  "louvain" ∈ COMMUNITY_ALGORITHMS /\
  exists communities,
    found "louvain" = Ok communities /\
    forall (i : nat) c,
      ({[ "community_0" := ["a"; "b"; "c"];
          "community_2" := ["e"; "f"; "g"; "h"] ]} : gmap string (list UUID))
        !! ("community_" ++ pretty i) = Some c <->
      communities !! i = Some c /\ 3 <= Z.of_nat (length c).
Proof.
  apply (communities_keep_their_index found "louvain" 3
           {[ "community_0" := ["a"; "b"; "c"];
              "community_2" := ["e"; "f"; "g"; "h"] ]}).
  vm_compute. reflexivity.
Defined.

End CommunityFacts.

(** ** Runs of the generator *)

Module GeneratorRuns.
Import ArtworkModel RelationshipModel GraphGenerator GeneratorSpec.
Import BreakerFacts GeneratorFacts GeneratorRunSpec.
#[local] Open Scope list_scope.

(** *** The breaker and the retries *)

Lemma retry_three_failures {St A} (f : nat -> St -> Result A * St) s s1 s2 s3
    e0 e1 e2 :
  f 0%nat s = (Raise e0, s1) -> f 1%nat s1 = (Raise e1, s2) ->
  f 2%nat s2 = (Raise e2, s3) ->
  retry (A := A) 3 f 0 s = (Raise RetryError, s3).
Proof. intros H0 H1 H2. simpl. by rewrite H0, H1, H2. Qed.

(** X18: once the decorator's count has reached the threshold, every
    request raises after three refused attempts and changes nothing: the
    cache is not read, so a graph that is cached is not served either, and
    as the count is left where it is this holds for every later request. *)
Theorem open_breaker_refuses_everything
    (get_art : UUID -> Result (option Artwork))
    (get_rel : UUID -> gmap string PyVal -> Result RelatedData)
    (layout : list UUID -> list (UUID * UUID) -> gmap string (Q * Q))
    (artwork_id : UUID) (depth : Z) (options : option (gmap string PyVal))
    (sched : nat -> list nat) (generation_time : Q) (failure_count : Z)
    (g : Generator) :
  CIRCUIT_BREAKER_THRESHOLD <= failure_count ->
  generate_artwork_graph get_art get_rel layout artwork_id depth options sched
    generation_time (failure_count, g)
  = (Raise RetryError, (failure_count, g)).
Proof.
  intros H. unfold generate_artwork_graph, MAX_RETRY_ATTEMPTS.
  apply retry_three_failures
    with (s1 := (failure_count, g)) (s2 := (failure_count, g))
         (e0 := PyException "Circuit breaker open - too many failures")
         (e1 := PyException "Circuit breaker open - too many failures")
         (e2 := PyException "Circuit breaker open - too many failures");
    by apply decorator_stays_open.
Qed.

Lemma open_breaker_refuses_everything_witness :
  generate_artwork_graph (GraphStore.get_artwork_node GraphStore.scenario)
    (GraphStore.get_node_relationships GraphStore.scenario) GraphStore.no_layout
    "U1" 1 None in_order 1%Q (5, fresh_generator)
  = (Raise RetryError, (5, fresh_generator)).
Proof.
  apply (open_breaker_refuses_everything
           (GraphStore.get_artwork_node GraphStore.scenario)
           (GraphStore.get_node_relationships GraphStore.scenario)
           GraphStore.no_layout "U1" 1 None in_order 1%Q 5 fresh_generator).
  vm_compute. discriminate.
Defined.

Lemma get_from_cache_eq key g :
  _get_from_cache key g =
    (if redis_up (cache g) then redis_data (cache g) !! key else None,
     log (CacheGet key) g).
Proof. unfold _get_from_cache. by destruct (redis_up (cache g)). Qed.

Lemma get_from_cache_same key g g' :
  cache g' = cache g ->
  (_get_from_cache key g').1 = (_get_from_cache key g).1.
Proof. intros H. rewrite !get_from_cache_eq. simpl. by rewrite H. Qed.

(** The generator after an attempt that found no artwork. *)
Lemma attempt_not_found get_art get_rel layout artwork_id depth options sched
    gt fc g :
  fc < CIRCUIT_BREAKER_THRESHOLD ->
  (_get_from_cache (cache_key artwork_id depth) g).1 = None ->
  get_art artwork_id = Ok None ->
  exists g',
    circuit_breaker
      (generate_body get_art get_rel layout artwork_id depth options sched gt)
      fc g
    = (Raise (ValueError ("Artwork not found: " ++ artwork_id)), (fc + 1, g')) /\
    cache g' = cache g /\
    failed_generations (metrics g') = failed_generations (metrics g) + 1.
Proof.
  intros Hfc Hmiss Hnone. unfold circuit_breaker.
  destruct (Z.leb_spec CIRCUIT_BREAKER_THRESHOLD fc); [lia|].
  unfold generate_body. rewrite get_from_cache_eq in *. simpl in Hmiss.
  rewrite Hmiss, Hnone. simpl. eexists. split; [reflexivity|done].
Qed.

(** X19: a request for an artwork the store does not have is tried three
    times, each attempt counting as a failure of the breaker, and ends in
    [RetryError], not in the 'Artwork not found' error.  Two such requests
    to a new generator bring the count to the threshold (the last attempt
    of the second is already refused), after which every request, for any
    artwork, raises without reaching the cache or the store. *)
Theorem missing_artworks_open_breaker
    (get_art : UUID -> Result (option Artwork))
    (get_rel : UUID -> gmap string PyVal -> Result RelatedData)
    (layout : list UUID -> list (UUID * UUID) -> gmap string (Q * Q))
    (id1 id2 : UUID) (d1 d2 : Z) (o1 o2 : option (gmap string PyVal))
    (sched : nat -> list nat) (generation_time : Q) (g : Generator) :
  get_art id1 = Ok None ->
  get_art id2 = Ok None ->
  (_get_from_cache (cache_key id1 d1) g).1 = None ->
  (_get_from_cache (cache_key id2 d2) g).1 = None ->
  let run1 :=
    generate_artwork_graph get_art get_rel layout id1 d1 o1 sched
      generation_time (0, g) in
  let run2 :=
    generate_artwork_graph get_art get_rel layout id2 d2 o2 sched
      generation_time run1.2 in
  run1.1 = Raise RetryError /\ run1.2.1 = 3 /\
  run2.1 = Raise RetryError /\ run2.2.1 = CIRCUIT_BREAKER_THRESHOLD /\
  failed_generations (metrics run2.2.2) = failed_generations (metrics g) + 5 /\
  cache run2.2.2 = cache g /\
  forall get_art' get_rel' layout' id d o s t,
    generate_artwork_graph get_art' get_rel' layout' id d o s t run2.2
    = (Raise RetryError, run2.2).
Proof.
  intros Hn1 Hn2 Hm1 Hm2.
  destruct (attempt_not_found get_art get_rel layout id1 d1 o1 sched
              generation_time 0 g) as (g1 & E1 & Hc1 & Hf1); [done..|].
  destruct (attempt_not_found get_art get_rel layout id1 d1 o1 sched
              generation_time 1 g1) as (g2 & E2 & Hc2 & Hf2);
    [done|by rewrite (get_from_cache_same _ g) by congruence|done|].
  destruct (attempt_not_found get_art get_rel layout id1 d1 o1 sched
              generation_time 2 g2) as (g3 & E3 & Hc3 & Hf3);
    [done|by rewrite (get_from_cache_same _ g) by congruence|done|].
  destruct (attempt_not_found get_art get_rel layout id2 d2 o2 sched
              generation_time 3 g3) as (g4 & E4 & Hc4 & Hf4);
    [done|by rewrite (get_from_cache_same _ g) by congruence|done|].
  destruct (attempt_not_found get_art get_rel layout id2 d2 o2 sched
              generation_time 4 g4) as (g5 & E5 & Hc5 & Hf5);
    [done|by rewrite (get_from_cache_same _ g) by congruence|done|].
  assert (R1 : generate_artwork_graph get_art get_rel layout id1 d1 o1 sched
                 generation_time (0, g) = (Raise RetryError, (3, g3))).
  { unfold generate_artwork_graph, MAX_RETRY_ATTEMPTS.
    eapply retry_three_failures; simpl; eassumption. }
  assert (R2 : generate_artwork_graph get_art get_rel layout id2 d2 o2 sched
                 generation_time (3, g3) = (Raise RetryError, (5, g5))).
  { unfold generate_artwork_graph, MAX_RETRY_ATTEMPTS.
    eapply retry_three_failures; simpl; [eassumption..|].
    by apply decorator_stays_open. }
  intros run1 run2. subst run1 run2. rewrite R1. simpl. rewrite R2. simpl.
  split; [done|]. split; [done|]. split; [done|]. split; [done|].
  split; [rewrite Hf5, Hf4, Hf3, Hf2, Hf1; lia|].
  split; [by rewrite Hc5, Hc4, Hc3, Hc2, Hc1|].
  intros. unfold generate_artwork_graph, MAX_RETRY_ATTEMPTS.
  eapply retry_three_failures; by apply decorator_stays_open.
Qed.

Lemma missing_artworks_open_breaker_witness :
  let run1 :=
    generate_artwork_graph (GraphStore.get_artwork_node GraphStore.scenario)
      (GraphStore.get_node_relationships GraphStore.scenario)
      GraphStore.no_layout "U8" 2 None in_order 1%Q (0, fresh_generator) in
  let run2 :=
    generate_artwork_graph (GraphStore.get_artwork_node GraphStore.scenario)
      (GraphStore.get_node_relationships GraphStore.scenario)
      GraphStore.no_layout "U9" 1 None in_order 1%Q run1.2 in
  run1.1 = Raise RetryError /\ run1.2.1 = 3 /\
  run2.1 = Raise RetryError /\ run2.2.1 = CIRCUIT_BREAKER_THRESHOLD /\
  failed_generations (metrics run2.2.2)
    = failed_generations (metrics fresh_generator) + 5 /\
  cache run2.2.2 = cache fresh_generator /\
  forall get_art' get_rel' layout' id d o s t,
    generate_artwork_graph get_art' get_rel' layout' id d o s t run2.2
    = (Raise RetryError, run2.2).
Proof.
  apply (missing_artworks_open_breaker
           (GraphStore.get_artwork_node GraphStore.scenario)
           (GraphStore.get_node_relationships GraphStore.scenario)
           GraphStore.no_layout "U8" "U9" 2 1 None None in_order 1%Q
           fresh_generator); reflexivity.
Defined.

(** *** Depth *)

(** X20: a request whose depth is zero or negative, for an artwork the
    store has and the cache does not, expands nothing: the graph is the
    root artwork alone (laid out), with no relationship; the store is asked
    for the root and for nothing else, and the graph is cached under the
    key of that depth. *)
Theorem nonpositive_depth_returns_root
    (get_art : UUID -> Result (option Artwork))
    (get_rel : UUID -> gmap string PyVal -> Result RelatedData)
    (layout : list UUID -> list (UUID * UUID) -> gmap string (Q * Q))
    (artwork_id : UUID) (depth : Z) (options : option (gmap string PyVal))
    (sched : nat -> list nat) (generation_time : Q) (g : Generator)
    (artwork : Artwork) :
  depth <= 0 ->
  (_get_from_cache (cache_key artwork_id depth) g).1 = None ->
  get_art artwork_id = Ok (Some artwork) ->
  let out := generate_body get_art get_rel layout artwork_id depth options
               sched generation_time g in
  out.1 = Ok (_optimize_graph layout (mkGraph [Art artwork] [])) /\
  trace out.2 =
    trace g ++ [CacheGet (cache_key artwork_id depth);
                GetArtworkNode artwork_id;
                CacheSetex (cache_key artwork_id depth) GRAPH_CACHE_TTL].
Proof.
  intros Hd Hmiss Hart out. subst out.
  unfold generate_body. rewrite get_from_cache_eq in *. simpl in Hmiss.
  rewrite Hmiss, Hart. unfold _generate_graph_parallel.
  rewrite Z2Nat.nonpos by exact Hd. simpl.
  split; [reflexivity|].
  unfold _cache_graph. simpl.
  destruct (redis_up (cache g)); simpl; by rewrite <- !app_assoc.
Qed.

Lemma nonpositive_depth_returns_root_witness :
  let out :=
    generate_body (GraphStore.get_artwork_node GraphStore.scenario)
      (GraphStore.get_node_relationships GraphStore.scenario)
      GraphStore.no_layout "U1" (-3) None in_order 1%Q fresh_generator in
  out.1 = Ok (_optimize_graph GraphStore.no_layout
                (mkGraph [Art (GraphStore.artwork_root "U1" "A")] [])) /\
  trace out.2 =
    trace fresh_generator ++ [CacheGet (cache_key "U1" (-3));
                              GetArtworkNode "U1";
                              CacheSetex (cache_key "U1" (-3)) GRAPH_CACHE_TTL].
Proof.
  apply (nonpositive_depth_returns_root
           (GraphStore.get_artwork_node GraphStore.scenario)
           (GraphStore.get_node_relationships GraphStore.scenario)
           GraphStore.no_layout "U1" (-3) None in_order 1%Q fresh_generator
           (GraphStore.artwork_root "U1" "A")); [lia|reflexivity|reflexivity].
Defined.

Lemma dict_add_prefix d n : d `prefix_of` dict_add d n.
Proof.
  unfold dict_add. case_bool_decide; [done|]. by apply prefix_app_r.
Qed.

Lemma set_add_subseteq s r : s ⊆ set_add s r.
Proof.
  unfold set_add. case_bool_decide; [done|].
  intros x Hx. apply elem_of_app. by left.
Qed.

Lemma foldl_dict_add_prefix ns d : d `prefix_of` foldl dict_add d ns.
Proof.
  revert d. induction ns as [|n ns IH]; intros d; simpl; [done|].
  etransitivity; [apply dict_add_prefix|apply IH].
Qed.

Lemma foldl_set_add_subseteq rs s : s ⊆ foldl set_add s rs.
Proof.
  revert s. induction rs as [|r rs IH]; intros s; simpl; [done|].
  etransitivity; [apply set_add_subseteq|apply IH].
Qed.

Lemma expand_levels_extends get_rel options n level sched acc :
  extends acc (expand_levels get_rel n level sched options acc).2.
Proof.
  destruct (expand_levels_inv get_rel options (fun _ => extends acc) sched)
    with (n := n) (level := level) (acc := acc) as (j & _ & Hj);
    [|by split|done].
  intros l a Ha. apply process_ids_inv; [by intros a' e| |done].
  intros id rd a' _ _ [Hn Hr]. split; simpl.
  - etransitivity; [exact Hn|apply foldl_dict_add_prefix].
  - etransitivity; [exact Hr|apply foldl_set_add_subseteq].
Qed.

Lemma expand_levels_deeper get_rel options sched n :
  forall m level acc acc1,
    (n <= m)%nat ->
    expand_levels get_rel n level sched options acc = (Ok (), acc1) ->
    extends acc1 (expand_levels get_rel m level sched options acc).2.
Proof.
  induction n as [|n IH]; intros m level acc acc1 Hle Hrun.
  - injection Hrun as <-. apply expand_levels_extends.
  - destruct m as [|m]; [lia|]. simpl in *.
    destruct (process_ids get_rel _ options acc) as [[[]|e] acc'];
      [|discriminate].
    destruct (Z.ltb _ _).
    + injection Hrun as <-. by split.
    + apply IH; [lia|done].
Qed.

(** X21: asking for more depth never loses anything.  With the same
    store answers and the same order of arrival, the nodes of the graph
    built for a depth are an initial segment of the nodes built for any
    greater depth and its relationships are all among the relationships
    built for the greater depth (when that run returns too); the first node
    of every graph is the root artwork. *)
Theorem deeper_graph_extends
    (get_rel : UUID -> gmap string PyVal -> Result RelatedData)
    (artwork : Artwork) (d1 d2 : Z) (options : gmap string PyVal)
    (sched : nat -> list nat) (tr : list Event) (g1 : GraphData) :
  d1 <= d2 ->
  (_generate_graph_parallel get_rel artwork d1 options sched tr).1 = Ok g1 ->
  head (nodes g1) = Some (Art artwork) /\
  match (_generate_graph_parallel get_rel artwork d2 options sched tr).1 with
  | Ok g2 =>
      nodes g1 `prefix_of` nodes g2 /\
      forall r, r ∈ relationships g1 -> r ∈ relationships g2
  | Raise _ => True
  end.
Proof.
  intros Hle. unfold _generate_graph_parallel.
  set (acc0 := mkAcc [(NodeModel.uuid (node artwork), Art artwork)] [] tr).
  pose proof (expand_levels_extends get_rel options (Z.to_nat d1) 0 sched acc0)
    as [Hroot _].
  pose proof (expand_levels_deeper get_rel options sched (Z.to_nat d1)
                (Z.to_nat d2) 0%nat acc0) as Hdeep.
  destruct (expand_levels get_rel (Z.to_nat d1) _ _ _ _) as [[[]|e] acc1];
    [|discriminate].
  simpl. intros [= <-]. simpl. split.
  - simpl in Hroot. destruct Hroot as [k Hk]. by rewrite Hk.
  - specialize (Hdeep acc1 ltac:(lia) eq_refl).
    destruct (expand_levels get_rel (Z.to_nat d2) _ _ _ _) as [[[]|e] acc2];
      [|done].
    simpl in *. destruct Hdeep as [[k1 ->] Hsub].
    split; [rewrite fmap_app; by apply prefix_app_r|exact Hsub].
Qed.

Lemma deeper_graph_extends_witness :
  head (nodes (mkGraph [Art (GraphStore.artwork_root "U1" "A");
                        GraphStore.plain_node "U2" "ARTIST";
                        GraphStore.plain_node "U3" "MOVEMENT"]
                       [GraphStore.edge "R1" "CREATED_BY" "U1" "U2";
                        GraphStore.edge "R2" "BELONGS_TO" "U1" "U3"]))
    = Some (Art (GraphStore.artwork_root "U1" "A")) /\
  match (_generate_graph_parallel
           (GraphStore.get_node_relationships GraphStore.scenario)
           (GraphStore.artwork_root "U1" "A") 2 ∅ in_order []).1 with
  | Ok g2 =>
      nodes (mkGraph [Art (GraphStore.artwork_root "U1" "A");
                      GraphStore.plain_node "U2" "ARTIST";
                      GraphStore.plain_node "U3" "MOVEMENT"]
                     [GraphStore.edge "R1" "CREATED_BY" "U1" "U2";
                      GraphStore.edge "R2" "BELONGS_TO" "U1" "U3"])
        `prefix_of` nodes g2 /\
      forall r,
        r ∈ relationships
              (mkGraph [Art (GraphStore.artwork_root "U1" "A");
                        GraphStore.plain_node "U2" "ARTIST";
                        GraphStore.plain_node "U3" "MOVEMENT"]
                       [GraphStore.edge "R1" "CREATED_BY" "U1" "U2";
                        GraphStore.edge "R2" "BELONGS_TO" "U1" "U3"]) ->
        r ∈ relationships g2
  | Raise _ => True
  end.
Proof.
  apply (deeper_graph_extends
           (GraphStore.get_node_relationships GraphStore.scenario)
           (GraphStore.artwork_root "U1" "A") 1 2 ∅ in_order []);
    [lia|vm_compute; reflexivity].
Defined.

(** *** Store queries of a level *)

Lemma process_ids_trace get_rel options ids :
  forall acc acc',
    process_ids get_rel ids options acc = (Ok (), acc') ->
    acc_trace acc' = acc_trace acc ++ (GetNodeRelationships <$> ids).
Proof.
  induction ids as [|id ids IH]; intros acc acc' H; simpl in *.
  - injection H as <-. by rewrite app_nil_r.
  - destruct (get_rel id options) as [rd|e]; [|discriminate].
    apply IH in H. rewrite H. simpl. by rewrite <- app_assoc.
Qed.

(** X22: one level of the expansion asks the store about every node
    collected so far, each exactly once, in an order that depends on how
    the batches' answers arrive; nodes already asked about at earlier
    levels, the root included, are asked about again. *)
Theorem level_queries_every_node
    (get_rel : UUID -> gmap string PyVal -> Result RelatedData)
    (options : gmap string PyVal) (sched : nat -> list nat) (level : nat)
    (acc acc' : Acc) :
  expand_levels get_rel 1 level sched options acc = (Ok (), acc') ->
  exists ids,
    Permutation ids (acc_nodes acc).*1 /\
    acc_trace acc' = acc_trace acc ++ (GetNodeRelationships <$> ids).
Proof.
  simpl. intros H.
  exists (gather_order (sched level)
            (chunked DEFAULT_BATCH_SIZE (acc_nodes acc).*1)).
  split; [apply level_order_perm|].
  destruct (process_ids get_rel _ options acc) as [[[]|e] acc1] eqn:E;
    [|discriminate].
  apply process_ids_trace in E.
  destruct (Z.ltb _ _); by injection H as <-.
Qed.

Lemma level_queries_every_node_witness :
  exists ids,
    Permutation ids
      (acc_nodes (mkAcc [("U1", Art (GraphStore.artwork_root "U1" "A"));
                         ("U2", GraphStore.plain_node "U2" "ARTIST")] [] [])).*1 /\
    acc_trace
      (expand_levels (GraphStore.get_node_relationships GraphStore.scenario)
         1 1 in_order ∅
         (mkAcc [("U1", Art (GraphStore.artwork_root "U1" "A"));
                 ("U2", GraphStore.plain_node "U2" "ARTIST")] [] [])).2
    = acc_trace (mkAcc [("U1", Art (GraphStore.artwork_root "U1" "A"));
                        ("U2", GraphStore.plain_node "U2" "ARTIST")] [] [])
      ++ (GetNodeRelationships <$> ids).
Proof.
  apply (level_queries_every_node
           (GraphStore.get_node_relationships GraphStore.scenario) ∅ in_order 1
           (mkAcc [("U1", Art (GraphStore.artwork_root "U1" "A"));
                   ("U2", GraphStore.plain_node "U2" "ARTIST")] [] [])).
  vm_compute. reflexivity.
Defined.

(** *** Metrics and the cache *)

Lemma update_metrics_sum t m :
  0 <= graph_generations m ->
  graph_generations (_update_metrics t m) = graph_generations m + 1 /\
  (average_generation_time (_update_metrics t m)
   * inject_Z (graph_generations (_update_metrics t m))
   == average_generation_time m * inject_Z (graph_generations m) + t)%Q.
Proof.
  intros Hn. unfold _update_metrics. simpl. split; [reflexivity|].
  replace (graph_generations m + 1 - 1) with (graph_generations m) by lia.
  rewrite Qmult_comm. apply Qmult_div_r.
  intros H. unfold Qeq, inject_Z in H. simpl in H. lia.
Qed.

Lemma record_times_sum times :
  forall m,
    0 <= graph_generations m ->
    graph_generations (record_times times m)
      = graph_generations m + Z.of_nat (length times) /\
    (average_generation_time (record_times times m)
     * inject_Z (graph_generations (record_times times m))
     == average_generation_time m * inject_Z (graph_generations m)
        + foldr Qplus 0 times)%Q.
Proof.
  induction times as [|t times IH]; intros m Hn; simpl.
  - split; [lia|]. ring.
  - destruct (update_metrics_sum t m Hn) as [Hg Hs].
    destruct (IH (_update_metrics t m)) as [Hg' Hs']; [lia|].
    fold (record_times times (_update_metrics t m)).
    split; [lia|]. rewrite Hs', Hs. ring.
Qed.

(** X23: in exact arithmetic, the average generation time the metrics
    hold after any number of successful generations of a new generator is
    the arithmetic mean of their generation times: the average times the
    number of generations is the sum of the times. *)
Theorem average_is_mean (cache : Redis) (config : gmap string PyVal)
    (times : list Q) :
  graph_generations (record_times times (metrics (init cache config)))
    = Z.of_nat (length times) /\
  (average_generation_time (record_times times (metrics (init cache config)))
   * inject_Z (Z.of_nat (length times))
   == foldr Qplus 0 times)%Q.
Proof.
  destruct (record_times_sum times (metrics (init cache config))) as [Hg Hs];
    [done|].
  change (graph_generations (metrics (init cache config))) with 0 in Hg, Hs.
  change (average_generation_time (metrics (init cache config))) with 0%Q in Hs.
  rewrite Z.add_0_l in Hg. split; [exact Hg|].
  rewrite Hg in Hs. rewrite Hs. ring.
Qed.

(** X24: every run of the body of [generate_artwork_graph] is counted
    exactly once: no counter goes down, one is added to the cache hits or
    to the cache misses, and one to the hits, to the generations or to the
    failed generations; and a run that raises leaves the cache as it was
    and counts as a failed generation. *)
Theorem every_run_is_counted_once
    (get_art : UUID -> Result (option Artwork))
    (get_rel : UUID -> gmap string PyVal -> Result RelatedData)
    (layout : list UUID -> list (UUID * UUID) -> gmap string (Q * Q))
    (artwork_id : UUID) (depth : Z) (options : option (gmap string PyVal))
    (sched : nat -> list nat) (generation_time : Q) (g : Generator) :
  let out := generate_body get_art get_rel layout artwork_id depth options
               sched generation_time g in
  (cache_hits (metrics g) <= cache_hits (metrics out.2) /\
   cache_misses (metrics g) <= cache_misses (metrics out.2) /\
   graph_generations (metrics g) <= graph_generations (metrics out.2) /\
   failed_generations (metrics g) <= failed_generations (metrics out.2)) /\
  cache_hits (metrics out.2) + cache_misses (metrics out.2)
    = cache_hits (metrics g) + cache_misses (metrics g) + 1 /\
  cache_hits (metrics out.2) + graph_generations (metrics out.2)
    + failed_generations (metrics out.2)
    = cache_hits (metrics g) + graph_generations (metrics g)
      + failed_generations (metrics g) + 1 /\
  (is_ok out.1 = false ->
     cache out.2 = cache g /\
     failed_generations (metrics out.2) = failed_generations (metrics g) + 1).
Proof.
  intros out. subst out. unfold generate_body.
  rewrite get_from_cache_eq.
  destruct (if redis_up (cache g) then _ else _) as [cached|]; simpl.
  - split; [lia|]. split; [lia|]. split; [lia|discriminate].
  - destruct (get_art artwork_id) as [[artwork|]|e]; simpl;
      try (split; [lia|]; split; [lia|]; split; [lia|done]).
    destruct (_generate_graph_parallel _ _ _ _ _ _) as [[gd|e] tr]; simpl.
    + unfold _cache_graph. simpl.
      destruct (redis_up (cache g)); simpl;
        (split; [lia|]; split; [lia|]; split; [lia|discriminate]).
    + split; [lia|]. split; [lia|]. split; [lia|done].
Qed.

(** X25: the cache key is made of the artwork id and the depth alone.
    After a run of the body has returned a graph with the cache up, the
    next run for the same id and depth returns that same graph from the
    cache, whatever options it is given and whatever the store now holds:
    it makes one cache read and no store call, and counts a hit. *)
Theorem second_request_served_from_cache
    (get_art : UUID -> Result (option Artwork))
    (get_rel : UUID -> gmap string PyVal -> Result RelatedData)
    (layout : list UUID -> list (UUID * UUID) -> gmap string (Q * Q))
    (artwork_id : UUID) (depth : Z) (options : option (gmap string PyVal))
    (sched : nat -> list nat) (generation_time : Q) (g g1 : Generator)
    (graph : GraphData)
    (get_art' : UUID -> Result (option Artwork))
    (get_rel' : UUID -> gmap string PyVal -> Result RelatedData)
    (layout' : list UUID -> list (UUID * UUID) -> gmap string (Q * Q))
    (options' : option (gmap string PyVal)) (sched' : nat -> list nat)
    (generation_time' : Q) :
  redis_up (cache g) = true ->
  generate_body get_art get_rel layout artwork_id depth options sched
    generation_time g = (Ok graph, g1) ->
  let out := generate_body get_art' get_rel' layout' artwork_id depth options'
               sched' generation_time' g1 in
  out.1 = Ok graph /\
  trace out.2 = trace g1 ++ [CacheGet (cache_key artwork_id depth)] /\
  cache out.2 = cache g1 /\
  cache_hits (metrics out.2) = cache_hits (metrics g1) + 1.
Proof.
  intros Hup Hrun.
  assert (Hheld : redis_up (cache g1) = true /\
                  redis_data (cache g1) !! cache_key artwork_id depth
                    = Some graph).
  { unfold generate_body in Hrun. rewrite get_from_cache_eq, Hup in Hrun.
    destruct (redis_data (cache g) !! cache_key artwork_id depth)
      as [cached|] eqn:Hc.
    - injection Hrun as <- <-. by simpl.
    - destruct (get_art artwork_id) as [[artwork|]|e]; try discriminate.
      destruct (_generate_graph_parallel _ _ _ _ _ _) as [[gd|e] tr];
        [|discriminate].
      unfold _cache_graph in Hrun. simpl in Hrun. rewrite Hup in Hrun.
      injection Hrun as <- <-. simpl. by rewrite lookup_insert_eq. }
  destruct Hheld as [Hup1 Hheld].
  intros out. subst out. unfold generate_body.
  rewrite get_from_cache_eq, Hup1, Hheld. simpl. auto.
Qed.

Lemma second_request_served_from_cache_witness :
  let first :=
    generate_body (GraphStore.get_artwork_node GraphStore.scenario)
      (GraphStore.get_node_relationships GraphStore.scenario)
      GraphStore.no_layout "U1" 1 None in_order 1%Q fresh_generator in
  let out :=
    generate_body (GraphStore.get_artwork_node (GraphStore.star 2))
      (GraphStore.get_node_relationships (GraphStore.star 2))
      GraphStore.no_layout "U1" 1 (Some {[ "types" := PStr "ARTIST" ]})
      in_order 2%Q first.2 in
  out.1 = Ok (mkGraph (GraphStore.store_nodes GraphStore.scenario)
                      (GraphStore.store_relationships GraphStore.scenario)) /\
  trace out.2 = trace first.2 ++ [CacheGet (cache_key "U1" 1)] /\
  cache out.2 = cache first.2 /\
  cache_hits (metrics out.2) = cache_hits (metrics first.2) + 1.
Proof.
  apply (second_request_served_from_cache
           (GraphStore.get_artwork_node GraphStore.scenario)
           (GraphStore.get_node_relationships GraphStore.scenario)
           GraphStore.no_layout "U1" 1 None in_order 1%Q fresh_generator
           (generate_body (GraphStore.get_artwork_node GraphStore.scenario)
              (GraphStore.get_node_relationships GraphStore.scenario)
              GraphStore.no_layout "U1" 1 None in_order 1%Q fresh_generator).2
           (mkGraph (GraphStore.store_nodes GraphStore.scenario)
                    (GraphStore.store_relationships GraphStore.scenario))
           (GraphStore.get_artwork_node (GraphStore.star 2))
           (GraphStore.get_node_relationships (GraphStore.star 2))
           GraphStore.no_layout (Some {[ "types" := PStr "ARTIST" ]})
           in_order 2%Q); [reflexivity|].
  vm_compute. reflexivity.
Defined.

End GeneratorRuns.

(** ** Relationship updates *)

Module RelationshipUpdateFacts.
Import RelationshipModel RelationshipOps RelationshipUpdate.

(** X27: [Relationship.update].  Called with a version other than the
    object's it raises before validating or writing and changes nothing;
    whenever it raises the object is as before; and when it returns, the
    version is the old one plus 1, the audit trail is one entry longer,
    every property the relationship had is still there, and a relationship
    that held the properties its type requires still holds them. *)
Theorem relationship_update_keeps_required (clean : string -> string)
    (self : Relationship) (outcome : Result unit) (props : gmap string PyVal)
    (v now : Z) :
  let '(res, self') := update clean self outcome props v now in
  (v <> version self ->
     res = Raise (ValueError "Concurrent modification detected")) /\
  (is_ok res = false -> self' = self) /\
  (is_ok res = true ->
     version self' = version self + 1 /\
     length (audit_trail self') = S (length (audit_trail self)) /\
     (forall k, is_Some (properties self !! k) ->
                is_Some (properties self' !! k)) /\
     (missing_properties (type self) (properties self) = [] ->
      missing_properties (type self') (properties self') = [])).
Proof.
  unfold update. case_bool_decide as Hv.
  - destruct (validate_properties clean (type self) props) as [upd|e];
      [|simpl; split; [done|split; [done|discriminate]]].
    destruct outcome as [[]|e];
      [|simpl; split; [done|split; [done|discriminate]]].
    simpl. split; [done|]. split; [discriminate|]. intros _.
    split; [done|]. split; [rewrite length_app; simpl; lia|].
    assert (Hkeep : forall k, is_Some (properties self !! k) ->
                              is_Some ((upd ∪ properties self) !! k)).
    { intros k [x Hx]. destruct (upd !! k) as [y|] eqn:Hy.
      - exists y. by apply lookup_union_Some_l.
      - exists x. rewrite lookup_union_r; done. }
    split; [exact Hkeep|].
    unfold missing_properties. rewrite !NodeFacts.filter_nil_iff.
    intros Hreq p Hp. specialize (Hreq p Hp).
    apply bool_decide_eq_false in Hreq. apply bool_decide_eq_false.
    intros Hnone.
    destruct (Hkeep p) as [x Hx]; [|congruence].
    by destruct (properties self !! p); [eexists|].
  - simpl. split; [done|]. split; [done|discriminate].
Qed.

End RelationshipUpdateFacts.

(** ** Graph metrics *)

Module GraphMetricsFacts.
Import ArtworkModel GraphMetrics GraphMetricsSpec.

Lemma dict_get_set k k' v d :
  dict_get k (dict_set k' v d) =
    if String.eqb k k' then Some v else dict_get k d.
Proof.
  induction d as [|[k0 v0] d IH]; simpl; [done|].
  destruct (String.eqb_spec k' k0) as [->|Hne]; simpl.
  - by destruct (String.eqb k k0).
  - destruct (String.eqb_spec k k0) as [->|Hne'].
    + destruct (String.eqb_spec k0 k'); [congruence|done].
    + exact IH.
Qed.

Lemma paired_other name metrics :
  forall results d,
    name ∉ metrics ->
    dict_get name
      (fold_left (fun d kv => dict_set kv.1 kv.2 d) (zip metrics results) d)
    = dict_get name d.
Proof.
  induction metrics as [|m ms IH]; intros [|v vs] d Hnot; simpl; try done.
  rewrite IH by (intros H; apply Hnot; by right).
  rewrite dict_get_set.
  destruct (String.eqb_spec name m) as [->|]; [|done].
  exfalso. apply Hnot. left.
Qed.

Lemma paired_lookup metrics :
  forall results d (i : nat) name,
    NoDup metrics -> metrics !! i = Some name ->
    dict_get name
      (fold_left (fun d kv => dict_set kv.1 kv.2 d) (zip metrics results) d)
    = match results !! i with
      | Some v => Some v
      | None => dict_get name d
      end.
Proof.
  induction metrics as [|m ms IH]; intros results d i name Hnd Hi;
    [done|].
  apply NoDup_cons in Hnd as [Hm Hnd].
  destruct results as [|v vs]; simpl; [by destruct i|].
  destruct i as [|i]; simpl in *.
  - injection Hi as <-. rewrite paired_other by done.
    by rewrite dict_get_set, String.eqb_refl.
  - rewrite (IH vs _ i name Hnd Hi).
    destruct (vs !! i); [done|]. rewrite dict_get_set.
    destruct (String.eqb_spec name m) as [->|]; [|done].
    exfalso. apply Hm. by apply list_elem_of_lookup_2 in Hi.
Qed.

Lemma gather_values first values :
  gather first (Ok <$> values) = Ok values.
Proof.
  unfold gather.
  assert (He : omap exception_of (Ok <$> values) = []).
  { induction values as [|v vs IH]; simpl; [done|exact IH]. }
  assert (Hv : omap value_of (Ok <$> values) = values).
  { clear He. induction values as [|v vs IH]; simpl; [done|].
    f_equal. exact IH. }
  by rewrite He, Hv.
Qed.

Lemma gather_raises first outcomes e :
  Raise e ∈ outcomes -> is_ok (gather first outcomes) = false.
Proof.
  intros He. unfold gather.
  assert (Hin : e ∈ omap exception_of outcomes).
  { apply list_elem_of_omap. by exists (Raise e). }
  destruct (omap exception_of outcomes); [by apply elem_of_nil in Hin|done].
Qed.

(** X28: [calculate_graph_metrics] pairs names with values by position.
    The routines run in the fixed order density, diameter, average
    clustering (those requested), and the [i]-th name of the caller's list
    is given the [i]-th value.  For a requested list without repeats and a
    non-zero node count, and for the [i]-th requested name when it is none
    of 'node_count', 'edge_count', 'average_degree': when every requested
    routine returns, the call returns a dict that holds under that name the
    [i]-th computed value (no entry when fewer values were computed) and
    the two counts under 'node_count' and 'edge_count', whatever was
    requested under those names; when a requested routine raises, the call
    raises.  A list in another order than the fixed one gets its values
    under the wrong names. *)
Theorem metrics_paired_by_position (metrics : option (list string))
    (node_count edge_count : Z)
    (density diameter average_clustering : Result PyVal) (first i : nat)
    (name : string) :
  NoDup (requested metrics) ->
  requested metrics !! i = Some name ->
  name ∉ ["node_count"; "edge_count"; "average_degree"] ->
  node_count <> 0 ->
  (forall values,
     submitted (requested metrics) density diameter average_clustering
       = Ok <$> values ->
     exists result,
       calculate_graph_metrics metrics node_count edge_count density diameter
         average_clustering first = Ok result /\
       dict_get name result = values !! i /\
       dict_get "node_count" result = Some (PInt node_count) /\
       dict_get "edge_count" result = Some (PInt edge_count)) /\
  (forall e,
     Raise e ∈ submitted (requested metrics) density diameter
                 average_clustering ->
     is_ok (calculate_graph_metrics metrics node_count edge_count density
              diameter average_clustering first) = false).
Proof.
  intros Hnd Hi Hname Hn. unfold calculate_graph_metrics. split.
  - intros values Hvalues. rewrite Hvalues, gather_values.
    cbn [mbind Result_bind].
    destruct (Z.eqb_spec node_count 0); [done|].
    eexists. split; [reflexivity|].
    unfold dict_merge. simpl. rewrite !dict_get_set.
    assert (Hne : forall s, s ∈ ["node_count"; "edge_count"; "average_degree"] ->
                            String.eqb name s = false).
    { intros s Hs. destruct (String.eqb_spec name s) as [->|]; [|done].
      by exfalso. }
    rewrite !Hne by (repeat constructor).
    split; [|by split].
    unfold paired. rewrite (paired_lookup _ _ _ i name Hnd Hi).
    by destruct (values !! i).
  - intros e He. pose proof (gather_raises first _ e He) as Hg.
    destruct (gather first _); [discriminate|reflexivity].
Qed.

Lemma metrics_paired_by_position_witness :
  (forall values,
     submitted (requested (Some ["diameter"; "density"]))
       (Ok (PFloat (1 # 2))) (Ok (PInt 2)) (Ok (PFloat (1 # 3)))
       = Ok <$> values ->
     exists result,
       calculate_graph_metrics (Some ["diameter"; "density"]) 4 3
         (Ok (PFloat (1 # 2))) (Ok (PInt 2)) (Ok (PFloat (1 # 3))) 0
         = Ok result /\
       dict_get "diameter" result = values !! 0%nat /\
       dict_get "node_count" result = Some (PInt 4) /\
       dict_get "edge_count" result = Some (PInt 3)) /\
  (forall e,
     Raise e ∈ submitted (requested (Some ["diameter"; "density"]))
                 (Ok (PFloat (1 # 2))) (Ok (PInt 2)) (Ok (PFloat (1 # 3))) ->
     is_ok (calculate_graph_metrics (Some ["diameter"; "density"]) 4 3
              (Ok (PFloat (1 # 2))) (Ok (PInt 2)) (Ok (PFloat (1 # 3))) 0)
       = false).
Proof.
  apply (metrics_paired_by_position (Some ["diameter"; "density"]) 4 3
           (Ok (PFloat (1 # 2))) (Ok (PInt 2)) (Ok (PFloat (1 # 3))) 0 0
           "diameter").
  - apply (bool_decide_unpack _). vm_compute. exact I.
  - reflexivity.
  - apply (bool_decide_unpack _). vm_compute. exact I.
  - discriminate.
Defined.

(** The same request, spelled out: the density is filed under
    'diameter' and the diameter under 'density'. *)
Example swapped_metric_names :
  calculate_graph_metrics (Some ["diameter"; "density"]) 4 3
    (Ok (PFloat (1 # 2))) (Ok (PInt 2)) (Ok (PFloat (1 # 3))) 0
  = Ok [("diameter", PFloat (1 # 2)); ("density", PInt 2);
        ("node_count", PInt 4); ("edge_count", PInt 3);
        ("average_degree", PFloat (6 # 4))].
Proof. reflexivity. Qed.

(** A statistic's name in the request is overwritten by the statistic: the
    density computed for the first name is lost. *)
Example statistic_name_requested :
  calculate_graph_metrics (Some ["node_count"; "density"]) 4 3
    (Ok (PFloat (1 # 2))) (Ok (PInt 2)) (Ok (PFloat (1 # 3))) 0
  = Ok [("node_count", PInt 4); ("edge_count", PInt 3);
        ("average_degree", PFloat (6 # 4))].
Proof. reflexivity. Qed.

(** On a graph that is not connected [nx.diameter] raises, and so does the
    call, whatever the other routines return. *)
Example disconnected_graph_raises :
  calculate_graph_metrics None 4 2
    (Ok (PFloat (1 # 3)))
    (Raise (PyException "Found infinite path length because the graph is not connected"))
    (Ok (PFloat (0 # 1))) 0
  = Raise (PyException "Found infinite path length because the graph is not connected").
Proof. reflexivity. Qed.

End GraphMetricsFacts.

(** ** The rate limiter *)

Module RateLimitFacts.
Import RateLimit RateLimitSpec.
#[local] Open Scope list_scope.

Lemma recent_app w l1 l2 : recent w (l1 ++ l2) = recent w l1 ++ recent w l2.
Proof. unfold recent. apply List.filter_app. Qed.

Lemma recent_elem w l t : t ∈ recent w l <-> t ∈ l /\ w < t.
Proof.
  unfold recent. rewrite !list_elem_of_In, filter_In.
  by rewrite Z.ltb_lt.
Qed.

Lemma recent_recent w w' l : w <= w' -> recent w' (recent w l) = recent w' l.
Proof.
  intros Hle. induction l as [|t l IH]; simpl; [done|].
  destruct (Z.ltb_spec w t) as [Hw|Hw]; simpl.
  - by rewrite IH.
  - destruct (Z.ltb_spec w' t); [lia|done].
Qed.

Lemma recent_old w l : (forall t, t ∈ l -> t <= w) -> recent w l = [].
Proof.
  intros H. induction l as [|t l IH]; simpl; [done|].
  destruct (Z.ltb_spec w t) as [Hw|Hw].
  - specialize (H t ltac:(left)). lia.
  - apply IH. intros t' Ht'. apply H. by right.
Qed.

Lemma times_app id l1 l2 : times id (l1 ++ l2) = times id l1 ++ times id l2.
Proof. unfold times. by rewrite List.filter_app, fmap_app. Qed.

(** The clean-up drops only lists that have nothing left in the window. *)
Lemma cleaned_recent clock rl adm now id w' :
  consistent clock rl adm ->
  now - RATE_LIMIT_WINDOW <= w' ->
  recent w'
    (default []
       (filter (fun kv : string * list Z =>
                  last_after (now - RATE_LIMIT_WINDOW) kv.2 = true) rl !! id))
  = recent w' (default [] (rl !! id)).
Proof.
  intros [Hne _] Hw.
  destruct (rl !! id) as [ts|] eqn:Hts.
  - destruct (last_after (now - RATE_LIMIT_WINDOW) ts) eqn:Hlast.
    + assert (H : filter (fun kv : string * list Z =>
                         last_after (now - RATE_LIMIT_WINDOW) kv.2 = true) rl
                  !! id = Some ts) by (by apply map_lookup_filter_Some).
      by rewrite H.
    + assert (H : filter (fun kv : string * list Z =>
                         last_after (now - RATE_LIMIT_WINDOW) kv.2 = true) rl
                  !! id = None).
      { apply map_lookup_filter_None. right. intros x Hx. simpl.
        rewrite Hts in Hx. injection Hx as <-. by rewrite Hlast. }
      rewrite H. simpl. symmetry. apply recent_old.
      intros t Ht. destruct (Hne id ts Hts) as [_ Hall].
      destruct (Hall t Ht) as (_ & l & Hl & Htl).
      unfold last_after in Hlast. rewrite Hl in Hlast.
      apply Z.ltb_ge in Hlast. lia.
  - assert (H : filter (fun kv : string * list Z =>
                       last_after (now - RATE_LIMIT_WINDOW) kv.2 = true) rl
                !! id = None).
    { apply map_lookup_filter_None. by left. }
    by rewrite H.
Qed.

Lemma cleaned_lists clock rl adm now id ts :
  consistent clock rl adm -> clock <= now ->
  filter (fun kv : string * list Z =>
            last_after (now - RATE_LIMIT_WINDOW) kv.2 = true) rl !! id
  = Some ts ->
  ts <> [] /\
  forall t, t ∈ ts -> t <= now /\ exists l, last ts = Some l /\ t <= l.
Proof.
  intros [Hne _] Hle Hts. apply map_lookup_filter_Some in Hts as [Hts _].
  destruct (Hne id ts Hts) as [Hn Hall]. split; [done|].
  intros t Ht. destruct (Hall t Ht) as [Hc Hl]. split; [lia|done].
Qed.

(** One check: its answer, and what it leaves. *)
Lemma check_step clock rl adm id now :
  consistent clock rl adm -> clock <= now ->
  exists rl',
    _check_rate_limit id now rl
    = (Ok (bool_decide
             (admitted_in_window id now adm < RATE_LIMIT_MAX_REQUESTS)%nat),
       rl') /\
    consistent now rl'
      (if bool_decide
            (admitted_in_window id now adm < RATE_LIMIT_MAX_REQUESTS)%nat
       then adm ++ [(id, now)] else adm).
Proof.
  intros Hinv Hle. pose proof Hinv as [Hne Hcount].
  unfold _check_rate_limit.
  rewrite bool_decide_eq_true_2
    by (intros j ts Hts; by destruct (Hne j ts Hts)).
  set (w := now - RATE_LIMIT_WINDOW).
  set (cleaned := filter (fun kv : string * list Z => last_after w kv.2 = true)
                         rl).
  assert (Hlen : length (recent w (default [] (cleaned !! id)))
                 = admitted_in_window id now adm).
  { unfold admitted_in_window. fold w. subst cleaned w.
    rewrite (cleaned_recent clock rl adm now id _ Hinv) by lia.
    symmetry. apply Hcount. lia. }
  rewrite Hlen.
  assert (Hkept : forall j w', w <= w' ->
            length (recent w' (times j adm))
            = length (recent w' (default [] (cleaned !! j)))).
  { intros j w' Hw'. subst cleaned w.
    rewrite (cleaned_recent clock rl adm now j _ Hinv) by lia.
    apply Hcount. lia. }
  case_bool_decide as Hroom.
  - destruct (Nat.leb_spec RATE_LIMIT_MAX_REQUESTS
                (admitted_in_window id now adm)); [lia|].
    eexists. split; [reflexivity|]. split.
    + intros j ts Hts. destruct (decide (j = id)) as [->|Hj].
      * rewrite lookup_insert_eq in Hts. injection Hts as <-.
        split; [by destruct (recent w _)|].
        intros t Ht. rewrite last_snoc.
        apply elem_of_app in Ht as [Ht|Ht].
        -- apply recent_elem in Ht as [Ht _].
           destruct (cleaned !! id) as [ts|] eqn:Hc;
             [|by apply elem_of_nil in Ht].
           destruct (cleaned_lists clock rl adm now id ts Hinv Hle Hc)
             as [_ Hall].
           destruct (Hall t Ht) as [Hn _]. eauto.
        -- apply list_elem_of_singleton in Ht as ->. eauto with lia.
      * rewrite lookup_insert_ne in Hts by done.
        by apply (cleaned_lists clock rl adm now j ts Hinv Hle).
    + intros j w' Hw'. rewrite times_app, recent_app, length_app.
      destruct (decide (j = id)) as [->|Hj].
      * rewrite lookup_insert_eq. simpl.
        rewrite recent_app, length_app, recent_recent by (subst w; lia).
        rewrite <- Hkept by (subst w; lia).
        unfold times. simpl. rewrite bool_decide_eq_true_2 by done. done.
      * rewrite lookup_insert_ne by done.
        rewrite <- Hkept by (subst w; lia).
        unfold times. simpl. rewrite bool_decide_eq_false_2 by done.
        simpl. lia.
  - destruct (Nat.leb_spec RATE_LIMIT_MAX_REQUESTS
                (admitted_in_window id now adm)); [|lia].
    eexists. split; [reflexivity|]. split.
    + intros j ts Hts.
      by apply (cleaned_lists clock rl adm now j ts Hinv Hle).
    + intros j w' Hw'. apply Hkept. subst w. lia.
Qed.

Lemma serve_run requests :
  forall clock rl adm id now,
    consistent clock rl adm ->
    StronglySorted Z.le (clock :: requests.*2 ++ [now]) ->
    (_check_rate_limit id now (foldl serve (rl, adm) requests).1).1
    = Ok (bool_decide
            (admitted_in_window id now (foldl serve (rl, adm) requests).2
             < RATE_LIMIT_MAX_REQUESTS)%nat).
Proof.
  induction requests as [|[r t] rs IH]; intros clock rl adm id now Hinv Hs;
    simpl.
  - apply StronglySorted_inv in Hs as [_ Hs].
    apply Forall_inv in Hs.
    destruct (check_step clock rl adm id now Hinv Hs) as (rl' & -> & _).
    done.
  - apply StronglySorted_inv in Hs as [Hs Hall].
    simpl in Hall. apply Forall_inv in Hall.
    destruct (check_step clock rl adm r t Hinv Hall) as (rl' & Hstep & Hinv').
    assert (Hserve : serve (rl, adm) (r, t)
                     = (rl', if bool_decide
                                  (admitted_in_window r t adm
                                   < RATE_LIMIT_MAX_REQUESTS)%nat
                             then adm ++ [(r, t)] else adm)).
    { unfold serve. simpl. rewrite Hstep. by case_bool_decide. }
    rewrite Hserve. by apply (IH t).
Qed.

(** X29: the sliding window.  With a clock that never goes back,
    starting from an empty dict, after any sequence of checks the next
    check raises nothing and admits the request exactly when fewer than
    [RATE_LIMIT_MAX_REQUESTS] requests with the same id were admitted
    within the [RATE_LIMIT_WINDOW] seconds before it. *)
Theorem sliding_window_limit (requests : list (string * Z))
    (request_id : string) (now : Z) :
  StronglySorted Z.le (requests.*2 ++ [now]) ->
  (_check_rate_limit request_id now (foldl serve (∅, []) requests).1).1
  = Ok (bool_decide
          (admitted_in_window request_id now (foldl serve (∅, []) requests).2
           < RATE_LIMIT_MAX_REQUESTS)%nat).
Proof.
  intros Hs.
  assert (Hstart : forall clock, consistent clock ∅ []).
  { intros clock. split.
    - intros id ts Hts. by rewrite lookup_empty in Hts.
    - intros id w _. by rewrite lookup_empty. }
  destruct requests as [|[r t] rs].
  - apply (serve_run [] now); [apply Hstart|].
    simpl. repeat constructor. lia.
  - apply (serve_run ((r, t) :: rs) t); [apply Hstart|].
    constructor; [exact Hs|].
    simpl in *. apply StronglySorted_inv in Hs as [_ Hall].
    constructor; [lia|exact Hall].
Qed.

Lemma sliding_window_limit_witness :
  (_check_rate_limit "default" 70 (foldl serve (∅, []) three_requests).1).1
  = Ok (bool_decide
          (admitted_in_window "default" 70
             (foldl serve (∅, []) three_requests).2
           < RATE_LIMIT_MAX_REQUESTS)%nat).
Proof.
  apply (sliding_window_limit three_requests "default" 70).
  simpl. repeat constructor; lia.
Defined.

End RateLimitFacts.
